(** * Funding-rate fetcher: interval inference and cross-exchange comparison

    A shallow embedding of the two handlers of the repository,
    [src/api/funding-rates.js] (module [FundingRatesJs]) and the second
    handler file [src/unnamed/part_000] (module [Part000]), with the
    properties of the specification stated over them.

    Conventions of the embedding.
    - A JavaScript number that counts milliseconds or hours is a [Z].
    - A percentage printed by [toFixed(6)] is held as its count of
      millionths (["0.010000"] is [10000]); a raw rate of an exchange is
      held as its count of 1e-8, the resolution the exchanges quote, so
      that [(rate * 100).toFixed(6)] is the same count.  [parseFloat] of a
      six-decimal string, the difference of two of them and its
      [toFixed(6)] are exact in these units for the magnitudes of funding
      rates (the binary64 error stays far below half a millionth).
    - A finite binary64 price is a rational ([Q]); prices are only copied.
    - The average rate of [part_000] is a sum and a quotient of parsed
      rates, which round: it is computed in binary64 ([PrimFloat]).
    - An [async] function is a computation [io]: the requests it sends
      to the exchanges, in order, and [Ok v] for a fulfilled promise or
      [Throw msg] for a rejected one.  An array that a loop fills is
      passed from one iteration to the next.
    - How long a fetch or a request takes is part of the input: the
      handler of [funding-rates.js] races each source against a 20 s
      timer, and the callbacks of a [Promise.all] batch in [part_000]
      push their records in the order their requests complete.
    - [Array.prototype.sort] with a consistent comparator is the stable
      sort ([sortBy]); [localeCompare] is a parameter. *)

From Stdlib Require Import ZArith QArith List String Ascii Bool Lia.
From Stdlib Require Import Sorted Permutation OrderedTypeEx.
From Stdlib Require PrimFloat Uint63.
Import ListNotations.
Local Open Scope string_scope.
Local Open Scope list_scope.
Local Open Scope Z_scope.

(** ** JavaScript strings *)

Module JsString.

(** [s.startsWith(p)] *)
Fixpoint startsWith (p s : string) : bool :=
  match p, s with
  | EmptyString, _ => true
  | String _ _, EmptyString => false
  | String a p', String b s' => Ascii.eqb a b && startsWith p' s'
  end.

(** [s.includes(p)] *)
Fixpoint includes (p s : string) : bool :=
  startsWith p s ||
  match s with
  | EmptyString => false
  | String _ s' => includes p s'
  end.

Fixpoint drop (n : nat) (s : string) : string :=
  match n, s with
  | O, _ => s
  | S _, EmptyString => EmptyString
  | S n', String _ s' => drop n' s'
  end.

(** [s.replace(p, '')]: the first occurrence of [p] is removed. *)
Fixpoint removeFirst (p s : string) : string :=
  if startsWith p s then drop (String.length p) s
  else match s with
       | EmptyString => EmptyString
       | String c s' => String c (removeFirst p s')
       end.

(** [s.split(sep)[0]] for a one-character separator. *)
Fixpoint splitHead (sep : ascii) (s : string) : string :=
  match s with
  | EmptyString => EmptyString
  | String c s' => if Ascii.eqb c sep then EmptyString
                   else String c (splitHead sep s')
  end.

Definition upperChar (c : ascii) : ascii :=
  let n := nat_of_ascii c in
  if (Nat.leb 97 n && Nat.leb n 122)%bool then ascii_of_nat (n - 32) else c.

(** [s.toUpperCase()] on ASCII text. *)
Fixpoint toUpperCase (s : string) : string :=
  match s with
  | EmptyString => EmptyString
  | String c s' => String (upperChar c) (toUpperCase s')
  end.

(** [s.length] as a number. *)
Definition len (s : string) : Z := Z.of_nat (String.length s).

(** [list.includes(s)] for an array of strings. *)
Definition inArray (s : string) (l : list string) : bool :=
  existsb (String.eqb s) l.

End JsString.

(** ** Promises and exceptions *)

Inductive exn (A : Type) : Type :=
| Ok (a : A)
| Throw (message : string).
Arguments Ok {A} a.
Arguments Throw {A} message.

(** A pending promise settles after some time or never does. *)
Inductive promise (A : Type) : Type :=
| Settles (ms : Z) (outcome : exn A)
| Never.
Arguments Settles {A} ms outcome.
Arguments Never {A}.

(** [await Promise.race([p, new Promise((_, reject) =>
      setTimeout(() => reject(new Error(msg)), limit))])]:
    the promise wins when it settles before the timer fires. *)
Definition raceTimeout {A : Type} (p : promise A) (limit : Z) (msg : string) : exn A :=
  match p with
  | Settles ms outcome => if ms <? limit then outcome else Throw msg
  | Never => Throw msg
  end.

(** ** Values read from the exchanges *)

(** A timestamp field: [undefined]/[null], [NaN], or a number of
    milliseconds. *)
Inductive tstamp : Type :=
| Absent
| NaN
| Ms (ms : Z).

(** [!!t] *)
Definition truthyT (t : tstamp) : bool :=
  match t with
  | Ms ms => negb (ms =? 0)
  | _ => false
  end.

(** A datetime field: missing (or the empty string), a string [Date]
    cannot parse, or an ISO-8601 string naming an instant. *)
Inductive datestr : Type :=
| NoDate
| BadDate
| IsoDate (ms : Z).

Definition truthyD (d : datestr) : bool :=
  match d with
  | NoDate => false
  | _ => true
  end.

(** [new Date(d).getTime()] for a string [d]. *)
Definition getTime (d : datestr) : tstamp :=
  match d with
  | IsoDate ms => Ms ms
  | _ => NaN
  end.

(** A raw funding rate: [undefined], [null], or a number (count of 1e-8). *)
Inductive rawRate : Type :=
| RUndefined
| RNull
| RNum (r : Z).

(** [!!n] for an interval held in a variable that starts as [null]. *)
Definition truthyI (i : option Z) : bool :=
  match i with
  | Some z => negb (z =? 0)
  | None => false
  end.

(** ** Interval calculator (the same text in both files) *)

(** [Math.round(d / (1000 * 60 * 60))] for an integer [d]:
    [Math.round x] is [floor (x + 1/2)]. *)
Definition roundHours (d : Z) : Z := (d + 1800000) / 3600000.

Definition calculateFundingInterval (currentTime nextTime : tstamp) : option Z :=
  if negb (truthyT currentTime) || negb (truthyT nextTime) then None
  else match currentTime, nextTime with
       | Ms c, Ms n =>
           let diffMs := n - c in
           Some (roundHours diffMs)
       | _, _ => None
       end.

(** [interval && interval > 0 && interval <= 24] *)
Definition validInterval (interval : option Z) : bool :=
  truthyI interval &&
  match interval with
  | Some i => (0 <? i) && (i <=? 24)
  | None => false
  end.

(** ** Records *)

Record FundingRecord : Type := mkRecord {
  exchange : string;
  symbol : string;
  fullSymbol : string;
  fundingRate : option Z;
  fundingTimestamp : tstamp;
  fundingDatetime : datestr;
  nextFundingTime : tstamp;
  nextFundingDatetime : datestr;
  fundingIntervalHours : option Z;
  markPrice : option Q;
  indexPrice : option Q
}.

(** The value of one key of [exchange.fetchFundingRates()]. *)
Record FundingInfo : Type := mkInfo {
  i_fundingRate : rawRate;
  i_fundingTimestamp : tstamp;
  i_fundingDatetime : datestr;
  i_nextFundingTime : tstamp;
  i_nextFundingDatetime : datestr;
  i_markPrice : option Q;
  i_indexPrice : option Q
}.

Record HistoryEvent : Type := mkEvent { timestamp : tstamp }.

Record Market : Type := mkMarket { swap : bool }.

Record Ticker : Type := mkTicker { last : option Q }.

(** The CCXT exchange instance, as the calls the handlers make on it.
    An object is given by its entries in [Object.keys] order. *)
Record Exchange : Type := mkExchange {
  id : string;
  loadMarkets : exn (list (string * Market));
  fetchFundingRates : exn (option (list (string * option FundingInfo)));
  fetchFundingRateHistory : string -> exn (option (list HistoryEvent));
  fetchTicker : string -> exn Ticker
}.

(** ** Requests *)

(** The network requests a run issues, in the order it issues them. *)
Inductive call : Type :=
| LoadMarkets
| FetchFundingRates
| FetchFundingRateHistory (sym : string)
| FetchTicker (sym : string)
| FundingRateEndpoint.

Definition request : Type := (string * call)%type.

(** A computation that issues requests and then returns or throws. *)
Definition io (A : Type) : Type := (exn A * list request)%type.

Definition ret {A : Type} (a : A) : io A := (Ok a, []).

Definition raise {A : Type} (e : string) : io A := (Throw e, []).

Definition bindIO {A B : Type} (m : io A) (k : A -> io B) : io B :=
  match m with
  | (Ok a, l) => let (r, l') := k a in (r, l ++ l')
  | (Throw e, l) => (Throw e, l)
  end.

Definition catchIO {A : Type} (body : io A) (handler : string -> io A) : io A :=
  match body with
  | (Ok a, l) => (Ok a, l)
  | (Throw e, l) => let (r, l') := handler e in (r, l ++ l')
  end.

(** [await ex.method(...)]: the request goes out, its outcome comes back. *)
Definition await {A : Type} (ex : Exchange) (c : call) (outcome : exn A) : io A :=
  (outcome, [(id ex, c)]).

Declare Scope io_scope.
Delimit Scope io_scope with io.
Notation "x <-- m ;; k" := (bindIO m (fun x => k))
  (at level 61, m at next level, right associativity) : io_scope.
Notation "'try' b 'catch' h" := (catchIO b (fun _ => h))
  (at level 62, b at level 61, h at level 61) : io_scope.

Definition outcome {A : Type} (m : io A) : exn A := fst m.
Definition requests {A : Type} (m : io A) : list request := snd m.

(** [for (const x of xs) { try { st = body(st, x) } catch (e) { } }]:
    the state is updated by the last statements of the body, so an
    iteration that throws leaves it as it was. *)
Fixpoint forOfTry {S X : Type} (body : S -> X -> io S) (xs : list X) (st : S) : io S :=
  match xs with
  | [] => ret st
  | x :: xs' =>
      (st' <-- (try body st x catch ret st) ;;
       forOfTry body xs' st')%io
  end.

(** [getFundingIntervalForSymbol] (the same text in both files). *)
Definition getFundingIntervalForSymbol (ex : Exchange) (sym : string) : io (option Z) :=
  (r <-- (try
            (fundingHistory <-- await ex (FetchFundingRateHistory sym)
                                  (fetchFundingRateHistory ex sym) ;;
             match fundingHistory with
             | Some (h0 :: h1 :: _) =>
                 let interval := calculateFundingInterval (timestamp h0) (timestamp h1) in
                 ret (Some interval)
             | _ => ret None
             end)
          catch ret None) ;;
   match r with
   | Some interval => ret interval
   | None => ret None
   end)%io.

(** ** Stable sort *)

Section Sort.
Context {A : Type} (cmp : A -> A -> Z).

Fixpoint insertBy (x : A) (l : list A) : list A :=
  match l with
  | [] => [x]
  | y :: l' => if cmp x y <=? 0 then x :: y :: l' else y :: insertBy x l'
  end.

(** [l.sort(cmp)] *)
Definition sortBy (l : list A) : list A := fold_right insertBy [] l.

(** [a] may stand before [b]. *)
Definition ordered (a b : A) : Prop := cmp a b <= 0.
End Sort.

(** ** Exceptions inside synchronous code *)

Definition bindE {A B : Type} (m : exn A) (k : A -> exn B) : exn B :=
  match m with
  | Ok a => k a
  | Throw e => Throw e
  end.

(** [new Date(ms).toISOString()] throws a [RangeError] outside the range
    of [Date]. *)
Definition toISOString (ms : Z) : exn datestr :=
  if Z.abs ms <=? 8640000000000000 then Ok (IsoDate ms)
  else Throw "Invalid time value".

(** [!!r] and [a || b] on the fields read from a snapshot. *)
Definition truthyR (r : rawRate) : bool :=
  match r with
  | RNum z => negb (z =? 0)
  | _ => false
  end.

Definition orT (a b : tstamp) : tstamp := if truthyT a then a else b.

Definition orD (a b : datestr) : datestr := if truthyD a then a else b.

(** [(r * 100).toFixed(6)], in millionths, for a truthy [r]. *)
Definition percent6 (r : rawRate) : Z :=
  match r with
  | RNum z => z
  | _ => 0
  end.

(** [parseFloat(rate) || 0], in millionths. *)
Definition rateOrZero (rate : option Z) : Z :=
  match rate with
  | Some z => z
  | None => 0
  end.

(** ** Interval statistics (the same text in both handlers) *)

Definition sameInterval (a b : option Z) : bool :=
  match a, b with
  | Some x, Some y => x =? y
  | None, None => true
  | _, _ => false
  end.

(** [stats[key] = (stats[key] || 0) + 1] with the key [`${interval}H`]
    held as the interval. *)
Fixpoint countInterval (interval : option Z) (stats : list (option Z * Z))
    : list (option Z * Z) :=
  match stats with
  | [] => [(interval, 0 + 1)]
  | (k, n) :: rest =>
      if sameInterval interval k then (k, n + 1) :: rest
      else (k, n) :: countInterval interval rest
  end.

Definition intervalStats (allRates : list FundingRecord) : list (option Z * Z) :=
  fold_left (fun stats item => countInterval (fundingIntervalHours item) stats)
            allRates [].

(** ** Objects used as maps *)

Module JsObject.

(** An object with string keys, as its own entries in the order the
    keys were first written.  Keys are taken not to be names that
    [Object.prototype] defines. *)
Definition t (V : Type) : Type := list (string * V).

(** [o[k] = v] *)
Fixpoint set {V : Type} (k : string) (v : V) (o : t V) : t V :=
  match o with
  | [] => [(k, v)]
  | (k', v') :: o' =>
      if String.eqb k k' then (k, v) :: o' else (k', v') :: set k v o'
  end.

(** [o[k]], [None] for [undefined]. *)
Fixpoint get {V : Type} (k : string) (o : t V) : option V :=
  match o with
  | [] => None
  | (k', v') :: o' => if String.eqb k k' then Some v' else get k o'
  end.

Definition digit (c : ascii) : option N :=
  let n := N_of_ascii c in
  if ((48 <=? n) && (n <=? 57))%N then Some (n - 48)%N else None.

Fixpoint parseDigits (s : string) (acc : N) : option N :=
  match s with
  | EmptyString => Some acc
  | String c s' =>
      match digit c with
      | Some d => parseDigits s' (10 * acc + d)%N
      | None => None
      end
  end.

(** The array index a key denotes: a canonical decimal numeral below
    2^32 - 1. *)
Definition arrayIndex (k : string) : option N :=
  match k with
  | EmptyString => None
  | String c rest =>
      if Ascii.eqb c "0"%char && negb (String.eqb rest "") then None
      else match parseDigits k 0 with
           | Some n => if (n <? 4294967295)%N then Some n else None
           | None => None
           end
  end.

Definition isIndex (k : string) : bool :=
  match arrayIndex k with
  | Some _ => true
  | None => false
  end.

Definition indexOf (k : string) : Z :=
  match arrayIndex k with
  | Some n => Z.of_N n
  | None => 0
  end.

(** [Object.keys(o)]: array indices in ascending order, then the other
    keys in the order they were written. *)
Definition keys {V : Type} (o : t V) : list string :=
  let ks := map fst o in
  sortBy (fun a b => indexOf a - indexOf b) (filter isIndex ks) ++
  filter (fun k => negb (isIndex k)) ks.

(** [new Set(l)], as the list of its members in insertion order. *)
Fixpoint setOf (l : list string) : list string :=
  match l with
  | [] => []
  | x :: l' => x :: filter (fun y => negb (String.eqb x y)) (setOf l')
  end.

End JsObject.

(** * [src/api/funding-rates.js] *)

Module FundingRatesJs.
Import JsString.

(** *** Method 4: the fallback tables *)

Definition major8HCoins : list string :=
  [ "BTC"; "ETH"; "BNB"; "XRP"; "ADA"; "SOL"; "DOT"; "DOGE"; "AVAX"; "SHIB";
    "MATIC"; "LTC"; "UNI"; "LINK"; "TRX"; "BCH"; "NEAR"; "ATOM"; "XLM"; "HBAR";
    "VET"; "FIL"; "ETC"; "THETA"; "ICP"; "MANA"; "SAND"; "AXS"; "ALGO"; "EGLD";
    "XTZ"; "AAVE"; "GRT"; "KLAY"; "FLOW"; "FTM"; "LRC"; "CRV"; "SNX"; "COMP" ].

Definition likely1HCoins : list string :=
  [ "FDUSD"; "TUSD"; "NEIRO"; "DOGS"; "HMSTR"; "CATI"; "EIGEN"; "SCR"; "LUMIA";
    "MEMEFI"; "VANA"; "VELODROME"; "MOVE"; "ME"; "USUAL"; "PENGU"; "HYPERLIQUID";
    "ZBT"; "DOOD"; "MELANIA"; "TRUMP"; "PNUT"; "ACT"; "GOAT" ].

Definition isMemeOrVolatile (baseSymbol : string) : bool :=
  includes "DOGE" baseSymbol || includes "SHIB" baseSymbol ||
  includes "MEME" baseSymbol || includes "PEPE" baseSymbol ||
  includes "FLOKI" baseSymbol || includes "BONK" baseSymbol.

(** The body of [if (!fundingIntervalHours) { ... }] under "Method 4". *)
Definition smartFallback (sym baseSymbol : string) : Z :=
  let is1000Coin := startsWith "1000" baseSymbol in
  let isNewCoin := includes "-" sym || (6 <? len baseSymbol) in
  if inArray baseSymbol likely1HCoins || isMemeOrVolatile baseSymbol then 1
  else if inArray baseSymbol major8HCoins || is1000Coin then 8
  else if isNewCoin || (5 <? len baseSymbol) then
    (if 7 <=? len baseSymbol then 2 else 4)
  else 4.

(** *** Methods 1 to 3 *)

Definition method1 (data : FundingInfo) : option Z :=
  if truthyT (i_fundingTimestamp data) && truthyT (i_nextFundingTime data) then
    let interval :=
      calculateFundingInterval (i_fundingTimestamp data) (i_nextFundingTime data) in
    if validInterval interval then interval else None
  else None.

Definition method2 (data : FundingInfo) (fundingIntervalHours : option Z) : option Z :=
  if negb (truthyI fundingIntervalHours) &&
     truthyD (i_fundingDatetime data) && truthyD (i_nextFundingDatetime data) then
    let currentTime := getTime (i_fundingDatetime data) in
    let nextTime := getTime (i_nextFundingDatetime data) in
    let interval := calculateFundingInterval currentTime nextTime in
    if validInterval interval then interval else fundingIntervalHours
  else fundingIntervalHours.

Definition method3 (ex : Exchange) (sym : string) (processedCount : Z)
    (fundingIntervalHours : option Z) : io (option Z) :=
  if negb (truthyI fundingIntervalHours) && (processedCount <? 50) then
    (try (historyInterval <-- getFundingIntervalForSymbol ex sym ;;
          ret (if validInterval historyInterval then historyInterval
               else fundingIntervalHours))
     catch ret fundingIntervalHours)%io
  else ret fundingIntervalHours.

Definition method4 (sym baseSymbol : string) (fundingIntervalHours : option Z)
    : option Z :=
  if negb (truthyI fundingIntervalHours) then Some (smartFallback sym baseSymbol)
  else fundingIntervalHours.

(** *** The Binance adapter *)

(** [symbol.split(':')[0].replace('/USDT', '')] *)
Definition binanceBase (sym : string) : string :=
  removeFirst "/USDT" (splitHead ":"%char sym).

Record LoopState : Type := mkLoop {
  result : list FundingRecord;
  processedCount : Z
}.

Definition binanceRecord (sym baseSymbol : string) (data : FundingInfo)
    (fundingIntervalHours : option Z) : FundingRecord :=
  {| exchange := "BINANCE";
     symbol := baseSymbol;
     fullSymbol := sym;
     fundingRate := if truthyR (i_fundingRate data)
                    then Some (percent6 (i_fundingRate data)) else Some 0;
     fundingTimestamp := i_fundingTimestamp data;
     fundingDatetime := i_fundingDatetime data;
     nextFundingTime := orT (i_nextFundingTime data) (i_fundingTimestamp data);
     nextFundingDatetime := orD (i_nextFundingDatetime data) (i_fundingDatetime data);
     fundingIntervalHours := fundingIntervalHours;
     markPrice := i_markPrice data;
     indexPrice := i_indexPrice data |}.

(** The interval of one instrument: methods 1 to 4 in turn. *)
Definition inferInterval (ex : Exchange) (sym baseSymbol : string)
    (data : FundingInfo) (processedCount : Z) : io (option Z) :=
  (let fundingIntervalHours := method1 data in
   let fundingIntervalHours := method2 data fundingIntervalHours in
   fundingIntervalHours <-- method3 ex sym processedCount fundingIntervalHours ;;
   ret (method4 sym baseSymbol fundingIntervalHours))%io.

(** The body of [for (const symbol of symbols) { try { ... } }]. *)
Definition processSymbol (ex : Exchange) (st : LoopState)
    (entry : string * option FundingInfo) : io LoopState :=
  let (sym, slot) := entry in
  match slot with
  | None => ret st
  | Some data =>
      match i_fundingRate data with
      | RUndefined => ret st
      | _ =>
          let baseSymbol := binanceBase sym in
          (fundingIntervalHours <--
             inferInterval ex sym baseSymbol data (processedCount st) ;;
           ret {| result := result st ++
                    [binanceRecord sym baseSymbol data fundingIntervalHours];
                  processedCount := processedCount st + 1 |})%io
      end
  end.

(** *** The MEXC adapter *)

Record MexcItem : Type := mkItem {
  m_symbol : option string;
  m_fundingRate : rawRate;
  m_collectCycle : option Z;      (* a value of type number, else [None] *)
  m_nextSettleTime : tstamp
}.

Record MexcResponse : Type := mkResponse {
  success : bool;
  data : option (list MexcItem)
}.

(** [t - hours * 60 * 60 * 1000] and [new Date(t).toISOString()] for a
    truthy [t]. *)
Definition minusHours (t : tstamp) (hours : Z) : tstamp :=
  match t with
  | Ms ms => Ms (ms - hours * 60 * 60 * 1000)
  | _ => NaN
  end.

Definition isoOf (t : tstamp) : exn datestr :=
  match t with
  | Ms ms => toISOString ms
  | _ => Throw "Invalid time value"
  end.

(** The callback of [data.data.forEach]: [None] when nothing is pushed. *)
Definition mexcRecord (item : MexcItem) : exn (option FundingRecord) :=
  match m_symbol item with
  | Some s =>
      if includes "USDT" s then
        let baseSymbol := toUpperCase (removeFirst "USDT" (removeFirst "_USDT" s)) in
        let fundingIntervalHours :=
          match m_collectCycle item with
          | Some c => if negb (c =? 0) then c else 8
          | None => 8
          end in
        let t := m_nextSettleTime item in
        let push fundingTimestamp fundingDatetime nextFundingTime nextFundingDatetime :=
          Ok (Some
            {| exchange := "MEXC";
               symbol := baseSymbol;
               fullSymbol := String.append baseSymbol "/USDT:USDT";
               fundingRate := if truthyR (m_fundingRate item)
                              then Some (percent6 (m_fundingRate item)) else None;
               fundingTimestamp := fundingTimestamp;
               fundingDatetime := fundingDatetime;
               nextFundingTime := nextFundingTime;
               nextFundingDatetime := nextFundingDatetime;
               fundingIntervalHours := Some fundingIntervalHours;
               markPrice := None;
               indexPrice := None |}) in
        if truthyT t then
          bindE (isoOf (minusHours t fundingIntervalHours)) (fun fundingDatetime =>
          bindE (isoOf t) (fun nextFundingDatetime =>
          push (minusHours t fundingIntervalHours) fundingDatetime
               t nextFundingDatetime))
        else push Absent NoDate Absent NoDate
      else Ok None
  | None => Ok None
  end.

(** [data.data.forEach(item => ...)] on the array [result]: an exception
    ends the loop and leaves what was pushed before it. *)
Fixpoint forEachItem (items : list MexcItem) (result : list FundingRecord)
    : list FundingRecord * exn unit :=
  match items with
  | [] => (result, Ok tt)
  | item :: rest =>
      match mexcRecord item with
      | Ok (Some r) => forEachItem rest (result ++ [r])
      | Ok None => forEachItem rest result
      | Throw e => (result, Throw e)
      end
  end.

Definition tickerRecord (sym : string) (ticker : Ticker) : FundingRecord :=
  {| exchange := "MEXC";
     symbol := removeFirst "/USDT" sym;
     fullSymbol := sym;
     fundingRate := None;
     fundingTimestamp := Absent;
     fundingDatetime := NoDate;
     nextFundingTime := Absent;
     nextFundingDatetime := NoDate;
     fundingIntervalHours := Some 8;
     markPrice := last ticker;
     indexPrice := None |}.

(** The [catch (apiError)] branch: tickers of the first 20 swap markets. *)
Definition tickerFallback (ex : Exchange) (markets : list (string * Market))
    (result : list FundingRecord) : io (list FundingRecord) :=
  let symbols :=
    firstn 20 (map fst (filter (fun m => includes "/USDT" (fst m) && swap (snd m))
                               markets)) in
  forOfTry (fun result sym =>
              (ticker <-- await ex (FetchTicker sym) (fetchTicker ex sym) ;;
               ret (result ++ [tickerRecord sym ticker]))%io)
           symbols result.


(** *** The comparison table and the response *)

Inductive favor : Type := BINANCE | MEXC | EQUAL | BINANCE_ONLY | MEXC_ONLY.

Definition sameFavor (a b : favor) : bool :=
  match a, b with
  | BINANCE, BINANCE | MEXC, MEXC | EQUAL, EQUAL
  | BINANCE_ONLY, BINANCE_ONLY | MEXC_ONLY, MEXC_ONLY => true
  | _, _ => false
  end.

(** One exchange's column of a table row; [NotAvailable] is the object
    whose four fields are ['N/A']. *)
Inductive side : Type :=
| NotAvailable
| Side (fundingRate fundingIntervalHours : option Z)
       (nextFundingDatetime : datestr) (markPrice : option Q).

(** A table row.  [None] in the two differences is ['N/A'].  The field
    [differenceCategory] compares a binary64 difference with 0.1 and
    0.05 and is not part of the embedding. *)
Record ComparisonEntry : Type := mkEntry {
  e_symbol : string;
  e_binance : side;
  e_mexc : side;
  fundingRateDifference : option Z;
  absoluteDifference : option Z;
  favorableExchange : favor
}.

(** The response body, without its clock readings and the counts by
    [differenceCategory]. *)
Record Payload : Type := mkPayload {
  totalUniqueCoins : Z;
  commonCoins : Z;
  exchangesBinance : Z;
  exchangesMexc : Z;
  fundingIntervals : list (option Z * Z);
  favorsBinance : Z;
  favorsMexc : Z;
  tableData : list ComparisonEntry;
  rawBinance : list FundingRecord;
  rawMexc : list FundingRecord
}.

Inductive response : Type :=
| End200
| Json405
| Json200 (payload : Payload)
| Json500 (message : string).

(** The constant [exchanges], and how long each fetch takes. *)
Record Exchanges : Type := mkExchanges { binance : Exchange; mexc : Exchange }.

Record Clock : Type := mkClock {
  binanceElapsed : option Z;
  mexcElapsed : option Z
}.

Section Host.
(** [a.localeCompare(b)] of the host, and the answer of
    [fetch('https://contract.mexc.com/api/v1/contract/funding_rate')]
    read as JSON. *)
Variable localeCompare : string -> string -> Z.
Variable fundingRateEndpoint : exn MexcResponse.

Definition bySymbol (a b : FundingRecord) : Z :=
  localeCompare (symbol a) (symbol b).

Definition fetchBinanceFundingRates (ex : Exchange) : io (list FundingRecord) :=
  (try (_ <-- await ex LoadMarkets (loadMarkets ex) ;;
        fundingRates <-- await ex FetchFundingRates (fetchFundingRates ex) ;;
        match fundingRates with
        | None => ret []
        | Some [] => ret []
        | Some entries =>
            let symbols :=
              filter (fun e => includes "USDT" (fst e) && includes ":" (fst e))
                     entries in
            st <-- forOfTry (processSymbol ex) symbols
                     {| result := []; processedCount := 0 |} ;;
            ret (sortBy bySymbol (result st))
        end)
   catch ret [])%io.

Definition fetchMexcFundingRates (ex : Exchange) : io (list FundingRecord) :=
  (try (markets <-- await ex LoadMarkets (loadMarkets ex) ;;
        direct <-- (Ok match fundingRateEndpoint with
                       | Ok response =>
                           if success response then
                             match data response with
                             | Some items => forEachItem items []
                             | None => ([], Ok tt)
                             end
                           else ([], Ok tt)
                       | Throw e => ([], Throw e)
                       end,
                    [(id ex, FundingRateEndpoint)]) ;;
        result <-- match snd direct with
                   | Ok _ => ret (fst direct)
                   | Throw _ => tickerFallback ex markets (fst direct)
                   end ;;
        ret (sortBy bySymbol result))
   catch ret [])%io.

Definition fetchFundingRates (exchangeName : string) (ex : Exchange)
    : io (list FundingRecord) :=
  (try (if String.eqb exchangeName "mexc" then fetchMexcFundingRates ex
        else if String.eqb exchangeName "binance" then fetchBinanceFundingRates ex
        else ret [])
   catch ret [])%io.

(** *** The handler *)

(** A fetch that takes [elapsed] milliseconds ([None]: it hangs),
    raced against a timer of [limit] milliseconds.  Its requests stay
    in the log whoever wins. *)
Definition racing {A : Type} (elapsed : option Z) (fetch : io A)
    (limit : Z) (msg : string) : io A :=
  (raceTimeout match elapsed with
               | Some ms => Settles ms (outcome fetch)
               | None => Never
               end limit msg,
   requests fetch).

Definition toMap (rates : list FundingRecord) : JsObject.t FundingRecord :=
  fold_left (fun m item => JsObject.set (symbol item) item m) rates [].

Definition isNull {A : Type} (v : option A) : bool :=
  match v with
  | Some _ => false
  | None => true
  end.

Definition sideOf (item : FundingRecord) : side :=
  Side (fundingRate item) (fundingIntervalHours item)
       (nextFundingDatetime item) (markPrice item).

(** The callback of [allSymbols.forEach]: the entries it pushes. *)
Definition compareSymbol (binanceMap mexcMap : JsObject.t FundingRecord)
    (sym : string) : list ComparisonEntry :=
  match JsObject.get sym binanceMap, JsObject.get sym mexcMap with
  | Some binanceData, Some mexcData =>
      if negb (isNull (fundingRate binanceData)) ||
         negb (isNull (fundingRate mexcData)) then
        let binanceRate := rateOrZero (fundingRate binanceData) in
        let mexcRate := rateOrZero (fundingRate mexcData) in
        let difference := mexcRate - binanceRate in
        [ {| e_symbol := sym;
             e_binance := sideOf binanceData;
             e_mexc := sideOf mexcData;
             fundingRateDifference := Some difference;
             absoluteDifference := Some (Z.abs difference);
             favorableExchange :=
               if 0 <? difference then BINANCE
               else if difference <? 0 then MEXC else EQUAL |} ]
      else []
  | _, _ => []
  end.

(** [parseFloat(a.fundingRateDifference) - parseFloat(b.fundingRateDifference)] *)
Definition byDifference (a b : ComparisonEntry) : Z :=
  rateOrZero (fundingRateDifference a) - rateOrZero (fundingRateDifference b).

Definition allSymbols (binanceRates mexcRates : list FundingRecord) : list string :=
  JsObject.setOf (JsObject.keys (toMap binanceRates) ++
                  JsObject.keys (toMap mexcRates)).

Definition comparisonTable (binanceRates mexcRates : list FundingRecord)
    : list ComparisonEntry :=
  sortBy byDifference
    (flat_map (compareSymbol (toMap binanceRates) (toMap mexcRates))
              (allSymbols binanceRates mexcRates)).

Definition binanceOnly (item : FundingRecord) : ComparisonEntry :=
  {| e_symbol := symbol item;
     e_binance := sideOf item;
     e_mexc := NotAvailable;
     fundingRateDifference := None;
     absoluteDifference := None;
     favorableExchange := BINANCE_ONLY |}.

Definition mexcOnly (item : FundingRecord) : ComparisonEntry :=
  {| e_symbol := symbol item;
     e_binance := NotAvailable;
     e_mexc := sideOf item;
     fundingRateDifference := None;
     absoluteDifference := None;
     favorableExchange := MEXC_ONLY |}.

Definition finalTableData (binanceRates mexcRates : list FundingRecord)
    : list ComparisonEntry :=
  let comparisonTable := comparisonTable binanceRates mexcRates in
  if (Z.of_nat (List.length comparisonTable) =? 0) then
    let topBinance := firstn 10 binanceRates in
    let topMexc := firstn 10 mexcRates in
    map binanceOnly topBinance ++ map mexcOnly topMexc
  else comparisonTable.

Definition countFavor (f : favor) (table : list ComparisonEntry) : Z :=
  Z.of_nat (List.length (filter (fun item => sameFavor (favorableExchange item) f) table)).

Definition buildResponse (binanceRates mexcRates : list FundingRecord) : Payload :=
  let comparisonTable := comparisonTable binanceRates mexcRates in
  let allRates := binanceRates ++ mexcRates in
  {| totalUniqueCoins := Z.of_nat (List.length (allSymbols binanceRates mexcRates));
     commonCoins := Z.of_nat (List.length comparisonTable);
     exchangesBinance := Z.of_nat (List.length binanceRates);
     exchangesMexc := Z.of_nat (List.length mexcRates);
     fundingIntervals := intervalStats allRates;
     favorsBinance := countFavor BINANCE comparisonTable;
     favorsMexc := countFavor MEXC comparisonTable;
     tableData := finalTableData binanceRates mexcRates;
     rawBinance := binanceRates;
     rawMexc := mexcRates |}.

(** The body of the outer [try] of [handler]. *)
Definition run (exchanges : Exchanges) (clock : Clock) : io Payload :=
  (binanceRates <--
     (try racing (binanceElapsed clock)
                 (fetchFundingRates "binance" (binance exchanges))
                 20000 "Binance 20s timeout"
      catch ret []) ;;
   mexcRates <--
     (try racing (mexcElapsed clock)
                 (fetchFundingRates "mexc" (mexc exchanges))
                 20000 "MEXC 20s timeout"
      catch ret []) ;;
   ret (buildResponse binanceRates mexcRates))%io.

Definition handler (exchanges : Exchanges) (clock : Clock) (method : string)
    : io response :=
  if String.eqb method "OPTIONS" then ret End200
  else if negb (String.eqb method "GET") then ret Json405
  else catchIO (payload <-- run exchanges clock ;; ret (Json200 payload))%io
               (fun message => ret (Json500 message)).

End Host.

End FundingRatesJs.

(** * [src/unnamed/part_000] *)

Module Part000.
Import JsString.

(** What one callback of [batch.map(async (symbol) => ...)] does: the
    requests it issues before it first suspends, how long it then stays
    suspended ([None]: it never suspends), and its outcome. *)
Record Task : Type := mkTask {
  t_requests : list request;
  t_latency : option Z;
  t_outcome : exn (option FundingRecord)
}.

Definition suspended (t : Task) : bool :=
  match t_latency t with
  | Some _ => true
  | None => false
  end.

Definition byLatency (a b : Task) : Z :=
  rateOrZero (t_latency a) - rateOrZero (t_latency b).

Definition pushed (t : Task) : list FundingRecord :=
  match t_outcome t with
  | Ok (Some r) => [r]
  | _ => []
  end.

Definition rejection (t : Task) : list string :=
  match t_outcome t with
  | Throw e => [e]
  | Ok _ => []
  end.

(** [await Promise.all(tasks)] on the array [result]: the callbacks run in
    order up to their first [await]; one that never suspends pushes at
    once, the others push as their requests complete.  A rejected callback
    rejects the whole. *)
Definition promiseAll (tasks : list Task) (result : list FundingRecord)
    : io (list FundingRecord) :=
  let log := flat_map t_requests tasks in
  match flat_map rejection tasks with
  | e :: _ => (Throw e, log)
  | [] =>
      (Ok (result ++
           flat_map pushed (filter (fun t => negb (suspended t)) tasks) ++
           flat_map pushed (sortBy byLatency (filter suspended tasks))),
       log)
  end.

(** The slices [symbols.slice(i, i + batchSize)] of
    [for (let i = 0; i < bound; i += batchSize)]. *)
Fixpoint slicesFrom {X : Type} (fuel i : nat) (bound batchSize : nat) (symbols : list X)
    : list (list X) :=
  match fuel with
  | O => []
  | S fuel' =>
      if Nat.ltb i bound then
        firstn batchSize (skipn i symbols) ::
        slicesFrom fuel' (i + batchSize) bound batchSize symbols
      else []
  end.

Definition slices {X : Type} (bound batchSize : nat) (symbols : list X) : list (list X) :=
  slicesFrom bound 0 bound batchSize symbols.

Fixpoint forBatches {X : Type} (run : list X -> list FundingRecord -> io (list FundingRecord))
    (batches : list (list X)) (result : list FundingRecord) : io (list FundingRecord) :=
  match batches with
  | [] => ret result
  | batch :: rest =>
      (result' <-- run batch result ;; forBatches run rest result')%io
  end.

Section Host.
(** How long the exchange takes to answer a request for one symbol. *)
Variable historyLatency : string -> Z.
Variable tickerLatency : string -> Z.

Definition tickerTask (ex : Exchange) (sym : string) : Task :=
  {| t_requests := [(id ex, FetchTicker sym)];
     t_latency := Some (tickerLatency sym);
     t_outcome :=
       match fetchTicker ex sym with
       | Ok ticker =>
           let baseSymbol := removeFirst "/USDT" sym in
           let fundingIntervalHours := 8 in
           Ok (Some {| exchange := "MEXC";
                       symbol := baseSymbol;
                       fullSymbol := sym;
                       fundingRate := None;
                       fundingTimestamp := Absent;
                       fundingDatetime := NoDate;
                       nextFundingTime := Absent;
                       nextFundingDatetime := NoDate;
                       fundingIntervalHours := Some fundingIntervalHours;
                       markPrice := last ticker;
                       indexPrice := None |})
       | Throw _ => Ok None
       end |}.

Definition fetchMexcFundingRates (ex : Exchange) : io (list FundingRecord) :=
  (try (markets <-- await ex LoadMarkets (loadMarkets ex) ;;
        let symbols :=
          map fst (filter (fun m => includes "/USDT" (fst m) && swap (snd m)) markets) in
        let batchSize := 5%nat in
        forBatches (fun batch result => promiseAll (map (tickerTask ex) batch) result)
                   (slices (Nat.min (List.length symbols) 50) batchSize symbols) [])
   catch ret [])%io.

(** The callback of [batch.map] in [fetchFundingRates]. *)
Definition rateTask (exchangeName : string) (ex : Exchange)
    (entry : string * option FundingInfo) : Task :=
  let (sym, slot) := entry in
  match slot with
  | None =>
      {| t_requests := []; t_latency := None;
         t_outcome := Throw "Cannot read properties of undefined" |}
  | Some data =>
      let baseSymbol := removeFirst "/USDT" (splitHead ":"%char sym) in
      let first :=
        if truthyT (i_fundingTimestamp data) && truthyT (i_nextFundingTime data)
        then calculateFundingInterval (i_fundingTimestamp data) (i_nextFundingTime data)
        else None in
      let lookup := getFundingIntervalForSymbol ex sym in
      let second :=
        if negb (truthyI first) then
          match outcome lookup with
          | Ok interval => interval
          | Throw _ => first
          end
        else first in
      let fundingIntervalHours :=
        if negb (truthyI second) then
          (if String.eqb exchangeName "binance" then Some 8 else Some 8)
        else second in
      {| t_requests := if negb (truthyI first) then requests lookup else [];
         t_latency := if negb (truthyI first) then Some (historyLatency sym) else None;
         t_outcome :=
           Ok (Some {| exchange := toUpperCase exchangeName;
                       symbol := baseSymbol;
                       fullSymbol := sym;
                       fundingRate := if truthyR (i_fundingRate data)
                                      then Some (percent6 (i_fundingRate data)) else None;
                       fundingTimestamp := i_fundingTimestamp data;
                       fundingDatetime := i_fundingDatetime data;
                       nextFundingTime := i_nextFundingTime data;
                       nextFundingDatetime := i_nextFundingDatetime data;
                       fundingIntervalHours := fundingIntervalHours;
                       markPrice := i_markPrice data;
                       indexPrice := i_indexPrice data |}) |}
  end.

Definition fetchFundingRates (exchangeName : string) (ex : Exchange)
    : io (list FundingRecord) :=
  (try (if String.eqb exchangeName "mexc" then fetchMexcFundingRates ex
        else
          _ <-- await ex LoadMarkets (loadMarkets ex) ;;
          fundingRates <-- await ex FetchFundingRates (fetchFundingRates ex) ;;
          match fundingRates with
          | None => raise "Cannot convert undefined or null to object"
          | Some entries =>
              let symbols :=
                filter (fun e => includes ":" (fst e) && includes "USDT" (fst e))
                       entries in
              let batchSize := 10%nat in
              forBatches (fun batch result =>
                            promiseAll (map (rateTask exchangeName ex) batch) result)
                         (slices (List.length symbols) batchSize symbols) []
          end)
   catch ret [])%io.

(** *** The handler *)

(** [rateB - rateA] *)
Definition byRate (a b : FundingRecord) : Z :=
  let rateA := rateOrZero (fundingRate a) in
  let rateB := rateOrZero (fundingRate b) in
  rateB - rateA.

(** The sum of [allRates.reduce((sum, item) =>
      sum + (parseFloat(item.fundingRate) || 0), 0)], in millionths, as
    it is when no addition rounds. *)
Definition rateSum (allRates : list FundingRecord) : Z :=
  fold_left (fun sum item => sum + rateOrZero (fundingRate item)) allRates 0.

(** An integer below 2^53 in absolute value as the binary64 number it
    is. *)
Definition number (k : Z) : PrimFloat.float :=
  let magnitude := PrimFloat.of_uint63 (Uint63.of_Z (Z.abs k)) in
  if k <? 0 then PrimFloat.opp magnitude else magnitude.

(** [parseFloat(item.fundingRate) || 0]: the text that [toFixed(6)]
    printed is read as the binary64 number nearest to it, which is the
    quotient of its count of millionths by 10^6; null, and a zero of
    either sign, give 0. *)
Definition parsedRate (rate : option Z) : PrimFloat.float :=
  PrimFloat.div (number (rateOrZero rate)) (number 1000000).

(** [allRates.reduce((sum, item) =>
      sum + (parseFloat(item.fundingRate) || 0), 0)] *)
Definition reduceRates (allRates : list FundingRecord) : PrimFloat.float :=
  fold_left (fun sum item => PrimFloat.add sum (parsedRate (fundingRate item)))
            allRates (number 0).

(** [averageFundingRate], before [toFixed(6)] prints it. *)
Definition averageFundingRate (allRates : list FundingRecord) : PrimFloat.float :=
  if 0 <? Z.of_nat (List.length allRates)
  then PrimFloat.div (reduceRates allRates) (number (Z.of_nat (List.length allRates)))
  else number 0.

(** The response body, without its clock readings. *)
Record Payload : Type := mkPayload {
  totalContracts : Z;
  exchangesBinance : Z;
  exchangesMexc : Z;
  fundingIntervals : list (option Z * Z);
  data : list FundingRecord;
  highestFundingRate : option FundingRecord;
  lowestFundingRate : option FundingRecord;
  average : PrimFloat.float
}.

Inductive response : Type :=
| End200
| Json405
| Json200 (payload : Payload)
| Json500 (message : string).

Record Exchanges : Type := mkExchanges { binance : Exchange; mexc : Exchange }.

Definition buildResponse (binanceRates mexcRates : list FundingRecord) : Payload :=
  let allRates := sortBy byRate (binanceRates ++ mexcRates) in
  {| totalContracts := Z.of_nat (List.length allRates);
     exchangesBinance := Z.of_nat (List.length binanceRates);
     exchangesMexc := Z.of_nat (List.length mexcRates);
     fundingIntervals := intervalStats allRates;
     data := allRates;
     highestFundingRate := nth_error allRates 0;
     lowestFundingRate := nth_error allRates (List.length allRates - 1);
     average := averageFundingRate allRates |}.

(** [handler]: both fetches are awaited together, with no timer; the
    log lists the requests of the first before those of the second. *)
Definition handler (exchanges : Exchanges) (method : string) : io response :=
  if String.eqb method "OPTIONS" then ret End200
  else if negb (String.eqb method "GET") then ret Json405
  else catchIO
         (binanceRates <-- fetchFundingRates "binance" (binance exchanges) ;;
          mexcRates <-- fetchFundingRates "mexc" (mexc exchanges) ;;
          ret (Json200 (buildResponse binanceRates mexcRates)))%io
         (fun message => ret (Json500 message)).

End Host.

End Part000.

(** * Sample runs *)

Module Sample.

(** Code-unit order, which is how [localeCompare] orders upper-case
    tickers made of letters and digits. *)
Definition codeUnitCompare (a b : string) : Z :=
  match String.compare a b with
  | Lt => -1
  | Eq => 0
  | Gt => 1
  end.

Definition info (rate : rawRate) (current next : tstamp) : FundingInfo :=
  {| i_fundingRate := rate;
     i_fundingTimestamp := current;
     i_fundingDatetime := NoDate;
     i_nextFundingTime := next;
     i_nextFundingDatetime := NoDate;
     i_markPrice := None;
     i_indexPrice := None |}.

(** An exchange that answers [fetchFundingRates] with [entries] and has
    no funding history and no tickers. *)
Definition snapshotExchange (name : string) (entries : list (string * option FundingInfo))
    : Exchange :=
  {| id := name;
     loadMarkets := Ok [];
     fetchFundingRates := Ok (Some entries);
     fetchFundingRateHistory := fun _ => Throw "not supported";
     fetchTicker := fun _ => Throw "not supported" |}.

(** An exchange none of whose calls succeeds. *)
Definition downExchange (name : string) : Exchange :=
  {| id := name;
     loadMarkets := Throw "network error";
     fetchFundingRates := Throw "network error";
     fetchFundingRateHistory := fun _ => Throw "network error";
     fetchTicker := fun _ => Throw "network error" |}.

Definition eightHours : FundingInfo :=
  info (RNum 10000) (Ms 1700000000000) (Ms 1700028800000).

Definition twoDays : FundingInfo :=
  info (RNum 10000) (Ms 1700000000000) (Ms 1700172800000).

Definition nullRate : FundingInfo :=
  info RNull (Ms 1700000000000) (Ms 1700028800000).

Definition bare : FundingInfo := info (RNum 10000) Absent Absent.

Fixpoint ticker (n : nat) : string :=
  match n with
  | O => "X"
  | S n' => String "X" (ticker n')
  end.

(** [n] perpetuals with no timestamps: X, XX, XXX, ... *)
Definition bareEntries (n : nat) : list (string * option FundingInfo) :=
  map (fun k => (String.append (ticker k) "/USDT:USDT", Some bare)) (seq 0 n).

Definition mexcItem (sym : string) (rate : rawRate) (cycle : option Z) : FundingRatesJs.MexcItem :=
  {| FundingRatesJs.m_symbol := Some sym;
     FundingRatesJs.m_fundingRate := rate;
     FundingRatesJs.m_collectCycle := cycle;
     FundingRatesJs.m_nextSettleTime := Ms 1700028800000 |}.

Definition endpoint (items : list FundingRatesJs.MexcItem) : exn FundingRatesJs.MexcResponse :=
  Ok {| FundingRatesJs.success := true; FundingRatesJs.data := Some items |}.

(** A history request that is slow for AAA and quick for the others. *)
Definition slowForAAA (sym : string) : Z :=
  if String.eqb sym "AAA/USDT:USDT" then 300 else 100.

Definition rated (name sym : string) (rate : option Z) : FundingRecord :=
  {| exchange := name;
     symbol := sym;
     fullSymbol := String.append sym "/USDT:USDT";
     fundingRate := rate;
     fundingTimestamp := Absent;
     fundingDatetime := NoDate;
     nextFundingTime := Absent;
     nextFundingDatetime := NoDate;
     fundingIntervalHours := Some 8;
     markPrice := None;
     indexPrice := None |}.

(** An item whose settlement time is beyond the range of [Date]. *)
Definition lateItem : FundingRatesJs.MexcItem :=
  {| FundingRatesJs.m_symbol := Some "ETH_USDT";
     FundingRatesJs.m_fundingRate := RNum 100;
     FundingRatesJs.m_collectCycle := Some 8;
     FundingRatesJs.m_nextSettleTime := Ms 9000000000000000 |}.

(** An exchange with three markets, of which BTC and SOL are swaps
    quoted in USDT, and whose ticker for SOL fails. *)
Definition tickerExchange : Exchange :=
  {| id := "mexc";
     loadMarkets := Ok [("BTC/USDT:USDT", mkMarket true);
                        ("ETH/USDT", mkMarket false);
                        ("SOL/USDT:USDT", mkMarket true)];
     fetchFundingRates := Throw "not supported";
     fetchFundingRateHistory := fun _ => Throw "not supported";
     fetchTicker := fun sym =>
       if String.eqb sym "BTC/USDT:USDT" then Ok (mkTicker (Some (50000 # 1)%Q))
       else Throw "timeout" |}.


End Sample.

(** * Notions used in the statements *)

(** [r] is [d] milliseconds rounded to the nearest hour, halves up. *)
Definition nearestHour (d r : Z) : Prop :=
  3600000 * (2 * r - 1) <= 2 * d < 3600000 * (2 * r + 1).

(** A candidate interval lies in (0, 24]. *)
Definition inRange (c : option Z) : bool :=
  match c with
  | Some i => (0 <? i) && (i <=? 24)
  | None => false
  end.

(** The first candidate in (0, 24], else the fallback. *)
Fixpoint firstInRange (candidates : list (option Z)) (fallback : Z) : Z :=
  match candidates with
  | [] => fallback
  | c :: rest =>
      match c with
      | Some i => if inRange c then i else firstInRange rest fallback
      | None => firstInRange rest fallback
      end
  end.

(** What each data-driven method offers for one instrument: the
    calculator on the numeric pair, on the parsed datetime pair, and on
    the first two events of the funding history (nothing when the
    request fails or returns fewer than two). *)
Definition timestampCandidate (data : FundingInfo) : option Z :=
  calculateFundingInterval (i_fundingTimestamp data) (i_nextFundingTime data).

Definition datetimeCandidate (data : FundingInfo) : option Z :=
  calculateFundingInterval (getTime (i_fundingDatetime data))
                           (getTime (i_nextFundingDatetime data)).

Definition historyCandidate (ex : Exchange) (sym : string) : option Z :=
  match fetchFundingRateHistory ex sym with
  | Ok (Some (h0 :: h1 :: _)) => calculateFundingInterval (timestamp h0) (timestamp h1)
  | _ => None
  end.

Definition isHistory (r : request) : bool :=
  match snd r with
  | FetchFundingRateHistory _ => true
  | _ => false
  end.

(** How many funding-history requests a log holds. *)
Definition historyCount (log : list request) : nat :=
  List.length (filter isHistory log).

(** The fallback classification as the specification words it: the
    rules in order, the first that applies decides. *)
Definition classifyInOrder (baseSymbol : string) : Z :=
  if JsString.inArray baseSymbol FundingRatesJs.likely1HCoins ||
     FundingRatesJs.isMemeOrVolatile baseSymbol then 1
  else if JsString.inArray baseSymbol FundingRatesJs.major8HCoins ||
          JsString.startsWith "1000" baseSymbol then 8
  else if 7 <=? JsString.len baseSymbol then 2
  else 4.

(** A record whose interval is a whole number of hours in (0, 24]. *)
Definition validRecord (r : FundingRecord) : Prop :=
  exists i, fundingIntervalHours r = Some i /\ 0 < i <= 24.

(** A record whose interval is not null. *)
Definition hasInterval (r : FundingRecord) : Prop :=
  exists i, fundingIntervalHours r = Some i.

(** The interval the MEXC endpoint states for an item, 8 when it states
    none. *)
Definition cycleOrDefault (item : FundingRatesJs.MexcItem) : Z :=
  match FundingRatesJs.m_collectCycle item with
  | Some c => if c =? 0 then 8 else c
  | None => 8
  end.

(** [l] is in ascending order of symbol. *)
Definition sortedBySymbol (localeCompare : string -> string -> Z)
    (l : list FundingRecord) : Prop :=
  Sorted (fun a b => localeCompare (symbol a) (symbol b) <= 0) l.

(** A comparator that is a total order on strings. *)
Definition consistentOrder (localeCompare : string -> string -> Z) : Prop :=
  (forall a b, 0 < localeCompare a b -> localeCompare b a <= 0) /\
  (forall a b c, localeCompare a b <= 0 -> localeCompare b c <= 0 ->
                 localeCompare a c <= 0) /\
  (forall a b, localeCompare a b <= 0 -> localeCompare b a <= 0 -> a = b).

(** A source whose instruments cannot be listed. *)
Definition cannotList (ex : Exchange) : Prop :=
  (exists e, loadMarkets ex = Throw e) \/ (exists e, fetchFundingRates ex = Throw e).

(** A fetch that does not settle before the 20 s timer fires. *)
Definition timesOut (elapsed : option Z) : Prop :=
  match elapsed with
  | Some ms => 20000 <= ms
  | None => True
  end.

(** What a source hands to the handler: the records of its fetch when
    it settles in time, nothing otherwise. *)
Definition contribution (elapsed : option Z) (fetch : io (list FundingRecord))
    : list FundingRecord :=
  match elapsed, outcome fetch with
  | Some ms, Ok l => if ms <? 20000 then l else []
  | _, _ => []
  end.

(** A row of the paired table: both columns are records, the two
    differences are numbers, and the favorable exchange is one of the
    two or a tie. *)
Definition pairedRow (e : FundingRatesJs.ComparisonEntry) : Prop :=
  (exists d, FundingRatesJs.fundingRateDifference e = Some d /\
             FundingRatesJs.absoluteDifference e = Some (Z.abs d)) /\
  FundingRatesJs.e_binance e <> FundingRatesJs.NotAvailable /\
  FundingRatesJs.e_mexc e <> FundingRatesJs.NotAvailable /\
  (FundingRatesJs.favorableExchange e = FundingRatesJs.BINANCE \/
   FundingRatesJs.favorableExchange e = FundingRatesJs.MEXC \/
   FundingRatesJs.favorableExchange e = FundingRatesJs.EQUAL).

(** The sum of the counts of a histogram. *)
Definition statTotal (stats : list (option Z * Z)) : Z :=
  fold_right (fun kv acc => snd kv + acc) 0 stats.

(** How many records have the interval [i]. *)
Definition withInterval (i : option Z) (l : list FundingRecord) : Z :=
  Z.of_nat (List.length (filter (fun r => sameInterval (fundingIntervalHours r) i) l)).

(** The count a histogram holds for the interval [i], 0 when it has no
    entry for it. *)
Fixpoint tally (i : option Z) (stats : list (option Z * Z)) : Z :=
  match stats with
  | [] => 0
  | (k, n) :: rest => if sameInterval i k then n else tally i rest
  end.

Definition isTicker (r : request) : bool :=
  match snd r with
  | FetchTicker _ => true
  | _ => false
  end.

(** How many ticker requests a log holds. *)
Definition tickerCount (log : list request) : nat :=
  List.length (filter isTicker log).

(** A record made from a ticker alone: no rate, the default interval. *)
Definition tickerShaped (r : FundingRecord) : Prop :=
  exchange r = "MEXC" /\ fundingRate r = None /\ fundingIntervalHours r = Some 8.

(** The records the items of a MEXC answer give, in order. *)
Definition mexcRecords (items : list FundingRatesJs.MexcItem) : list FundingRecord :=
  flat_map (fun item => match FundingRatesJs.mexcRecord item with
                        | Ok (Some r) => [r]
                        | _ => []
                        end) items.

(** A record as the Binance adapter builds them from a key of the
    snapshot. *)
Definition binanceShaped (r : FundingRecord) : Prop :=
  exchange r = "BINANCE" /\
  fundingRate r <> None /\
  symbol r = FundingRatesJs.binanceBase (fullSymbol r) /\
  JsString.includes "USDT" (fullSymbol r) = true /\
  JsString.includes ":" (fullSymbol r) = true.

(** The character [c] does not occur in [s]. *)
Fixpoint lacks (c : ascii) (s : string) : bool :=
  match s with
  | EmptyString => true
  | String x s' => negb (Ascii.eqb x c) && lacks c s'
  end.

(** The rate of a record as the statistics read it: null counts as 0. *)
Definition rateOf (r : FundingRecord) : Z := rateOrZero (fundingRate r).

(** The keys of a snapshot that the adapters take for USDT perpetuals. *)
Definition perpetuals (entries : list (string * option FundingInfo))
    : list (string * option FundingInfo) :=
  filter (fun e => JsString.includes ":" (fst e) && JsString.includes "USDT" (fst e))
         entries.

(** The swap markets quoted in USDT, in the order of [exchange.markets]. *)
Definition swapSymbols (markets : list (string * Market)) : list string :=
  map fst (filter (fun m => JsString.includes "/USDT" (fst m) && swap (snd m)) markets).

(** A list of records in descending order of rate. *)
Definition descending (l : list FundingRecord) : Prop :=
  StronglySorted (fun a b => rateOf b <= rateOf a) l.

(** The records of the given rate, in the order of the list. *)
Definition withRate (k : Z) (l : list FundingRecord) : list FundingRecord :=
  filter (fun r => rateOf r =? k) l.

(** A record as the generic adapter of the second handler file builds
    them for the exchange [name]. *)
Definition namedRecord (name : string) (r : FundingRecord) : Prop :=
  exchange r = JsString.toUpperCase name /\ truthyI (fundingIntervalHours r) = true.

(** The snapshot has an object under the key. *)
Definition hasData (e : string * option FundingInfo) : Prop := snd e <> None.

(** The row the fallback table shows for a record of Binance: the
    symbol of the record, its rate, interval, next funding datetime and
    mark price in the Binance column, N/A in the MEXC column and for
    the two differences, and the marker BINANCE_ONLY. *)
Definition binanceRowOf (item : FundingRecord) (e : FundingRatesJs.ComparisonEntry)
    : Prop :=
  FundingRatesJs.e_symbol e = symbol item /\
  FundingRatesJs.e_binance e =
    FundingRatesJs.Side (fundingRate item) (fundingIntervalHours item)
                        (nextFundingDatetime item) (markPrice item) /\
  FundingRatesJs.e_mexc e = FundingRatesJs.NotAvailable /\
  FundingRatesJs.fundingRateDifference e = None /\
  FundingRatesJs.absoluteDifference e = None /\
  FundingRatesJs.favorableExchange e = FundingRatesJs.BINANCE_ONLY.

(** The same for a record of MEXC. *)
Definition mexcRowOf (item : FundingRecord) (e : FundingRatesJs.ComparisonEntry)
    : Prop :=
  FundingRatesJs.e_symbol e = symbol item /\
  FundingRatesJs.e_mexc e =
    FundingRatesJs.Side (fundingRate item) (fundingIntervalHours item)
                        (nextFundingDatetime item) (markPrice item) /\
  FundingRatesJs.e_binance e = FundingRatesJs.NotAvailable /\
  FundingRatesJs.fundingRateDifference e = None /\
  FundingRatesJs.absoluteDifference e = None /\
  FundingRatesJs.favorableExchange e = FundingRatesJs.MEXC_ONLY.

(** The object under a key of the snapshot has a rate that is not
    [undefined]. *)
Definition hasRate (e : string * option FundingInfo) : bool :=
  match snd e with
  | Some data =>
      match i_fundingRate data with
      | RUndefined => false
      | _ => true
      end
  | None => false
  end.

(** The entries of a snapshot for which the Binance adapter builds a
    record: the key contains USDT and a colon, and the object has a
    rate. *)
Definition recorded (entries : list (string * option FundingInfo))
    : list (string * option FundingInfo) :=
  filter hasRate
         (filter (fun e => JsString.includes "USDT" (fst e) && JsString.includes ":" (fst e))
                 entries).

(** The record [r] is the one of the entry: it keeps the key and what
    the object holds. *)
Definition madeFrom (entry : string * option FundingInfo) (r : FundingRecord) : Prop :=
  exists data,
    snd entry = Some data /\
    exchange r = "BINANCE" /\
    fullSymbol r = fst entry /\
    symbol r = FundingRatesJs.binanceBase (fst entry) /\
    fundingRate r =
      Some (if truthyR (i_fundingRate data) then percent6 (i_fundingRate data) else 0) /\
    fundingTimestamp r = i_fundingTimestamp data /\
    fundingDatetime r = i_fundingDatetime data /\
    nextFundingTime r = orT (i_nextFundingTime data) (i_fundingTimestamp data) /\
    nextFundingDatetime r = orD (i_nextFundingDatetime data) (i_fundingDatetime data) /\
    markPrice r = i_markPrice data /\
    indexPrice r = i_indexPrice data.

(** An item of the answer on which the callback of [forEach] throws. *)
Definition throwing (item : FundingRatesJs.MexcItem) : Prop :=
  exists e, FundingRatesJs.mexcRecord item = Throw e.

(** * Properties *)

(** ** The interval calculator *)

Lemma roundHours_nearest (d : Z) : nearestHour d (roundHours d).
Proof.
  unfold nearestHour, roundHours.
  pose proof (Z.div_mod (d + 1800000) 3600000 ltac:(lia)) as E.
  pose proof (Z.mod_pos_bound (d + 1800000) 3600000 ltac:(lia)) as B.
  lia.
Qed.

Lemma nearestHour_unique (d r r' : Z) : nearestHour d r -> nearestHour d r' -> r = r'.
Proof. unfold nearestHour. lia. Qed.

Lemma truthyT_Ms (t : tstamp) :
  truthyT t = true -> exists ms, t = Ms ms /\ ms <> 0.
Proof.
  destruct t as [| |ms]; simpl; try discriminate.
  intros H. exists ms. split; [reflexivity|].
  destruct (Z.eqb_spec ms 0); [discriminate | assumption].
Qed.

Lemma calculateFundingInterval_falsy (c n : tstamp) :
  truthyT c = false \/ truthyT n = false -> calculateFundingInterval c n = None.
Proof.
  unfold calculateFundingInterval. intros [H|H]; rewrite H; simpl.
  - reflexivity.
  - now rewrite orb_true_r.
Qed.

Lemma calculateFundingInterval_numbers (c n : Z) :
  c <> 0 -> n <> 0 ->
  calculateFundingInterval (Ms c) (Ms n) = Some (roundHours (n - c)).
Proof.
  intros Hc Hn. unfold calculateFundingInterval. simpl.
  destruct (Z.eqb_spec c 0); [contradiction|].
  destruct (Z.eqb_spec n 0); [contradiction|]. reflexivity.
Qed.

(** C2, as the code has it: the calculator returns null when either
    timestamp is missing, NaN or zero, and otherwise the difference
    rounded to the nearest whole hour; 1700000000000 and 1700028800000
    give 8. *)
Theorem calculateFundingInterval_rounds :
  forall current next : tstamp,
    (truthyT current = false \/ truthyT next = false ->
     calculateFundingInterval current next = None) /\
    (forall c n, current = Ms c -> next = Ms n -> c <> 0 -> n <> 0 ->
     exists r, calculateFundingInterval current next = Some r /\
               nearestHour (n - c) r) /\
    calculateFundingInterval (Ms 1700000000000) (Ms 1700028800000) = Some 8.
Proof.
  intros current next. split; [apply calculateFundingInterval_falsy|]. split.
  - intros c n -> -> Hc Hn. exists (roundHours (n - c)). split.
    + now apply calculateFundingInterval_numbers.
    + apply roundHours_nearest.
  - reflexivity.
Qed.

Lemma calculateFundingInterval_rounds_witness :
  calculateFundingInterval Absent (Ms 1700028800000) = None /\
  exists r, calculateFundingInterval (Ms 1700000000000) (Ms 1700010000000) = Some r /\
            nearestHour (1700010000000 - 1700000000000) r.
Proof.
  split.
  - apply (proj1 (calculateFundingInterval_rounds Absent (Ms 1700028800000))).
    left. reflexivity.
  - apply (proj1 (proj2 (calculateFundingInterval_rounds
                           (Ms 1700000000000) (Ms 1700010000000)))
             1700000000000 1700010000000); [reflexivity | reflexivity | lia | lia].
Defined.

(** C2 as written fails at a timestamp that is present and zero: both
    instants are there and are one hour apart, and the result is null. *)
Lemma calculateFundingInterval_zero_present :
  calculateFundingInterval (Ms 0) (Ms 3600000) = None /\
  nearestHour (3600000 - 0) 1.
Proof. split; [reflexivity | unfold nearestHour; lia]. Qed.



(** ** The fallback classification *)

Lemma smartFallback_inOrder (sym baseSymbol : string) :
  FundingRatesJs.smartFallback sym baseSymbol = classifyInOrder baseSymbol.
Proof.
  unfold FundingRatesJs.smartFallback, classifyInOrder.
  destruct (_ || FundingRatesJs.isMemeOrVolatile baseSymbol); [reflexivity|].
  destruct (_ || JsString.startsWith "1000" baseSymbol); [reflexivity|].
  destruct (Z.leb_spec 7 (JsString.len baseSymbol)) as [L|L].
  - destruct (Z.ltb_spec 6 (JsString.len baseSymbol)); [|lia].
    now rewrite orb_true_r.
  - now destruct (_ || _).
Qed.

Lemma classifyInOrder_values (baseSymbol : string) :
  In (classifyInOrder baseSymbol) [1; 2; 4; 8].
Proof.
  unfold classifyInOrder.
  destruct (_ || FundingRatesJs.isMemeOrVolatile baseSymbol); [simpl; tauto|].
  destruct (_ || JsString.startsWith "1000" baseSymbol); [simpl; tauto|].
  destruct (7 <=? JsString.len baseSymbol); simpl; tauto.
Qed.

Lemma smartFallback_bounds (sym baseSymbol : string) :
  0 < FundingRatesJs.smartFallback sym baseSymbol <= 24.
Proof.
  rewrite smartFallback_inOrder.
  pose proof (classifyInOrder_values baseSymbol) as H. simpl in H. lia.
Qed.

(** C4, with the order of the rules made explicit: the fallback returns
    a value in {1, 2, 4, 8} that depends on the base symbol only; the
    high-frequency list and the meme patterns give 1; failing that, the
    major list and the 1000 prefix give 8; failing that, names of seven
    characters or more give 2 and the rest 4. *)
Theorem smartFallback_classifies :
  forall sym baseSymbol : string,
    FundingRatesJs.smartFallback sym baseSymbol = classifyInOrder baseSymbol /\
    In (FundingRatesJs.smartFallback sym baseSymbol) [1; 2; 4; 8] /\
    (forall sym', FundingRatesJs.smartFallback sym' baseSymbol =
                  FundingRatesJs.smartFallback sym baseSymbol) /\
    FundingRatesJs.method4 sym baseSymbol None =
      Some (FundingRatesJs.smartFallback sym baseSymbol).
Proof.
  intros sym b. split; [apply smartFallback_inOrder|]. split; [|split].
  - rewrite smartFallback_inOrder. apply classifyInOrder_values.
  - intros sym'. now rewrite !smartFallback_inOrder.
  - reflexivity.
Qed.

(** C4 as written fails where the rules overlap: DOGE is on the major
    list and 1000PEPE carries the 1000 prefix, and both are classified
    as 1 because the meme patterns are tested first. *)
Lemma smartFallback_overlap :
  JsString.inArray "DOGE" FundingRatesJs.major8HCoins = true /\
  FundingRatesJs.smartFallback "DOGE/USDT:USDT" "DOGE" = 1 /\
  JsString.startsWith "1000" "1000PEPE" = true /\
  FundingRatesJs.smartFallback "1000PEPE/USDT:USDT" "1000PEPE" = 1.
Proof. repeat split; reflexivity. Qed.

(** ** The inference chain of the Binance adapter *)

Lemma validInterval_inRange (c : option Z) : validInterval c = inRange c.
Proof.
  destruct c as [i|]; [|reflexivity]. unfold validInterval, inRange, truthyI.
  destruct (Z.ltb_spec 0 i); simpl.
  - destruct (Z.eqb_spec i 0); [lia | reflexivity].
  - now rewrite andb_false_r.
Qed.

Lemma inRange_truthy (c : option Z) : inRange c = true -> truthyI c = true.
Proof.
  destruct c as [i|]; simpl; [|discriminate]. intros H.
  apply andb_true_iff in H as [H _]. apply Z.ltb_lt in H.
  destruct (Z.eqb_spec i 0); [lia | reflexivity].
Qed.

Lemma inRange_bounds (c : option Z) :
  inRange c = true -> exists i, c = Some i /\ 0 < i <= 24.
Proof.
  destruct c as [i|]; simpl; [|discriminate]. intros H.
  apply andb_true_iff in H as [H1 H2]. apply Z.ltb_lt in H1. apply Z.leb_le in H2.
  exists i. split; [reflexivity | lia].
Qed.

Lemma method1_spec (data : FundingInfo) :
  FundingRatesJs.method1 data =
  if inRange (timestampCandidate data) then timestampCandidate data else None.
Proof.
  unfold FundingRatesJs.method1, timestampCandidate.
  rewrite validInterval_inRange.
  destruct (truthyT (i_fundingTimestamp data) && truthyT (i_nextFundingTime data)) eqn:T.
  - reflexivity.
  - rewrite calculateFundingInterval_falsy; [reflexivity|].
    apply andb_false_iff in T. exact T.
Qed.

Lemma method2_spec (data : FundingInfo) (f : option Z) :
  FundingRatesJs.method2 data f =
  if truthyI f then f
  else if inRange (datetimeCandidate data) then datetimeCandidate data else f.
Proof.
  unfold FundingRatesJs.method2, datetimeCandidate.
  rewrite validInterval_inRange.
  destruct (truthyI f); simpl; [reflexivity|].
  destruct (truthyD (i_fundingDatetime data)) eqn:D1;
    [destruct (truthyD (i_nextFundingDatetime data)) eqn:D2|]; simpl;
    try reflexivity.
  - rewrite calculateFundingInterval_falsy; [reflexivity|]. right.
    now destruct (i_nextFundingDatetime data).
  - rewrite calculateFundingInterval_falsy; [reflexivity|]. left.
    now destruct (i_fundingDatetime data).
Qed.

Lemma getFundingIntervalForSymbol_spec (ex : Exchange) (sym : string) :
  getFundingIntervalForSymbol ex sym =
  (Ok (historyCandidate ex sym), [(id ex, FetchFundingRateHistory sym)]).
Proof.
  unfold getFundingIntervalForSymbol, historyCandidate, await, bindIO, catchIO, ret.
  destruct (fetchFundingRateHistory ex sym) as [[[|h0 [|h1 rest]]|]|e]; simpl;
    reflexivity.
Qed.

Lemma method3_spec (ex : Exchange) (sym : string) (count : Z) (f : option Z) :
  FundingRatesJs.method3 ex sym count f =
  if negb (truthyI f) && (count <? 50)
  then (Ok (if inRange (historyCandidate ex sym) then historyCandidate ex sym else f),
        [(id ex, FetchFundingRateHistory sym)])
  else (Ok f, []).
Proof.
  unfold FundingRatesJs.method3.
  destruct (negb (truthyI f) && (count <? 50)); [|reflexivity].
  rewrite getFundingIntervalForSymbol_spec.
  unfold bindIO, catchIO, ret. simpl. now rewrite validInterval_inRange.
Qed.

Lemma inferInterval_spec (ex : Exchange) (sym baseSymbol : string)
    (data : FundingInfo) (count : Z) :
  FundingRatesJs.inferInterval ex sym baseSymbol data count =
  (Ok (Some (firstInRange
               (timestampCandidate data :: datetimeCandidate data ::
                (if count <? 50 then [historyCandidate ex sym] else []))
               (FundingRatesJs.smartFallback sym baseSymbol))),
   if inRange (timestampCandidate data) || inRange (datetimeCandidate data) then []
   else if count <? 50 then [(id ex, FetchFundingRateHistory sym)] else []).
Proof.
  unfold FundingRatesJs.inferInterval.
  rewrite method1_spec, method2_spec, method3_spec.
  unfold FundingRatesJs.method4, bindIO, ret.
  assert (T : forall i, 0 < i <= 24 -> truthyI (Some i) = true).
  { intros i B. simpl. destruct (Z.eqb_spec i 0); [lia | reflexivity]. }
  destruct (inRange (timestampCandidate data)) eqn:R1.
  - destruct (inRange_bounds _ R1) as [i [E B]]. rewrite E in *.
    cbn [firstInRange]. rewrite R1.
    repeat (first [rewrite (T i B) | progress cbn [negb andb orb app]]). reflexivity.
  - simpl (truthyI None). cbv iota. simpl (false || _).
    replace (firstInRange
               (timestampCandidate data :: datetimeCandidate data ::
                (if count <? 50 then [historyCandidate ex sym] else []))
               (FundingRatesJs.smartFallback sym baseSymbol))
      with (firstInRange
              (datetimeCandidate data ::
               (if count <? 50 then [historyCandidate ex sym] else []))
              (FundingRatesJs.smartFallback sym baseSymbol))
      by (simpl; rewrite R1; now destruct (timestampCandidate data)).
    destruct (inRange (datetimeCandidate data)) eqn:R2.
    + destruct (inRange_bounds _ R2) as [i [E B]]. rewrite E in *.
      cbn [firstInRange]. rewrite R2.
      repeat (first [rewrite (T i B) | progress cbn [negb andb orb app]]). reflexivity.
    + simpl (truthyI None). simpl (negb false && _).
      replace (firstInRange
                 (datetimeCandidate data ::
                  (if count <? 50 then [historyCandidate ex sym] else []))
                 (FundingRatesJs.smartFallback sym baseSymbol))
        with (firstInRange
                (if count <? 50 then [historyCandidate ex sym] else [])
                (FundingRatesJs.smartFallback sym baseSymbol))
        by (simpl; rewrite R2; now destruct (datetimeCandidate data)).
      destruct (count <? 50); [|reflexivity].
      destruct (inRange (historyCandidate ex sym)) eqn:R3.
      * destruct (inRange_bounds _ R3) as [i [E B]]. rewrite E in *.
        cbn [firstInRange]. rewrite R3.
        repeat (first [rewrite (T i B) | progress cbn [negb andb orb app]]). reflexivity.
      * cbn [firstInRange]. rewrite R3. now destruct (historyCandidate ex sym).
Qed.

(** ** Sorting *)

Section SortFacts.
Context {A : Type} (cmp : A -> A -> Z).

Lemma insertBy_perm (x : A) (l : list A) : Permutation (insertBy cmp x l) (x :: l).
Proof.
  induction l as [|y l IH]; simpl; [reflexivity|].
  destruct (cmp x y <=? 0); [reflexivity|].
  rewrite IH. apply perm_swap.
Qed.

Lemma sortBy_perm (l : list A) : Permutation (sortBy cmp l) l.
Proof.
  induction l as [|x l IH]; simpl; [reflexivity|].
  rewrite insertBy_perm. now constructor.
Qed.

Lemma sortBy_In (l : list A) (x : A) : In x (sortBy cmp l) <-> In x l.
Proof.
  split; apply Permutation_in; [|symmetry]; apply sortBy_perm.
Qed.

Lemma sortBy_Forall (P : A -> Prop) (l : list A) : Forall P l -> Forall P (sortBy cmp l).
Proof.
  intros H. rewrite Forall_forall in *. intros x Hx.
  apply H. now apply sortBy_In.
Qed.

Lemma sortBy_length (l : list A) : List.length (sortBy cmp l) = List.length l.
Proof. apply Permutation_length, sortBy_perm. Qed.

Hypothesis cmp_total : forall a b, 0 < cmp a b -> cmp b a <= 0.

Lemma insertBy_sorted (x : A) (l : list A) :
  Sorted (ordered cmp) l -> Sorted (ordered cmp) (insertBy cmp x l).
Proof.
  induction l as [|y l IH]; simpl; intros S.
  - repeat constructor.
  - destruct (Z.leb_spec (cmp x y) 0) as [L|L].
    + constructor; [assumption|]. now constructor.
    + inversion S as [|? ? S' Hd]; subst. constructor; [now apply IH|].
      destruct l as [|z l]; simpl.
      * constructor. now apply cmp_total.
      * destruct (Z.leb_spec (cmp x z) 0).
        -- constructor. now apply cmp_total.
        -- inversion Hd; subst. now constructor.
Qed.

Lemma sortBy_sorted (l : list A) : Sorted (ordered cmp) (sortBy cmp l).
Proof.
  induction l as [|x l IH]; simpl; [constructor|]. now apply insertBy_sorted.
Qed.

End SortFacts.

(** ** The loop of the Binance adapter *)

Lemma firstInRange_bounds (cs : list (option Z)) (fallback : Z) :
  0 < fallback <= 24 -> 0 < firstInRange cs fallback <= 24.
Proof.
  intros F. induction cs as [|c cs IH]; cbn [firstInRange inRange]; [assumption|].
  destruct c as [i|]; cbn [inRange]; [|assumption].
  destruct ((0 <? i) && (i <=? 24)) eqn:E; [|assumption].
  apply andb_true_iff in E as [E1 E2].
  apply Z.ltb_lt in E1. apply Z.leb_le in E2. lia.
Qed.

Lemma historyCount_app (l l' : list request) :
  historyCount (l ++ l') = (historyCount l + historyCount l')%nat.
Proof. unfold historyCount. now rewrite filter_app, length_app. Qed.

Lemma processSymbol_step (ex : Exchange) (st : FundingRatesJs.LoopState)
    (entry : string * option FundingInfo) :
  exists st' log,
    FundingRatesJs.processSymbol ex st entry = (Ok st', log) /\
    ((st' = st /\ log = []) \/
     (exists r, FundingRatesJs.result st' = FundingRatesJs.result st ++ [r] /\
                validRecord r /\
                FundingRatesJs.processedCount st' =
                  FundingRatesJs.processedCount st + 1 /\
                (historyCount log = 0%nat \/
                 (historyCount log = 1%nat /\
                  FundingRatesJs.processedCount st < 50)))).
Proof.
  destruct entry as [sym [data|]]; simpl.
  2:{ exists st, []. split; [reflexivity | left; split; reflexivity]. }
  assert (G : exists st' log,
             (fundingIntervalHours <--
                FundingRatesJs.inferInterval ex sym (FundingRatesJs.binanceBase sym)
                  data (FundingRatesJs.processedCount st) ;;
              ret {| FundingRatesJs.result :=
                       FundingRatesJs.result st ++
                       [FundingRatesJs.binanceRecord sym
                          (FundingRatesJs.binanceBase sym) data fundingIntervalHours];
                     FundingRatesJs.processedCount :=
                       FundingRatesJs.processedCount st + 1 |})%io = (Ok st', log) /\
             exists r, FundingRatesJs.result st' = FundingRatesJs.result st ++ [r] /\
                validRecord r /\
                FundingRatesJs.processedCount st' =
                  FundingRatesJs.processedCount st + 1 /\
                (historyCount log = 0%nat \/
                 (historyCount log = 1%nat /\
                  FundingRatesJs.processedCount st < 50))).
  { rewrite inferInterval_spec. unfold bindIO, ret.
    eexists. eexists. split; [reflexivity|].
    eexists. split; [reflexivity|]. split; [|split; [reflexivity|]].
    - eexists. split; [reflexivity|].
      apply firstInRange_bounds, smartFallback_bounds.
    - destruct (inRange (timestampCandidate data) || inRange (datetimeCandidate data));
        [left; reflexivity|].
      destruct (Z.ltb_spec (FundingRatesJs.processedCount st) 50);
        [right; split; [reflexivity | assumption] | left; reflexivity]. }
  destruct G as [st' [log [E R]]].
  destruct (i_fundingRate data).
  - exists st, []. split; [reflexivity | left; split; reflexivity].
  - exists st', log. split; [exact E | right; exact R].
  - exists st', log. split; [exact E | right; exact R].
Qed.

Lemma binanceLoop_invariant (ex : Exchange) (symbols : list (string * option FundingInfo)) :
  forall st,
    Forall validRecord (FundingRatesJs.result st) ->
    exists st' log,
      forOfTry (FundingRatesJs.processSymbol ex) symbols st = (Ok st', log) /\
      Forall validRecord (FundingRatesJs.result st') /\
      (historyCount log <= Z.to_nat (50 - FundingRatesJs.processedCount st))%nat.
Proof.
  induction symbols as [|entry symbols IH]; intros st V; cbn [forOfTry].
  - exists st, []. split; [reflexivity|]. split; [assumption|].
    change (historyCount []) with 0%nat. lia.
  - destruct (processSymbol_step ex st entry) as [st1 [log1 [E1 C]]].
    rewrite E1. unfold catchIO, bindIO.
    assert (V1 : Forall validRecord (FundingRatesJs.result st1)).
    { destruct C as [[-> _]|[r [Er [Vr _]]]]; [assumption|].
      rewrite Er. apply Forall_app. split; [assumption | now constructor]. }
    destruct (IH st1 V1) as [st2 [log2 [E2 [V2 B2]]]]. rewrite E2.
    exists st2, (log1 ++ log2). split; [reflexivity|]. split; [assumption|].
    rewrite historyCount_app.
    destruct C as [[-> ->]|[r [_ [_ [P [H|[H L]]]]]]].
    + change (historyCount []) with 0%nat. lia.
    + rewrite H. rewrite P in B2. lia.
    + rewrite H. rewrite P in B2. lia.
Qed.

(** ** The adapters of [funding-rates.js] *)

Lemma fetchBinanceFundingRates_shape (lc : string -> string -> Z) (ex : Exchange) :
  exists l0 log,
    FundingRatesJs.fetchBinanceFundingRates lc ex =
      (Ok (sortBy (FundingRatesJs.bySymbol lc) l0), log) /\
    Forall validRecord l0 /\
    (historyCount log <= 50)%nat /\
    ((exists e, loadMarkets ex = Throw e) \/ (exists e, fetchFundingRates ex = Throw e) ->
     l0 = []).
Proof.
  unfold FundingRatesJs.fetchBinanceFundingRates, await, catchIO, bindIO, ret.
  destruct (loadMarkets ex) as [markets|e1] eqn:L.
  2:{ exists [], ([(id ex, LoadMarkets)] ++ []). repeat split; auto.
      unfold historyCount. simpl. lia. }
  destruct (fetchFundingRates ex) as [[entries|]|e2] eqn:F.
  3:{ exists [], (([(id ex, LoadMarkets)] ++ [(id ex, FetchFundingRates)]) ++ []).
      repeat split; auto. unfold historyCount. simpl. lia. }
  2:{ exists [], ([(id ex, LoadMarkets)] ++ [(id ex, FetchFundingRates)] ++ []).
      repeat split; auto. unfold historyCount. simpl. lia. }
  assert (Dead : (exists e, Ok markets = Throw e) \/
                 (exists e, Ok (A:=option (list (string * option FundingInfo)))
                              (Some entries) = Throw e) -> False).
  { intros [[e H]|[e H]]; discriminate. }
  destruct entries as [|entry entries].
  { exists [], ([(id ex, LoadMarkets)] ++ [(id ex, FetchFundingRates)] ++ []).
    repeat split; auto. unfold historyCount. simpl. lia. }
  remember (entry :: entries) as all.
  destruct (binanceLoop_invariant ex
              (filter (fun e => JsString.includes "USDT" (fst e) &&
                                JsString.includes ":" (fst e)) all)
              {| FundingRatesJs.result := []; FundingRatesJs.processedCount := 0 |}
              (Forall_nil _)) as [st [log [E [V B]]]].
  rewrite E.
  exists (FundingRatesJs.result st),
         ([(id ex, LoadMarkets)] ++ [(id ex, FetchFundingRates)] ++ log ++ []).
  split; [reflexivity|]. split; [assumption|]. split.
  - rewrite !historyCount_app. cbn [FundingRatesJs.processedCount] in B.
    change (historyCount [(id ex, LoadMarkets)]) with 0%nat.
    change (historyCount [(id ex, FetchFundingRates)]) with 0%nat.
    change (historyCount []) with 0%nat.
    change (Z.to_nat (50 - 0)) with 50%nat in B. lia.
  - intros H. destruct (Dead H).
Qed.

Lemma mexcRecord_interval (item : FundingRatesJs.MexcItem) (r : FundingRecord) :
  FundingRatesJs.mexcRecord item = Ok (Some r) ->
  fundingIntervalHours r = Some (cycleOrDefault item).
Proof.
  unfold FundingRatesJs.mexcRecord, cycleOrDefault.
  destruct (FundingRatesJs.m_symbol item) as [s|]; [|discriminate].
  destruct (JsString.includes "USDT" s); [|discriminate].
  assert (C : match FundingRatesJs.m_collectCycle item with
              | Some c => if negb (c =? 0) then c else 8
              | None => 8
              end =
              match FundingRatesJs.m_collectCycle item with
              | Some c => if c =? 0 then 8 else c
              | None => 8
              end).
  { destruct (FundingRatesJs.m_collectCycle item) as [c|]; [|reflexivity].
    now destruct (c =? 0). }
  rewrite C.
  destruct (truthyT (FundingRatesJs.m_nextSettleTime item)).
  - unfold bindE.
    destruct (FundingRatesJs.isoOf (FundingRatesJs.minusHours _ _)); [|discriminate].
    destruct (FundingRatesJs.isoOf _); [|discriminate].
    intros H. inversion H. reflexivity.
  - intros H. inversion H. reflexivity.
Qed.

Lemma forEachItem_Forall (P : FundingRecord -> Prop) :
  (forall item r, FundingRatesJs.mexcRecord item = Ok (Some r) -> P r) ->
  forall items result,
    Forall P result -> Forall P (fst (FundingRatesJs.forEachItem items result)).
Proof.
  intros HP. induction items as [|item items IH]; intros result R; simpl.
  - assumption.
  - destruct (FundingRatesJs.mexcRecord item) as [[r|]|e] eqn:E.
    + apply IH. apply Forall_app. split; [assumption|].
      constructor; [|constructor]. now apply (HP item).
    + now apply IH.
    + assumption.
Qed.

Lemma tickerFallback_Forall (P : FundingRecord -> Prop) (ex : Exchange) :
  (forall sym t, P (FundingRatesJs.tickerRecord sym t)) ->
  forall markets result,
    Forall P result ->
    exists l log, FundingRatesJs.tickerFallback ex markets result = (Ok l, log) /\
                  Forall P l.
Proof.
  intros HP markets. unfold FundingRatesJs.tickerFallback.
  generalize (firstn 20
                (map fst
                   (filter (fun m => JsString.includes "/USDT" (fst m) && swap (snd m))
                           markets))).
  intros symbols. induction symbols as [|sym symbols IH]; intros result R.
  - exists result, []. split; [reflexivity | assumption].
  - cbn [forOfTry]. unfold await, catchIO, bindIO, ret.
    destruct (fetchTicker ex sym) as [t|e].
    + destruct (IH (result ++ [FundingRatesJs.tickerRecord sym t])) as [l [log [E Pl]]].
      { apply Forall_app. split; [assumption|]. constructor; [apply HP | constructor]. }
      unfold await, catchIO, bindIO, ret in E. rewrite E.
      eexists. eexists. split; [reflexivity | assumption].
    + destruct (IH result R) as [l [log [E Pl]]].
      unfold await, catchIO, bindIO, ret in E. rewrite E.
      eexists. eexists. split; [reflexivity | assumption].
Qed.

Lemma fetchMexcFundingRates_shape (lc : string -> string -> Z)
    (ep : exn FundingRatesJs.MexcResponse) (ex : Exchange) :
  exists l0 log,
    FundingRatesJs.fetchMexcFundingRates lc ep ex =
      (Ok (sortBy (FundingRatesJs.bySymbol lc) l0), log) /\
    Forall hasInterval l0 /\
    ((exists e, loadMarkets ex = Throw e) -> l0 = []).
Proof.
  assert (HR : forall item r, FundingRatesJs.mexcRecord item = Ok (Some r) -> hasInterval r).
  { intros item r H. eexists. exact (mexcRecord_interval item r H). }
  assert (HT : forall sym t, hasInterval (FundingRatesJs.tickerRecord sym t)).
  { intros sym t. exists 8. reflexivity. }
  unfold FundingRatesJs.fetchMexcFundingRates, await, catchIO, bindIO, ret.
  destruct (loadMarkets ex) as [markets|e1] eqn:L.
  2:{ exists [], ([(id ex, LoadMarkets)] ++ []). repeat split; auto. }
  set (direct := match ep with
                 | Ok response =>
                     if FundingRatesJs.success response
                     then match FundingRatesJs.data response with
                          | Some items => FundingRatesJs.forEachItem items []
                          | None => ([], Ok tt)
                          end
                     else ([], Ok tt)
                 | Throw e => ([], Throw e)
                 end).
  assert (D : Forall hasInterval (fst direct)).
  { unfold direct. destruct ep as [response|e]; [|constructor].
    destruct (FundingRatesJs.success response); [|constructor].
    destruct (FundingRatesJs.data response) as [items|]; [|constructor].
    apply forEachItem_Forall; [exact HR | constructor]. }
  destruct (snd direct).
  - eexists. eexists. split; [reflexivity|]. split; [assumption|].
    intros [e H]. discriminate.
  - destruct (tickerFallback_Forall hasInterval ex HT markets (fst direct) D)
      as [l [log [E Pl]]].
    unfold await, catchIO, bindIO, ret in E. rewrite E.
    eexists. eexists. split; [reflexivity|]. split; [assumption|].
    intros [e H]. discriminate.
Qed.

Lemma fetchFundingRates_shape (lc : string -> string -> Z)
    (ep : exn FundingRatesJs.MexcResponse) (exchangeName : string) (ex : Exchange) :
  exists l0 log,
    FundingRatesJs.fetchFundingRates lc ep exchangeName ex =
      (Ok (sortBy (FundingRatesJs.bySymbol lc) l0), log) /\
    Forall hasInterval l0 /\
    ((exists e, loadMarkets ex = Throw e) -> l0 = []) /\
    (exchangeName = "binance" ->
     Forall validRecord l0 /\ (historyCount log <= 50)%nat /\
     ((exists e, fetchFundingRates ex = Throw e) -> l0 = [])).
Proof.
  unfold FundingRatesJs.fetchFundingRates.
  destruct (String.eqb_spec exchangeName "mexc") as [->|N1].
  - destruct (fetchMexcFundingRates_shape lc ep ex) as [l0 [log [E [H Hd]]]].
    rewrite E. exists l0, log. repeat split; try assumption; discriminate.
  - destruct (String.eqb_spec exchangeName "binance") as [->|N2].
    + destruct (fetchBinanceFundingRates_shape lc ex) as [l0 [log [E [V [B Hd]]]]].
      rewrite E. exists l0, log. split; [reflexivity|]. split; [|split].
      * apply Forall_forall. intros r Hr.
        rewrite Forall_forall in V. destruct (V r Hr) as [i [Hi _]]. now exists i.
      * intros H. apply Hd. now left.
      * intros _. split; [assumption|]. split; [assumption|].
        intros H. apply Hd. now right.
    + exists [], []. split; [reflexivity|]. split; [constructor|].
      split; [reflexivity|]. intros ->. contradiction.
Qed.

(** C3, for the chain of [fetchBinanceFundingRates]: the interval of an
    instrument is the first of the timestamp, datetime and history
    candidates that lies in (0, 24], else the fallback; the history is
    requested only when the two earlier candidates are out of range and
    fewer than 50 instruments have been processed, so that a run issues
    at most 50 history requests. *)
Theorem inferInterval_priority :
  (forall ex sym baseSymbol data count,
     FundingRatesJs.inferInterval ex sym baseSymbol data count =
     (Ok (Some (firstInRange
                  (timestampCandidate data :: datetimeCandidate data ::
                   (if count <? 50 then [historyCandidate ex sym] else []))
                  (FundingRatesJs.smartFallback sym baseSymbol))),
      if inRange (timestampCandidate data) || inRange (datetimeCandidate data) then []
      else if count <? 50 then [(id ex, FetchFundingRateHistory sym)] else [])) /\
  (forall lc ex,
     (historyCount (requests (FundingRatesJs.fetchBinanceFundingRates lc ex)) <= 50)%nat).
Proof.
  split.
  - apply inferInterval_spec.
  - intros lc ex.
    destruct (fetchBinanceFundingRates_shape lc ex) as [l0 [log [E [_ [B _]]]]].
    rewrite E. exact B.
Qed.

(** C3 as written fails in the second handler file: its chain has no
    range check (an interval of 48 hours is accepted) and no cap (51
    instruments without timestamps cause 51 history requests). *)
Lemma part000_chain_unchecked :
  (exists r,
     outcome (Part000.fetchFundingRates (fun _ => 0) (fun _ => 0) "binance"
                (Sample.snapshotExchange "binance"
                   [("BTC/USDT:USDT", Some Sample.twoDays)])) = Ok [r] /\
     fundingIntervalHours r = Some 48) /\
  historyCount
    (requests (Part000.fetchFundingRates (fun _ => 0) (fun _ => 0) "binance"
                 (Sample.snapshotExchange "binance" (Sample.bareEntries 51)))) = 51%nat.
Proof.
  split.
  - eexists. split; [vm_compute; reflexivity | reflexivity].
  - vm_compute. reflexivity.
Qed.

(** C5, for the adapters of [funding-rates.js]: the Binance adapter
    always returns, and every record it returns has an interval that is
    a whole number in (0, 24]; the MEXC adapter always returns, and
    every record it returns has a non-null interval, namely the
    [collectCycle] of the item when that is a non-zero number and 8
    otherwise. *)
Theorem adapter_intervals :
  (forall lc ex,
     exists l, outcome (FundingRatesJs.fetchBinanceFundingRates lc ex) = Ok l /\
               Forall validRecord l) /\
  (forall lc ep ex,
     exists l, outcome (FundingRatesJs.fetchMexcFundingRates lc ep ex) = Ok l /\
               Forall hasInterval l) /\
  (forall item r,
     FundingRatesJs.mexcRecord item = Ok (Some r) ->
     fundingIntervalHours r = Some (cycleOrDefault item)).
Proof.
  split; [|split].
  - intros lc ex.
    destruct (fetchBinanceFundingRates_shape lc ex) as [l0 [log [E [V _]]]].
    rewrite E. eexists. split; [reflexivity|]. now apply sortBy_Forall.
  - intros lc ep ex.
    destruct (fetchMexcFundingRates_shape lc ep ex) as [l0 [log [E [V _]]]].
    rewrite E. eexists. split; [reflexivity|]. now apply sortBy_Forall.
  - apply mexcRecord_interval.
Qed.

Lemma adapter_intervals_witness :
  exists r,
    FundingRatesJs.mexcRecord (Sample.mexcItem "BTC_USDT" (RNum 100) (Some 4)) =
      Ok (Some r) /\
    fundingIntervalHours r = Some 4.
Proof.
  eexists. split; [reflexivity|].
  apply (proj2 (proj2 adapter_intervals)
           (Sample.mexcItem "BTC_USDT" (RNum 100) (Some 4))).
  reflexivity.
Defined.

(** C5 as written fails for the MEXC adapter: a [collectCycle] of 48 is
    emitted as the interval of the record. *)
Lemma mexc_interval_unchecked :
  exists r,
    outcome (FundingRatesJs.fetchFundingRates Sample.codeUnitCompare
               (Sample.endpoint [Sample.mexcItem "BTC_USDT" (RNum 100) (Some 48)])
               "mexc" (Sample.snapshotExchange "mexc" [])) = Ok [r] /\
    fundingIntervalHours r = Some 48 /\
    ~ validRecord r.
Proof.
  eexists. split; [vm_compute; reflexivity|]. split; [reflexivity|].
  intros [i [E B]]. simpl in E. inversion E. lia.
Qed.

(** ** The handler of [funding-rates.js] *)

Lemma contribution_empty (elapsed : option Z) (fetch : io (list FundingRecord)) :
  timesOut elapsed -> contribution elapsed fetch = [].
Proof.
  unfold timesOut, contribution. destruct elapsed as [ms|]; [|reflexivity].
  intros H. destruct (outcome fetch); [|reflexivity].
  destruct (Z.ltb_spec ms 20000); [lia | reflexivity].
Qed.

Lemma run_spec (lc : string -> string -> Z) (ep : exn FundingRatesJs.MexcResponse)
    (exchanges : FundingRatesJs.Exchanges) (clock : FundingRatesJs.Clock) :
  outcome (FundingRatesJs.run lc ep exchanges clock) =
  Ok (FundingRatesJs.buildResponse
        (contribution (FundingRatesJs.binanceElapsed clock)
           (FundingRatesJs.fetchFundingRates lc ep "binance"
              (FundingRatesJs.binance exchanges)))
        (contribution (FundingRatesJs.mexcElapsed clock)
           (FundingRatesJs.fetchFundingRates lc ep "mexc"
              (FundingRatesJs.mexc exchanges)))).
Proof.
  unfold FundingRatesJs.run, FundingRatesJs.racing, raceTimeout, contribution.
  destruct (fetchFundingRates_shape lc ep "binance" (FundingRatesJs.binance exchanges))
    as [b [logb [Eb _]]].
  destruct (fetchFundingRates_shape lc ep "mexc" (FundingRatesJs.mexc exchanges))
    as [m [logm [Em _]]].
  rewrite Eb, Em. unfold outcome, requests, catchIO, bindIO, ret. cbn [fst snd].
  destruct (FundingRatesJs.binanceElapsed clock) as [tb|],
           (FundingRatesJs.mexcElapsed clock) as [tm|];
    try destruct (tb <? 20000); try destruct (tm <? 20000); reflexivity.
Qed.

(** C6: whatever the two sources do, the run ends with a 200 response;
    each source hands over the records of its own fetch when that
    settles within 20 s and nothing otherwise, so a source that times
    out or cannot list its instruments contributes the empty list and
    leaves the other source's records as they are; and the per-source
    wrapper never throws. *)
Theorem handler_survives :
  forall lc ep exchanges clock,
    (forall exchangeName ex,
       exists l, outcome (FundingRatesJs.fetchFundingRates lc ep exchangeName ex) = Ok l) /\
    exists payload,
      outcome (FundingRatesJs.handler lc ep exchanges clock "GET") =
        Ok (FundingRatesJs.Json200 payload) /\
      FundingRatesJs.rawBinance payload =
        contribution (FundingRatesJs.binanceElapsed clock)
          (FundingRatesJs.fetchFundingRates lc ep "binance"
             (FundingRatesJs.binance exchanges)) /\
      FundingRatesJs.rawMexc payload =
        contribution (FundingRatesJs.mexcElapsed clock)
          (FundingRatesJs.fetchFundingRates lc ep "mexc"
             (FundingRatesJs.mexc exchanges)) /\
      (timesOut (FundingRatesJs.binanceElapsed clock) \/
       cannotList (FundingRatesJs.binance exchanges) ->
       FundingRatesJs.rawBinance payload = []) /\
      (timesOut (FundingRatesJs.mexcElapsed clock) \/
       (exists e, loadMarkets (FundingRatesJs.mexc exchanges) = Throw e) ->
       FundingRatesJs.rawMexc payload = []).
Proof.
  intros lc ep exchanges clock. split.
  { intros name ex.
    destruct (fetchFundingRates_shape lc ep name ex) as [l0 [log [E _]]].
    rewrite E. eexists. reflexivity. }
  pose proof (run_spec lc ep exchanges clock) as R.
  unfold FundingRatesJs.handler. cbn [String.eqb Ascii.eqb Bool.eqb negb].
  destruct (FundingRatesJs.run lc ep exchanges clock) as [o log].
  unfold outcome in R. cbn [fst] in R. subst o.
  eexists. split; [reflexivity|]. cbn [FundingRatesJs.rawBinance FundingRatesJs.rawMexc
                                       FundingRatesJs.buildResponse].
  split; [reflexivity|]. split; [reflexivity|]. split.
  - intros [T|C]; [now apply contribution_empty|].
    destruct (fetchFundingRates_shape lc ep "binance" (FundingRatesJs.binance exchanges))
      as [l0 [logb [E [_ [D1 D2]]]]].
    destruct (D2 eq_refl) as [_ [_ D3]].
    assert (Z0 : l0 = []) by (destruct C as [C|C]; auto).
    unfold contribution. rewrite E. unfold outcome. cbn [fst]. subst l0.
    destruct (FundingRatesJs.binanceElapsed clock) as [ms|]; [|reflexivity].
    now destruct (ms <? 20000).
  - intros [T|C]; [now apply contribution_empty|].
    destruct (fetchFundingRates_shape lc ep "mexc" (FundingRatesJs.mexc exchanges))
      as [l0 [logm [E [_ [D1 _]]]]].
    unfold contribution. rewrite E. unfold outcome. cbn [fst]. rewrite (D1 C).
    destruct (FundingRatesJs.mexcElapsed clock) as [ms|]; [|reflexivity].
    now destruct (ms <? 20000).
Qed.

Lemma handler_survives_witness :
  exists payload r,
    outcome (FundingRatesJs.handler Sample.codeUnitCompare
               (Sample.endpoint [Sample.mexcItem "BTC_USDT" (RNum 100) (Some 8)])
               {| FundingRatesJs.binance := Sample.downExchange "binance";
                  FundingRatesJs.mexc := Sample.snapshotExchange "mexc" [] |}
               {| FundingRatesJs.binanceElapsed := None;
                  FundingRatesJs.mexcElapsed := Some 1500 |} "GET") =
      Ok (FundingRatesJs.Json200 payload) /\
    FundingRatesJs.rawBinance payload = [] /\
    FundingRatesJs.rawMexc payload = [r].
Proof.
  destruct (proj2 (handler_survives Sample.codeUnitCompare
              (Sample.endpoint [Sample.mexcItem "BTC_USDT" (RNum 100) (Some 8)])
              {| FundingRatesJs.binance := Sample.downExchange "binance";
                 FundingRatesJs.mexc := Sample.snapshotExchange "mexc" [] |}
              {| FundingRatesJs.binanceElapsed := None;
                 FundingRatesJs.mexcElapsed := Some 1500 |}))
    as [payload [E [_ [M [B _]]]]].
  exists payload. eexists. split; [exact E|]. split.
  - apply B. left. exact I.
  - rewrite M. vm_compute. reflexivity.
Defined.

(** ** Order of the adapters' output *)

Section SortUnique.
Context {A : Type} (cmp : A -> A -> Z).
Hypothesis cmp_total : forall a b, 0 < cmp a b -> cmp b a <= 0.
Hypothesis cmp_trans : forall a b c, cmp a b <= 0 -> cmp b c <= 0 -> cmp a c <= 0.

Lemma sorted_heads (a : A) (l : list A) :
  Sorted (ordered cmp) (a :: l) -> Forall (ordered cmp a) l.
Proof.
  intros S. apply Sorted_StronglySorted in S.
  - now inversion S.
  - intros x y z. apply cmp_trans.
Qed.

Lemma sorted_perm_unique (l : list A) :
  forall l',
    Sorted (ordered cmp) l -> Sorted (ordered cmp) l' -> Permutation l l' ->
    (forall a b, In a l -> In b l -> cmp a b <= 0 -> cmp b a <= 0 -> a = b) ->
    l = l'.
Proof.
  induction l as [|a l IH]; intros l' S S' P Anti.
  - apply Permutation_nil in P. now subst.
  - destruct l' as [|a' l'].
    { apply Permutation_sym, Permutation_nil in P. discriminate. }
    assert (Ia' : In a' (a :: l)).
    { apply (Permutation_in a' (Permutation_sym P)). now left. }
    assert (Ia : In a (a' :: l')) by (apply (Permutation_in a P); now left).
    assert (E : a = a').
    { destruct Ia' as [E|Ia']; [assumption|].
      destruct Ia as [E|Ia]; [now symmetry|].
      pose proof (sorted_heads _ _ S) as F. pose proof (sorted_heads _ _ S') as F'.
      rewrite Forall_forall in F, F'.
      apply Anti; [now left | now right | now apply F | now apply F']. }
    subst a'. f_equal. apply IH.
    + now inversion S.
    + now inversion S'.
    + now apply Permutation_cons_inv in P.
    + intros x y Hx Hy. apply Anti; now right.
Qed.

Lemma sortBy_perm_invariant (l l' : list A) :
  Permutation l l' ->
  (forall a b, In a l -> In b l -> cmp a b <= 0 -> cmp b a <= 0 -> a = b) ->
  sortBy cmp l = sortBy cmp l'.
Proof.
  intros P Anti. apply sorted_perm_unique.
  - now apply sortBy_sorted.
  - now apply sortBy_sorted.
  - rewrite (sortBy_perm cmp l), (sortBy_perm cmp l'). exact P.
  - intros a b Ha Hb. apply Anti; now apply (sortBy_In cmp l).
Qed.

End SortUnique.

Lemma NoDup_map_eq {A B : Type} (f : A -> B) (l : list A) (a b : A) :
  NoDup (map f l) -> In a l -> In b l -> f a = f b -> a = b.
Proof.
  induction l as [|x l IH]; simpl; intros N Ha Hb E; [contradiction|].
  inversion N as [|? ? Nx Nl]; subst.
  destruct Ha as [->|Ha], Hb as [->|Hb].
  - reflexivity.
  - exfalso. apply Nx. rewrite E. now apply in_map.
  - exfalso. apply Nx. rewrite <- E. now apply in_map.
  - now apply IH.
Qed.

Lemma codeUnitCompare_consistent : consistentOrder Sample.codeUnitCompare.
Proof.
  unfold consistentOrder, Sample.codeUnitCompare. split; [|split].
  - intros a b. rewrite (String.compare_antisym b a).
    destruct (String.compare a b); simpl; lia.
  - intros a b c.
    destruct (String.compare a b) eqn:E1; [| |lia];
      destruct (String.compare b c) eqn:E2; try lia; intros _ _.
    + apply String.compare_eq_iff in E1, E2. subst.
      pose proof (proj2 (String_as_OT.cmp_eq c c) eq_refl) as R.
      unfold String_as_OT.cmp in R. rewrite R. lia.
    + apply String.compare_eq_iff in E1. subst. rewrite E2. lia.
    + apply String.compare_eq_iff in E2. subst. rewrite E1. lia.
    + apply String_as_OT.cmp_lt in E1, E2.
      pose proof (String_as_OT.lt_trans _ _ _ E1 E2) as L.
      apply String_as_OT.cmp_lt in L. unfold String_as_OT.cmp in L. rewrite L. lia.
  - intros a b. rewrite (String.compare_antisym b a).
    destruct (String.compare a b) eqn:E; simpl; try lia.
    intros _ _. now apply String.compare_eq_iff.
Qed.

(** C9, for the adapters of [funding-rates.js]: with a comparator that
    is a total order, what each adapter and the per-source wrapper
    return is in ascending order of symbol, and the sort gives the same
    sequence for any order in which the same records, of distinct
    symbols, were collected. *)
Theorem adapters_sorted :
  forall lc, consistentOrder lc ->
    (forall ep exchangeName ex,
       exists l, outcome (FundingRatesJs.fetchFundingRates lc ep exchangeName ex) = Ok l /\
                 sortedBySymbol lc l) /\
    (forall ex,
       exists l, outcome (FundingRatesJs.fetchBinanceFundingRates lc ex) = Ok l /\
                 sortedBySymbol lc l) /\
    (forall ep ex,
       exists l, outcome (FundingRatesJs.fetchMexcFundingRates lc ep ex) = Ok l /\
                 sortedBySymbol lc l) /\
    (forall collected collected',
       Permutation collected collected' -> NoDup (map symbol collected) ->
       sortBy (FundingRatesJs.bySymbol lc) collected =
       sortBy (FundingRatesJs.bySymbol lc) collected').
Proof.
  intros lc [Total [Trans Anti]].
  assert (S : forall l0, sortedBySymbol lc (sortBy (FundingRatesJs.bySymbol lc) l0)).
  { intros l0. apply (sortBy_sorted (FundingRatesJs.bySymbol lc)).
    intros a b. apply Total. }
  split; [|split; [|split]].
  - intros ep name ex.
    destruct (fetchFundingRates_shape lc ep name ex) as [l0 [log [E _]]].
    rewrite E. eexists. split; [reflexivity | apply S].
  - intros ex.
    destruct (fetchBinanceFundingRates_shape lc ex) as [l0 [log [E _]]].
    rewrite E. eexists. split; [reflexivity | apply S].
  - intros ep ex.
    destruct (fetchMexcFundingRates_shape lc ep ex) as [l0 [log [E _]]].
    rewrite E. eexists. split; [reflexivity | apply S].
  - intros l l' P N. apply sortBy_perm_invariant.
    + intros a b. apply Total.
    + intros a b c. apply Trans.
    + exact P.
    + intros a b Ha Hb H1 H2. apply (NoDup_map_eq symbol l); try assumption.
      now apply Anti.
Qed.

Lemma adapters_sorted_witness :
  exists l,
    outcome (FundingRatesJs.fetchFundingRates Sample.codeUnitCompare (Sample.endpoint [])
               "binance"
               (Sample.snapshotExchange "binance"
                  [("ETH/USDT:USDT", Some Sample.eightHours);
                   ("BTC/USDT:USDT", Some Sample.eightHours)])) = Ok l /\
    sortedBySymbol Sample.codeUnitCompare l.
Proof.
  apply (proj1 (adapters_sorted Sample.codeUnitCompare codeUnitCompare_consistent)).
Defined.

(** C9 as written fails for the adapter of the second handler file,
    which returns its records in the order they were pushed: ETH before
    BTC here; and when the instruments need the history request, the
    order follows the order in which the requests complete. *)
Lemma part000_unsorted :
  (exists eth btc,
     outcome (Part000.fetchFundingRates (fun _ => 0) (fun _ => 0) "binance"
                (Sample.snapshotExchange "binance"
                   [("ETH/USDT:USDT", Some Sample.eightHours);
                    ("BTC/USDT:USDT", Some Sample.eightHours)])) = Ok [eth; btc] /\
     symbol eth = "ETH" /\ symbol btc = "BTC" /\
     ~ sortedBySymbol Sample.codeUnitCompare [eth; btc]) /\
  (exists a b,
     outcome (Part000.fetchFundingRates (fun _ => 0) (fun _ => 0) "binance"
                (Sample.snapshotExchange "binance"
                   [("AAA/USDT:USDT", Some Sample.bare);
                    ("BBB/USDT:USDT", Some Sample.bare)])) = Ok [a; b] /\
     outcome (Part000.fetchFundingRates Sample.slowForAAA (fun _ => 0) "binance"
                (Sample.snapshotExchange "binance"
                   [("AAA/USDT:USDT", Some Sample.bare);
                    ("BBB/USDT:USDT", Some Sample.bare)])) = Ok [b; a] /\
     symbol a = "AAA" /\ symbol b = "BBB").
Proof.
  split.
  - eexists. eexists. split; [vm_compute; reflexivity|].
    split; [reflexivity|]. split; [reflexivity|].
    intros S. inversion S as [|? ? _ Hd]; subst.
    inversion Hd as [|? ? H]; subst. vm_compute in H. now apply H.
  - eexists. eexists. split; [vm_compute; reflexivity|].
    split; [vm_compute; reflexivity|]. split; reflexivity.
Qed.

(** ** Objects used as maps *)

Lemma get_set_same {V : Type} (k : string) (v : V) (o : JsObject.t V) :
  JsObject.get k (JsObject.set k v o) = Some v.
Proof.
  induction o as [|[k' v'] o IH]; simpl.
  - now rewrite String.eqb_refl.
  - destruct (String.eqb k k') eqn:E; simpl; rewrite ?String.eqb_refl, ?E; auto.
Qed.

Lemma get_set_other {V : Type} (k k' : string) (v : V) (o : JsObject.t V) :
  k <> k' -> JsObject.get k (JsObject.set k' v o) = JsObject.get k o.
Proof.
  intros N. induction o as [|[k0 v0] o IH]; simpl.
  - destruct (String.eqb_spec k k'); [contradiction | reflexivity].
  - destruct (String.eqb_spec k' k0) as [->|N0]; simpl.
    + destruct (String.eqb_spec k k0); [contradiction | reflexivity].
    + destruct (String.eqb_spec k k0); [reflexivity | exact IH].
Qed.

Lemma get_In_keys {V : Type} (k : string) (o : JsObject.t V) :
  In k (map fst o) <-> exists v, JsObject.get k o = Some v.
Proof.
  induction o as [|[k' v'] o IH]; simpl.
  - split; [contradiction | intros [v H]; discriminate].
  - destruct (String.eqb_spec k k') as [->|N].
    + split; [intros _; now exists v' | now left].
    + rewrite <- IH. split; [intros [E|H]; [now symmetry in E | assumption] | now right].
Qed.

Lemma keys_In {V : Type} (k : string) (o : JsObject.t V) :
  In k (JsObject.keys o) <-> In k (map fst o).
Proof.
  unfold JsObject.keys. rewrite in_app_iff, sortBy_In, !filter_In.
  destruct (JsObject.isIndex k); simpl; intuition discriminate.
Qed.

Lemma setOf_In (k : string) (l : list string) : In k (JsObject.setOf l) <-> In k l.
Proof.
  induction l as [|x l IH]; simpl; [reflexivity|].
  rewrite filter_In, IH.
  destruct (String.eqb_spec x k) as [->|N]; simpl.
  - split; [intros _; now left | intros _; now left].
  - split.
    + intros [E|[H _]]; [contradiction | now right].
    + intros [E|H]; [contradiction | right; now split].
Qed.

Lemma toMap_get_acc (s : string) (r : FundingRecord) (l : list FundingRecord) :
  forall acc,
    JsObject.get s (fold_left (fun m item => JsObject.set (symbol item) item m) l acc) =
      Some r ->
    (In r l /\ symbol r = s) \/ JsObject.get s acc = Some r.
Proof.
  induction l as [|x l IH]; intros acc H; simpl in H.
  - now right.
  - destruct (IH _ H) as [[I E]|G].
    + left. split; [now right | assumption].
    + destruct (String.eqb_spec s (symbol x)) as [->|N].
      * rewrite get_set_same in G. inversion G. subst. left. split; [now left | reflexivity].
      * rewrite get_set_other in G by assumption. now right.
Qed.

Lemma toMap_get_In (s : string) (r : FundingRecord) (l : list FundingRecord) :
  JsObject.get s (FundingRatesJs.toMap l) = Some r -> In r l /\ symbol r = s.
Proof.
  intros H. destruct (toMap_get_acc s r l [] H) as [?|G]; [assumption | discriminate].
Qed.

Lemma toMap_present_acc (s : string) (l : list FundingRecord) :
  forall acc,
    In s (map symbol l) \/ (exists v, JsObject.get s acc = Some v) ->
    exists v,
      JsObject.get s (fold_left (fun m item => JsObject.set (symbol item) item m) l acc) =
        Some v.
Proof.
  induction l as [|x l IH]; intros acc H; simpl in *.
  - destruct H as [[]|H]. exact H.
  - apply IH. destruct (String.eqb_spec s (symbol x)) as [->|N].
    + right. exists x. apply get_set_same.
    + destruct H as [[E|H]|H].
      * now symmetry in E.
      * now left.
      * right. now rewrite get_set_other.
Qed.

Lemma toMap_present (r : FundingRecord) (l : list FundingRecord) :
  In r l -> exists v, JsObject.get (symbol r) (FundingRatesJs.toMap l) = Some v.
Proof.
  intros H. apply toMap_present_acc. left. now apply in_map.
Qed.

Lemma toMap_get_unique (r : FundingRecord) (l : list FundingRecord) :
  NoDup (map symbol l) -> In r l ->
  JsObject.get (symbol r) (FundingRatesJs.toMap l) = Some r.
Proof.
  intros N I. destruct (toMap_present r l I) as [v G].
  destruct (toMap_get_In _ _ _ G) as [Iv Ev].
  now rewrite (NoDup_map_eq symbol l v r N Iv I Ev) in G.
Qed.

Lemma allSymbols_In (s : string) (b m : list FundingRecord) :
  In s (FundingRatesJs.allSymbols b m) <->
  (exists v, JsObject.get s (FundingRatesJs.toMap b) = Some v) \/
  (exists v, JsObject.get s (FundingRatesJs.toMap m) = Some v).
Proof.
  unfold FundingRatesJs.allSymbols.
  now rewrite setOf_In, in_app_iff, !keys_In, !get_In_keys.
Qed.

Lemma comparisonTable_In (e : FundingRatesJs.ComparisonEntry) (b m : list FundingRecord) :
  In e (FundingRatesJs.comparisonTable b m) <->
  exists s, In s (FundingRatesJs.allSymbols b m) /\
            In e (FundingRatesJs.compareSymbol (FundingRatesJs.toMap b)
                    (FundingRatesJs.toMap m) s).
Proof.
  unfold FundingRatesJs.comparisonTable. now rewrite sortBy_In, in_flat_map.
Qed.

Lemma compareSymbol_symbol (bm mm : JsObject.t FundingRecord) (s : string)
    (e : FundingRatesJs.ComparisonEntry) :
  In e (FundingRatesJs.compareSymbol bm mm s) -> FundingRatesJs.e_symbol e = s.
Proof.
  unfold FundingRatesJs.compareSymbol.
  destruct (JsObject.get s bm); [|contradiction].
  destruct (JsObject.get s mm); [|contradiction].
  destruct (_ || _); [|contradiction].
  intros [<-|[]]. reflexivity.
Qed.

(** ** The comparison table *)

(** C1, as the code has it: when the handler holds a record of each
    source for a symbol (the record of the source with that symbol, the
    last one if there are several: [toMap_get_unique], [toMap_get_In])
    and at least one of the two rates is not null, the table has
    exactly one entry for the symbol; its differential is
    rate(MEXC) - rate(Binance), a null rate counting as 0; and the
    favorable exchange is the one whose rate is lower: BINANCE when the
    differential is positive, MEXC when it is negative, EQUAL on a
    tie. *)
Theorem comparison_entry :
  forall (b m : list FundingRecord) (s : string) (binanceData mexcData : FundingRecord),
    JsObject.get s (FundingRatesJs.toMap b) = Some binanceData ->
    JsObject.get s (FundingRatesJs.toMap m) = Some mexcData ->
    fundingRate binanceData <> None \/ fundingRate mexcData <> None ->
    exists e,
      In e (FundingRatesJs.comparisonTable b m) /\
      FundingRatesJs.e_symbol e = s /\
      (forall e', In e' (FundingRatesJs.comparisonTable b m) ->
                  FundingRatesJs.e_symbol e' = s -> e' = e) /\
      FundingRatesJs.fundingRateDifference e =
        Some (rateOrZero (fundingRate mexcData) - rateOrZero (fundingRate binanceData)) /\
      (rateOrZero (fundingRate binanceData) < rateOrZero (fundingRate mexcData) ->
       FundingRatesJs.favorableExchange e = FundingRatesJs.BINANCE) /\
      (rateOrZero (fundingRate mexcData) < rateOrZero (fundingRate binanceData) ->
       FundingRatesJs.favorableExchange e = FundingRatesJs.MEXC) /\
      (rateOrZero (fundingRate mexcData) = rateOrZero (fundingRate binanceData) ->
       FundingRatesJs.favorableExchange e = FundingRatesJs.EQUAL).
Proof.
  intros b m s bd md Gb Gm R.
  assert (C : exists e,
             FundingRatesJs.compareSymbol (FundingRatesJs.toMap b)
               (FundingRatesJs.toMap m) s = [e] /\
             FundingRatesJs.e_symbol e = s /\
             FundingRatesJs.fundingRateDifference e =
               Some (rateOrZero (fundingRate md) - rateOrZero (fundingRate bd)) /\
             FundingRatesJs.favorableExchange e =
               (if 0 <? rateOrZero (fundingRate md) - rateOrZero (fundingRate bd)
                then FundingRatesJs.BINANCE
                else if rateOrZero (fundingRate md) - rateOrZero (fundingRate bd) <? 0
                     then FundingRatesJs.MEXC else FundingRatesJs.EQUAL)).
  { unfold FundingRatesJs.compareSymbol. rewrite Gb, Gm.
    assert (T : negb (FundingRatesJs.isNull (fundingRate bd)) ||
                negb (FundingRatesJs.isNull (fundingRate md)) = true).
    { destruct (fundingRate bd), (fundingRate md); simpl; try reflexivity.
      destruct R as [R|R]; now elim R. }
    rewrite T. eexists. split; [reflexivity|]. repeat split. }
  destruct C as [e [Ce [Es [Ed Ef]]]]. exists e.
  split; [|split; [exact Es|split; [|split; [exact Ed|]]]].
  - apply comparisonTable_In. exists s. split.
    + apply allSymbols_In. left. now exists bd.
    + rewrite Ce. now left.
  - intros e' He' Es'. apply comparisonTable_In in He' as [s' [_ He']].
    pose proof (compareSymbol_symbol _ _ _ _ He') as E'.
    assert (X : s' = s) by congruence. rewrite X in He'.
    rewrite Ce in He'. destruct He' as [<-|[]]. reflexivity.
  - rewrite Ef. repeat split; intros H.
    + destruct (Z.ltb_spec 0 (rateOrZero (fundingRate md) - rateOrZero (fundingRate bd)));
        [reflexivity | lia].
    + destruct (Z.ltb_spec 0 (rateOrZero (fundingRate md) - rateOrZero (fundingRate bd)));
        [lia|].
      destruct (Z.ltb_spec (rateOrZero (fundingRate md) - rateOrZero (fundingRate bd)) 0);
        [reflexivity | lia].
    + destruct (Z.ltb_spec 0 (rateOrZero (fundingRate md) - rateOrZero (fundingRate bd)));
        [lia|].
      destruct (Z.ltb_spec (rateOrZero (fundingRate md) - rateOrZero (fundingRate bd)) 0);
        [lia | reflexivity].
Qed.

Lemma comparison_entry_witness :
  exists e,
    In e (FundingRatesJs.comparisonTable
            [Sample.rated "BINANCE" "BTC" (Some 10000)]
            [Sample.rated "MEXC" "BTC" (Some (-20000))]) /\
    FundingRatesJs.fundingRateDifference e = Some (-20000 - 10000) /\
    FundingRatesJs.favorableExchange e = FundingRatesJs.MEXC.
Proof.
  assert (Gb : JsObject.get "BTC"
                 (FundingRatesJs.toMap [Sample.rated "BINANCE" "BTC" (Some 10000)]) =
               Some (Sample.rated "BINANCE" "BTC" (Some 10000))) by reflexivity.
  assert (Gm : JsObject.get "BTC"
                 (FundingRatesJs.toMap [Sample.rated "MEXC" "BTC" (Some (-20000))]) =
               Some (Sample.rated "MEXC" "BTC" (Some (-20000)))) by reflexivity.
  assert (R : fundingRate (Sample.rated "BINANCE" "BTC" (Some 10000)) <> None \/
              fundingRate (Sample.rated "MEXC" "BTC" (Some (-20000))) <> None)
    by (left; discriminate).
  destruct (comparison_entry _ _ _ _ _ Gb Gm R) as [e [I [_ [_ [D [_ [F _]]]]]]].
  exists e. split; [exact I|]. split; [exact D|]. apply F. simpl. lia.
Defined.

(** C1 as written fails on its own example: with Binance at 0.01 and
    MEXC at -0.02 the differential is -0.03 and the favorable exchange
    is MEXC, the source with the lower rate, not Binance. *)
Lemma favorable_is_lower_rate :
  exists e,
    FundingRatesJs.comparisonTable
      [Sample.rated "BINANCE" "BTC" (Some 10000)]
      [Sample.rated "MEXC" "BTC" (Some (-20000))] = [e] /\
    FundingRatesJs.fundingRateDifference e = Some (-30000) /\
    FundingRatesJs.favorableExchange e = FundingRatesJs.MEXC /\
    FundingRatesJs.favorableExchange e <> FundingRatesJs.BINANCE.
Proof.
  eexists. split; [vm_compute; reflexivity|].
  split; [reflexivity|]. split; [reflexivity | discriminate].
Qed.

Lemma comparisonTable_disjoint (b m : list FundingRecord) :
  (forall s, In s (map symbol b) -> In s (map symbol m) -> False) ->
  FundingRatesJs.comparisonTable b m = [].
Proof.
  intros D. destruct (FundingRatesJs.comparisonTable b m) as [|e t] eqn:E; [reflexivity|].
  exfalso.
  assert (I : In e (FundingRatesJs.comparisonTable b m)) by (rewrite E; now left).
  apply comparisonTable_In in I as [s [_ I]].
  unfold FundingRatesJs.compareSymbol in I.
  destruct (JsObject.get s (FundingRatesJs.toMap b)) as [bd|] eqn:Gb; [|contradiction].
  destruct (JsObject.get s (FundingRatesJs.toMap m)) as [md|] eqn:Gm; [|contradiction].
  apply toMap_get_In in Gb as [Ib Eb]. apply toMap_get_In in Gm as [Im Em].
  apply (D s).
  - rewrite <- Eb. now apply in_map.
  - rewrite <- Em. now apply in_map.
Qed.


(** ** Rates the source did not provide *)

Lemma rateSum_from (l : list FundingRecord) (a : Z) :
  fold_left (fun sum item => sum + rateOrZero (fundingRate item)) l a =
  a + Part000.rateSum l.
Proof.
  unfold Part000.rateSum. revert a.
  induction l as [|x l IH]; intros a; simpl; [lia|].
  rewrite (IH (a + _)), (IH (rateOrZero _)). lia.
Qed.

Lemma rateSum_app (l1 l2 : list FundingRecord) :
  Part000.rateSum (l1 ++ l2) = Part000.rateSum l1 + Part000.rateSum l2.
Proof.
  unfold Part000.rateSum at 1. rewrite fold_left_app.
  fold (Part000.rateSum l1). apply rateSum_from.
Qed.

(** C8, as the code has it: a falsy rate (missing, null or zero) is
    emitted as null by the MEXC adapter and by the adapters of the
    second handler file, and the ticker records carry a null rate; the
    Binance adapter of [funding-rates.js] emits 0.000000 for it, unless
    it is [undefined], in which case the instrument is skipped; the sum
    behind the average, and the differential, count a null rate as 0,
    and the binary64 average is the one of the same records with
    0.000000 in place of null. *)
Theorem absent_rate_marker :
  (forall item r,
     FundingRatesJs.mexcRecord item = Ok (Some r) ->
     truthyR (FundingRatesJs.m_fundingRate item) = false ->
     fundingRate r = None) /\
  (forall sym t, fundingRate (FundingRatesJs.tickerRecord sym t) = None) /\
  (forall hl exchangeName ex sym data r,
     Part000.t_outcome (Part000.rateTask hl exchangeName ex (sym, Some data)) =
       Ok (Some r) ->
     truthyR (i_fundingRate data) = false ->
     fundingRate r = None) /\
  (forall tl ex sym r,
     Part000.t_outcome (Part000.tickerTask tl ex sym) = Ok (Some r) ->
     fundingRate r = None) /\
  (forall sym baseSymbol data interval,
     truthyR (i_fundingRate data) = false ->
     fundingRate (FundingRatesJs.binanceRecord sym baseSymbol data interval) = Some 0) /\
  (forall ex st sym data,
     i_fundingRate data = RUndefined ->
     FundingRatesJs.processSymbol ex st (sym, Some data) = ret st) /\
  (forall l1 l2 r,
     fundingRate r = None ->
     Part000.rateSum (l1 ++ r :: l2) = Part000.rateSum (l1 ++ l2)) /\
  rateOrZero None = 0 /\
  (forall l1 l2 r r0,
     fundingRate r = None ->
     fundingRate r0 = Some 0 ->
     Part000.averageFundingRate (l1 ++ r :: l2) =
     Part000.averageFundingRate (l1 ++ r0 :: l2)).
Proof.
  split; [|split; [|split; [|split; [|split; [|split; [|split; [|split]]]]]]].
  - intros item r. unfold FundingRatesJs.mexcRecord.
    destruct (FundingRatesJs.m_symbol item) as [s|]; [|discriminate].
    destruct (JsString.includes "USDT" s); [|discriminate].
    destruct (truthyT (FundingRatesJs.m_nextSettleTime item)).
    + unfold bindE.
      destruct (FundingRatesJs.isoOf (FundingRatesJs.minusHours _ _)); [|discriminate].
      destruct (FundingRatesJs.isoOf _); [|discriminate].
      intros H T. inversion H. cbn [fundingRate]. now rewrite T.
    + intros H T. inversion H. cbn [fundingRate]. now rewrite T.
  - reflexivity.
  - intros hl name ex sym data r. unfold Part000.rateTask. cbn [Part000.t_outcome].
    intros H T. inversion H. cbn [fundingRate]. now rewrite T.
  - intros tl ex sym r. unfold Part000.tickerTask. cbn [Part000.t_outcome].
    destruct (fetchTicker ex sym); [|discriminate].
    intros H. inversion H. reflexivity.
  - intros sym b data i T. unfold FundingRatesJs.binanceRecord. cbn [fundingRate].
    now rewrite T.
  - intros ex st sym data U. unfold FundingRatesJs.processSymbol. now rewrite U.
  - intros l1 l2 r N. rewrite !rateSum_app.
    change (r :: l2) with ([r] ++ l2). rewrite rateSum_app.
    unfold Part000.rateSum at 2. simpl. rewrite N. simpl. lia.
  - reflexivity.
  - intros l1 l2 r r0 N Z0.
    unfold Part000.averageFundingRate, Part000.reduceRates.
    rewrite !length_app, !fold_left_app. cbn [List.length fold_left].
    now rewrite N, Z0.
Qed.

Lemma absent_rate_marker_witness :
  exists r,
    FundingRatesJs.mexcRecord (Sample.mexcItem "BTC_USDT" RNull (Some 8)) = Ok (Some r) /\
    fundingRate r = None.
Proof.
  eexists. split; [reflexivity|].
  apply (proj1 absent_rate_marker (Sample.mexcItem "BTC_USDT" RNull (Some 8)));
    reflexivity.
Defined.

(** C8 as written fails in both places it names: the Binance adapter
    emits the rate 0.000000 for an instrument whose rate is null, and
    the average of a null rate and 0.02 is 0.01. *)
Lemma null_rate_read_as_zero :
  (exists r,
     outcome (FundingRatesJs.fetchFundingRates Sample.codeUnitCompare (Sample.endpoint [])
                "binance"
                (Sample.snapshotExchange "binance"
                   [("BTC/USDT:USDT", Some Sample.nullRate)])) = Ok [r] /\
     i_fundingRate Sample.nullRate = RNull /\
     fundingRate r = Some 0) /\
  Part000.averageFundingRate
    [Sample.rated "MEXC" "BTC" None; Sample.rated "BINANCE" "ETH" (Some 20000)] =
  Part000.parsedRate (Some 10000).
Proof.
  split.
  - eexists. split; [vm_compute; reflexivity|]. split; reflexivity.
  - vm_compute. reflexivity.
Qed.

(** ** More on the comparison table *)

Lemma get_fold_other (s : string) (l : list FundingRecord) :
  (forall r, In r l -> symbol r <> s) ->
  forall acc,
    JsObject.get s (fold_left (fun m item => JsObject.set (symbol item) item m) l acc) =
    JsObject.get s acc.
Proof.
  induction l as [|x l IH]; intros H acc; simpl; [reflexivity|].
  rewrite IH by (intros r Hr; apply H; now right).
  apply get_set_other. intros E. apply (H x); [now left | now symmetry].
Qed.

(** X1: the map the handler builds from a source keeps, for each
    symbol, the last record of the source with that symbol, and has no
    entry for a symbol no record carries. *)
Theorem toMap_last_wins :
  (forall l1 r l2,
     (forall r', In r' l2 -> symbol r' <> symbol r) ->
     JsObject.get (symbol r) (FundingRatesJs.toMap (l1 ++ r :: l2)) = Some r) /\
  (forall s l,
     (forall r, In r l -> symbol r <> s) ->
     JsObject.get s (FundingRatesJs.toMap l) = None).
Proof.
  split.
  - intros l1 r l2 H. unfold FundingRatesJs.toMap.
    rewrite fold_left_app. cbn [fold_left].
    rewrite get_fold_other by exact H. apply get_set_same.
  - intros s l H. unfold FundingRatesJs.toMap. now rewrite get_fold_other.
Qed.

Lemma toMap_last_wins_witness :
  JsObject.get "BTC"
    (FundingRatesJs.toMap
       ([Sample.rated "MEXC" "BTC" (Some 1)] ++
        Sample.rated "MEXC" "BTC" (Some 2) :: [Sample.rated "MEXC" "ETH" None])) =
  Some (Sample.rated "MEXC" "BTC" (Some 2)).
Proof.
  apply (proj1 toMap_last_wins [Sample.rated "MEXC" "BTC" (Some 1)]
           (Sample.rated "MEXC" "BTC" (Some 2)) [Sample.rated "MEXC" "ETH" None]).
  intros r' [<-|[]]. discriminate.
Defined.

Lemma StronglySorted_weaken {A : Type} (R R' : A -> A -> Prop) (l : list A) :
  (forall a b, R a b -> R' a b) -> StronglySorted R l -> StronglySorted R' l.
Proof.
  intros W S. induction S as [|a l S IH F]; constructor; [assumption|].
  rewrite Forall_forall in *. intros b Hb. apply W, F, Hb.
Qed.

Lemma compareSymbol_rows (bm mm : JsObject.t FundingRecord) (s : string)
    (e : FundingRatesJs.ComparisonEntry) :
  In e (FundingRatesJs.compareSymbol bm mm s) ->
  exists bd md,
    JsObject.get s bm = Some bd /\ JsObject.get s mm = Some md /\
    (fundingRate bd <> None \/ fundingRate md <> None) /\
    e = {| FundingRatesJs.e_symbol := s;
           FundingRatesJs.e_binance := FundingRatesJs.sideOf bd;
           FundingRatesJs.e_mexc := FundingRatesJs.sideOf md;
           FundingRatesJs.fundingRateDifference :=
             Some (rateOrZero (fundingRate md) - rateOrZero (fundingRate bd));
           FundingRatesJs.absoluteDifference :=
             Some (Z.abs (rateOrZero (fundingRate md) - rateOrZero (fundingRate bd)));
           FundingRatesJs.favorableExchange :=
             if 0 <? rateOrZero (fundingRate md) - rateOrZero (fundingRate bd)
             then FundingRatesJs.BINANCE
             else if rateOrZero (fundingRate md) - rateOrZero (fundingRate bd) <? 0
                  then FundingRatesJs.MEXC else FundingRatesJs.EQUAL |}.
Proof.
  unfold FundingRatesJs.compareSymbol.
  destruct (JsObject.get s bm) as [bd|]; [|contradiction].
  destruct (JsObject.get s mm) as [md|]; [|contradiction].
  destruct (negb (FundingRatesJs.isNull (fundingRate bd)) ||
            negb (FundingRatesJs.isNull (fundingRate md))) eqn:T; [|contradiction].
  intros [<-|[]]. exists bd, md. repeat split.
  destruct (fundingRate bd), (fundingRate md); simpl in T;
    try discriminate; (left; discriminate) || (right; discriminate).
Qed.

Lemma comparisonTable_paired (b m : list FundingRecord) :
  Forall pairedRow (FundingRatesJs.comparisonTable b m).
Proof.
  apply Forall_forall. intros e He.
  apply comparisonTable_In in He as [s [_ He]].
  destruct (compareSymbol_rows _ _ _ _ He) as [bd [md [_ [_ [_ ->]]]]].
  unfold pairedRow. cbn. split; [eexists; split; reflexivity|].
  split; [discriminate|]. split; [discriminate|].
  destruct (0 <? _); [now left|]. destruct (_ <? 0); [right; now left | right; now right].
Qed.

(** X2: the paired table is in ascending order of the signed
    differential, every row standing before all rows of a greater or
    equal differential, and each row carries a numeric differential
    with its absolute value. *)
Theorem comparisonTable_sorted :
  forall b m : list FundingRecord,
    StronglySorted
      (fun x y => rateOrZero (FundingRatesJs.fundingRateDifference x) <=
                  rateOrZero (FundingRatesJs.fundingRateDifference y))
      (FundingRatesJs.comparisonTable b m) /\
    Forall (fun e => exists d,
              FundingRatesJs.fundingRateDifference e = Some d /\
              FundingRatesJs.absoluteDifference e = Some (Z.abs d) /\
              0 <= Z.abs d)
           (FundingRatesJs.comparisonTable b m).
Proof.
  intros b m. split.
  - apply (StronglySorted_weaken (ordered FundingRatesJs.byDifference)).
    + unfold ordered, FundingRatesJs.byDifference. intros x y. lia.
    + apply Sorted_StronglySorted.
      * unfold ordered, FundingRatesJs.byDifference. intros x y z. lia.
      * apply sortBy_sorted. unfold FundingRatesJs.byDifference. intros x y. lia.
  - pose proof (comparisonTable_paired b m) as P.
    rewrite Forall_forall in *. intros e He.
    destruct (P e He) as [[d [D1 D2]] _]. exists d. repeat split; try assumption. lia.
Qed.

Lemma setOf_NoDup (l : list string) : NoDup (JsObject.setOf l).
Proof.
  induction l as [|x l IH]; simpl; constructor.
  - rewrite filter_In. intros [_ H]. now rewrite String.eqb_refl in H.
  - now apply NoDup_filter.
Qed.

Lemma compareSymbol_symbols_NoDup (bm mm : JsObject.t FundingRecord) (syms : list string) :
  NoDup syms ->
  NoDup (map FundingRatesJs.e_symbol (flat_map (FundingRatesJs.compareSymbol bm mm) syms)).
Proof.
  induction syms as [|s syms IH]; intros N; simpl; [constructor|].
  inversion N as [|? ? Ns Nr]; subst.
  rewrite map_app.
  assert (Fresh : ~ In s (map FundingRatesJs.e_symbol
                            (flat_map (FundingRatesJs.compareSymbol bm mm) syms))).
  { intros H. apply in_map_iff in H as [e [Es He]].
    apply in_flat_map in He as [s' [Hs' He]].
    apply compareSymbol_symbol in He. apply Ns. congruence. }
  unfold FundingRatesJs.compareSymbol at 1.
  destruct (JsObject.get s bm); [|now apply IH].
  destruct (JsObject.get s mm); [|now apply IH].
  destruct (_ || _); [|now apply IH].
  simpl. constructor; [exact Fresh | now apply IH].
Qed.

(** X3: a row of the paired table is there only for a symbol that a
    record of each source carries, at least one of the two with a
    non-null rate, and shows those two records; no symbol has two rows. *)
Theorem comparisonTable_sound :
  forall (b m : list FundingRecord),
    (forall e, In e (FundingRatesJs.comparisonTable b m) ->
       exists bd md,
         In bd b /\ In md m /\
         symbol bd = FundingRatesJs.e_symbol e /\
         symbol md = FundingRatesJs.e_symbol e /\
         (fundingRate bd <> None \/ fundingRate md <> None) /\
         FundingRatesJs.e_binance e = FundingRatesJs.sideOf bd /\
         FundingRatesJs.e_mexc e = FundingRatesJs.sideOf md) /\
    NoDup (map FundingRatesJs.e_symbol (FundingRatesJs.comparisonTable b m)).
Proof.
  intros b m. split.
  - intros e He. apply comparisonTable_In in He as [s [_ He]].
    destruct (compareSymbol_rows _ _ _ _ He) as [bd [md [Gb [Gm [R ->]]]]].
    apply toMap_get_In in Gb as [Ib Eb]. apply toMap_get_In in Gm as [Im Em].
    exists bd, md. cbn. repeat split; assumption.
  - unfold FundingRatesJs.comparisonTable.
    apply (Permutation_NoDup
             (l := map FundingRatesJs.e_symbol
                     (flat_map (FundingRatesJs.compareSymbol (FundingRatesJs.toMap b)
                                  (FundingRatesJs.toMap m))
                               (FundingRatesJs.allSymbols b m)))).
    + apply Permutation_map, Permutation_sym, sortBy_perm.
    + apply compareSymbol_symbols_NoDup. apply setOf_NoDup.
Qed.

Lemma comparisonTable_sound_witness :
  exists bd md,
    In bd [Sample.rated "BINANCE" "BTC" (Some 10000)] /\
    In md [Sample.rated "MEXC" "BTC" (Some (-20000))] /\
    symbol bd = "BTC" /\ symbol md = "BTC".
Proof.
  destruct (proj1 (comparisonTable_sound
                     [Sample.rated "BINANCE" "BTC" (Some 10000)]
                     [Sample.rated "MEXC" "BTC" (Some (-20000))])
              {| FundingRatesJs.e_symbol := "BTC";
                 FundingRatesJs.e_binance :=
                   FundingRatesJs.sideOf (Sample.rated "BINANCE" "BTC" (Some 10000));
                 FundingRatesJs.e_mexc :=
                   FundingRatesJs.sideOf (Sample.rated "MEXC" "BTC" (Some (-20000)));
                 FundingRatesJs.fundingRateDifference := Some (-30000);
                 FundingRatesJs.absoluteDifference := Some 30000;
                 FundingRatesJs.favorableExchange := FundingRatesJs.MEXC |})
    as [bd [md [Ib [Im [Eb [Em _]]]]]].
  { vm_compute. left. reflexivity. }
  exists bd, md. repeat split; assumption.
Defined.

Lemma filter_split_length {A : Type} (f : A -> bool) (l : list A) :
  (List.length (filter f l) + List.length (filter (fun x => negb (f x)) l) =
   List.length l)%nat.
Proof.
  induction l as [|x l IH]; simpl; [reflexivity|].
  destruct (f x); simpl; lia.
Qed.

Lemma keys_length {V : Type} (o : JsObject.t V) :
  List.length (JsObject.keys o) = List.length o.
Proof.
  unfold JsObject.keys. rewrite length_app, sortBy_length, filter_split_length.
  apply length_map.
Qed.

Lemma setOf_length (l : list string) :
  (List.length (JsObject.setOf l) <= List.length l)%nat.
Proof.
  induction l as [|x l IH]; cbn [JsObject.setOf List.length]; [lia|].
  pose proof (filter_split_length (fun y => negb (String.eqb x y)) (JsObject.setOf l))
    as H.
  apply le_n_S. etransitivity; [|exact IH]. rewrite <- H. apply Nat.le_add_r.
Qed.

Lemma set_length {V : Type} (k : string) (v : V) (o : JsObject.t V) :
  (List.length (JsObject.set k v o) <= S (List.length o))%nat.
Proof.
  induction o as [|[k' v'] o IH]; simpl; [lia|].
  destruct (String.eqb k k'); simpl; lia.
Qed.

Lemma toMap_length (l : list FundingRecord) :
  (List.length (FundingRatesJs.toMap l) <= List.length l)%nat.
Proof.
  unfold FundingRatesJs.toMap.
  assert (G : forall acc : JsObject.t FundingRecord,
             (List.length (fold_left (fun m item => JsObject.set (symbol item) item m) l acc)
              <= List.length l + List.length acc)%nat).
  { induction l as [|x l IH]; intros acc; simpl; [lia|].
    pose proof (IH (JsObject.set (symbol x) x acc)).
    pose proof (set_length (symbol x) x acc). lia. }
  pose proof (G []). simpl in *. lia.
Qed.

Lemma compareSymbol_length (bm mm : JsObject.t FundingRecord) (syms : list string) :
  (List.length (flat_map (FundingRatesJs.compareSymbol bm mm) syms) <= List.length syms)%nat.
Proof.
  induction syms as [|s syms IH]; simpl; [lia|].
  rewrite length_app. unfold FundingRatesJs.compareSymbol at 1.
  destruct (JsObject.get s bm); [|simpl; lia].
  destruct (JsObject.get s mm); [|simpl; lia].
  destruct (_ || _); simpl; lia.
Qed.

Lemma toMap_keys (s : string) (l : list FundingRecord) :
  (exists v, JsObject.get s (FundingRatesJs.toMap l) = Some v) <-> In s (map symbol l).
Proof.
  split.
  - intros [v G]. apply toMap_get_In in G as [I E]. rewrite <- E. now apply in_map.
  - intros H. apply toMap_present_acc. now left.
Qed.

(** X4: the symbols the handler walks through are those of the records
    of either source, each once; and the counts of the summary obey
    commonCoins <= totalUniqueCoins <= binance + mexc. *)
Theorem summary_counts :
  forall b m : list FundingRecord,
    NoDup (FundingRatesJs.allSymbols b m) /\
    (forall s, In s (FundingRatesJs.allSymbols b m) <->
               In s (map symbol b) \/ In s (map symbol m)) /\
    FundingRatesJs.commonCoins (FundingRatesJs.buildResponse b m) <=
      FundingRatesJs.totalUniqueCoins (FundingRatesJs.buildResponse b m) /\
    FundingRatesJs.totalUniqueCoins (FundingRatesJs.buildResponse b m) <=
      FundingRatesJs.exchangesBinance (FundingRatesJs.buildResponse b m) +
      FundingRatesJs.exchangesMexc (FundingRatesJs.buildResponse b m).
Proof.
  intros b m. split; [apply setOf_NoDup|]. split; [|split].
  - intros s. now rewrite allSymbols_In, !toMap_keys.
  - cbn. unfold FundingRatesJs.comparisonTable. rewrite sortBy_length.
    pose proof (compareSymbol_length (FundingRatesJs.toMap b) (FundingRatesJs.toMap m)
                  (FundingRatesJs.allSymbols b m)). lia.
  - cbn. unfold FundingRatesJs.allSymbols.
    pose proof (setOf_length (JsObject.keys (FundingRatesJs.toMap b) ++
                              JsObject.keys (FundingRatesJs.toMap m))) as H.
    rewrite length_app, !keys_length in H.
    pose proof (toMap_length b). pose proof (toMap_length m). lia.
Qed.

Lemma countFavor_split (table : list FundingRatesJs.ComparisonEntry) :
  Forall pairedRow table ->
  FundingRatesJs.countFavor FundingRatesJs.BINANCE table +
  FundingRatesJs.countFavor FundingRatesJs.MEXC table +
  FundingRatesJs.countFavor FundingRatesJs.EQUAL table =
  Z.of_nat (List.length table).
Proof.
  unfold FundingRatesJs.countFavor.
  induction 1 as [|e table [_ [_ [_ F]]] _ IH]; [reflexivity|].
  cbn [filter List.length].
  destruct F as [F|[F|F]]; rewrite F; cbn [FundingRatesJs.sameFavor List.length]; lia.
Qed.

(** X5: in the summary, the rows that favor Binance, those that favor
    MEXC and the ties add up to commonCoins. *)
Theorem favor_counts :
  forall b m : list FundingRecord,
    FundingRatesJs.favorsBinance (FundingRatesJs.buildResponse b m) +
    FundingRatesJs.favorsMexc (FundingRatesJs.buildResponse b m) +
    FundingRatesJs.countFavor FundingRatesJs.EQUAL (FundingRatesJs.comparisonTable b m) =
    FundingRatesJs.commonCoins (FundingRatesJs.buildResponse b m) /\
    0 <= FundingRatesJs.favorsBinance (FundingRatesJs.buildResponse b m) /\
    0 <= FundingRatesJs.favorsMexc (FundingRatesJs.buildResponse b m).
Proof.
  intros b m. cbn. split; [apply countFavor_split, comparisonTable_paired|].
  unfold FundingRatesJs.countFavor. lia.
Qed.

Lemma Forall2_map_r {A B : Type} (P : A -> B -> Prop) (f : A -> B) (l : list A) :
  (forall x, P x (f x)) -> Forall2 P l (map f l).
Proof.
  intros H. induction l as [|x l IH]; simpl; constructor; [apply H | exact IH].
Qed.

(** X6: the table of the response is of one kind.  Either it is the
    non-empty paired table, all of whose rows show both sources.  Or the
    paired table is empty, as it is when no symbol occurs in both
    sources, and the table has one row for each of the first ten records
    of Binance, in their order, followed by one row for each of the
    first ten records of MEXC: a row shows the symbol of its record and
    the rate, interval, next funding datetime and mark price of the
    record in the column of its source, N/A in the other column and for
    both differences, and the marker of its source; so there are at
    most ten rows for a source, and the table is not empty when a
    source returned a record. *)
Theorem tableData_uniform :
  forall b m : list FundingRecord,
    ((FundingRatesJs.comparisonTable b m <> [] /\
      FundingRatesJs.tableData (FundingRatesJs.buildResponse b m) =
        FundingRatesJs.comparisonTable b m /\
      Forall pairedRow (FundingRatesJs.tableData (FundingRatesJs.buildResponse b m))) \/
     (FundingRatesJs.comparisonTable b m = [] /\
      exists rowsB rowsM,
        FundingRatesJs.tableData (FundingRatesJs.buildResponse b m) = rowsB ++ rowsM /\
        Forall2 binanceRowOf (firstn 10 b) rowsB /\
        Forall2 mexcRowOf (firstn 10 m) rowsM /\
        (List.length rowsB <= 10)%nat /\
        (List.length rowsM <= 10)%nat /\
        (b <> [] \/ m <> [] ->
         FundingRatesJs.tableData (FundingRatesJs.buildResponse b m) <> []))) /\
    ((forall s, In s (map symbol b) -> In s (map symbol m) -> False) ->
     FundingRatesJs.comparisonTable b m = []).
Proof.
  intros b m. split; [|apply comparisonTable_disjoint].
  cbn [FundingRatesJs.tableData FundingRatesJs.buildResponse].
  unfold FundingRatesJs.finalTableData.
  pose proof (comparisonTable_paired b m) as P.
  destruct (FundingRatesJs.comparisonTable b m) as [|e t] eqn:E.
  - right. split; [reflexivity|]. cbn [List.length Z.of_nat Z.eqb].
    exists (map FundingRatesJs.binanceOnly (firstn 10 b)),
           (map FundingRatesJs.mexcOnly (firstn 10 m)).
    split; [reflexivity|].
    split; [apply Forall2_map_r; intros x; repeat split|].
    split; [apply Forall2_map_r; intros x; repeat split|].
    split; [rewrite length_map; apply firstn_le_length|].
    split; [rewrite length_map; apply firstn_le_length|].
    intros [N|N] H; apply app_eq_nil in H as [Hb Hm].
    + destruct b as [|x b]; [contradiction | discriminate].
    + destruct m as [|x m]; [contradiction | discriminate].
  - left. split; [discriminate|].
    replace (Z.of_nat (List.length (e :: t)) =? 0) with false
      by (symmetry; apply Z.eqb_neq; cbn [List.length]; lia).
    split; [reflexivity | exact P].
Qed.

(** ** The histogram of intervals *)

Lemma sameInterval_eq (a b : option Z) : sameInterval a b = true <-> a = b.
Proof.
  destruct a as [x|], b as [y|]; simpl; split; intros H;
    try discriminate; try reflexivity.
  - apply Z.eqb_eq in H. now subst.
  - inversion H. apply Z.eqb_refl.
Qed.

Lemma sameInterval_sym (a b : option Z) : sameInterval a b = sameInterval b a.
Proof.
  destruct a as [x|], b as [y|]; simpl; try reflexivity. apply Z.eqb_sym.
Qed.

Lemma tally_countInterval (i j : option Z) (stats : list (option Z * Z)) :
  tally i (countInterval j stats) =
  tally i stats + (if sameInterval j i then 1 else 0).
Proof.
  induction stats as [|[k n] stats IH]; simpl.
  - rewrite (sameInterval_sym i j). destruct (sameInterval j i); lia.
  - destruct (sameInterval j k) eqn:Ejk; simpl.
    + apply sameInterval_eq in Ejk. subst k.
      rewrite (sameInterval_sym i j). destruct (sameInterval j i); lia.
    + destruct (sameInterval i k) eqn:Eik.
      * apply sameInterval_eq in Eik. subst k. rewrite Ejk. lia.
      * exact IH.
Qed.

Lemma countInterval_keys (j : option Z) (stats : list (option Z * Z)) :
  (In j (map fst stats) /\ map fst (countInterval j stats) = map fst stats) \/
  (~ In j (map fst stats) /\ map fst (countInterval j stats) = map fst stats ++ [j]).
Proof.
  induction stats as [|[k n] stats IH]; simpl.
  - right. split; [tauto | reflexivity].
  - destruct (sameInterval j k) eqn:E; simpl.
    + apply sameInterval_eq in E. subst. left. split; [now left | reflexivity].
    + assert (N : k <> j).
      { intros ->. assert (T : sameInterval j j = true) by now apply sameInterval_eq.
        congruence. }
      destruct IH as [[I K]|[I K]]; rewrite K.
      * left. split; [now right | reflexivity].
      * right. split; [tauto | reflexivity].
Qed.

Lemma countInterval_total (j : option Z) (stats : list (option Z * Z)) :
  statTotal (countInterval j stats) = statTotal stats + 1.
Proof.
  unfold statTotal. induction stats as [|[k n] stats IH]; simpl; [reflexivity|].
  destruct (sameInterval j k); simpl; lia.
Qed.

Lemma countInterval_positive (j : option Z) (stats : list (option Z * Z)) :
  Forall (fun kv => 0 < snd kv) stats ->
  Forall (fun kv => 0 < snd kv) (countInterval j stats).
Proof.
  induction 1 as [|[k n] stats H F IH]; simpl.
  - constructor; [simpl; lia | constructor].
  - destruct (sameInterval j k); constructor; simpl in *; try lia; assumption.
Qed.

Lemma tally_In (i : option Z) (n : Z) (stats : list (option Z * Z)) :
  NoDup (map fst stats) -> In (i, n) stats -> tally i stats = n.
Proof.
  induction stats as [|[k c] stats IH]; simpl; intros N H; [contradiction|].
  inversion N as [|? ? Nk Nr]; subst.
  destruct H as [H|H].
  - inversion H. subst.
    now rewrite (proj2 (sameInterval_eq i i) eq_refl).
  - destruct (sameInterval i k) eqn:E.
    + apply sameInterval_eq in E. subst k. exfalso. apply Nk.
      change i with (fst (i, n)). now apply in_map.
    + now apply IH.
Qed.

Lemma intervalStats_invariant (l : list FundingRecord) :
  forall acc,
    NoDup (map fst acc) -> Forall (fun kv => 0 < snd kv) acc ->
    let stats := fold_left (fun stats item =>
                              countInterval (fundingIntervalHours item) stats) l acc in
    NoDup (map fst stats) /\
    Forall (fun kv => 0 < snd kv) stats /\
    statTotal stats = statTotal acc + Z.of_nat (List.length l) /\
    (forall i, tally i stats = tally i acc + withInterval i l) /\
    (forall i, In i (map fst acc) \/ In i (map fundingIntervalHours l) ->
               In i (map fst stats)).
Proof.
  induction l as [|r l IH]; intros acc N P; cbn [fold_left].
  - repeat split; try assumption.
    + cbn. lia.
    + intros i. unfold withInterval. cbn. lia.
    + intros i [H|[]]. exact H.
  - assert (N' : NoDup (map fst (countInterval (fundingIntervalHours r) acc))).
    { destruct (countInterval_keys (fundingIntervalHours r) acc) as [[_ K]|[I K]];
        rewrite K; [assumption|].
      apply NoDup_app; [assumption | repeat constructor; intros [] |].
      intros x Hx [<-|[]]. contradiction. }
    destruct (IH _ N' (countInterval_positive _ _ P)) as [N2 [P2 [T2 [C2 K2]]]].
    split; [exact N2|]. split; [exact P2|]. split; [|split].
    + rewrite T2, countInterval_total. cbn [List.length]. lia.
    + intros i. rewrite C2, tally_countInterval. unfold withInterval.
      cbn [filter]. destruct (sameInterval (fundingIntervalHours r) i);
        cbn [List.length]; lia.
    + intros i H. apply K2.
      destruct (countInterval_keys (fundingIntervalHours r) acc) as [[I K]|[I K]];
        rewrite K.
      * destruct H as [H|[<-|H]]; [now left | now left | now right].
      * rewrite in_app_iff. destruct H as [H|[<-|H]];
          [left; now left | left; right; now left | now right].
Qed.

(** X7: the histogram of intervals has one entry for each interval
    that occurs among the records and none for the others; each count is
    the number of records with that interval, and the counts add up to
    the number of records. *)
Theorem intervalStats_counts :
  forall l : list FundingRecord,
    statTotal (intervalStats l) = Z.of_nat (List.length l) /\
    NoDup (map fst (intervalStats l)) /\
    (forall i n, In (i, n) (intervalStats l) -> n = withInterval i l /\ 0 < n) /\
    (forall r, In r l -> exists n, In (fundingIntervalHours r, n) (intervalStats l)).
Proof.
  intros l. unfold intervalStats.
  destruct (intervalStats_invariant l [] (NoDup_nil _) (Forall_nil _))
    as [N [P [T [C K]]]].
  split; [exact T|]. split; [exact N|]. split.
  - intros i n H. split.
    + rewrite <- (tally_In i n _ N H). rewrite C. reflexivity.
    + rewrite Forall_forall in P. exact (P _ H).
  - intros r Hr.
    assert (I : In (fundingIntervalHours r)
                  (map fst (fold_left (fun stats item =>
                                         countInterval (fundingIntervalHours item) stats)
                                      l [])))
      by (apply K; right; now apply in_map).
    apply in_map_iff in I as [[k n] [E I]]. simpl in E. subst k. now exists n.
Qed.

Lemma intervalStats_counts_witness :
  exists n,
    In (Some 8, n) (intervalStats [Sample.rated "MEXC" "BTC" None;
                                   Sample.rated "MEXC" "ETH" None]) /\
    n = 2.
Proof.
  destruct (proj2 (proj2 (proj2 (intervalStats_counts
              [Sample.rated "MEXC" "BTC" None; Sample.rated "MEXC" "ETH" None])))
              (Sample.rated "MEXC" "BTC" None)) as [n H]; [now left|].
  exists n. split; [exact H|].
  apply (proj1 (proj2 (proj2 (intervalStats_counts
           [Sample.rated "MEXC" "BTC" None; Sample.rated "MEXC" "ETH" None])))) in H.
  destruct H as [H _]. rewrite H. reflexivity.
Defined.

(** ** More on the MEXC adapter of [funding-rates.js] *)

Lemma roundHours_exact (h : Z) : roundHours (h * 3600000) = h.
Proof.
  unfold roundHours. symmetry. apply Z.div_unique with (r := 1800000); lia.
Qed.

(** X8: in a record the MEXC adapter builds from an item with a
    settlement time, the current timestamp is the next one moved back
    by the interval, so that the calculator applied to the two
    timestamps of the record gives back the interval of the record; the
    two datetimes name the same two instants. *)
Theorem mexcRecord_timestamps :
  forall item r,
    FundingRatesJs.mexcRecord item = Ok (Some r) ->
    truthyT (FundingRatesJs.m_nextSettleTime item) = true ->
    truthyT (fundingTimestamp r) = true ->
    calculateFundingInterval (fundingTimestamp r) (nextFundingTime r) =
      fundingIntervalHours r /\
    nextFundingTime r = FundingRatesJs.m_nextSettleTime item /\
    getTime (fundingDatetime r) = fundingTimestamp r /\
    getTime (nextFundingDatetime r) = nextFundingTime r.
Proof.
  intros item r. unfold FundingRatesJs.mexcRecord.
  destruct (FundingRatesJs.m_symbol item) as [s|]; [|discriminate].
  destruct (JsString.includes "USDT" s); [|discriminate].
  intros H T. rewrite T in H.
  destruct (truthyT_Ms _ T) as [next [E N]]. rewrite E in H.
  cbn [FundingRatesJs.minusHours FundingRatesJs.isoOf] in H.
  unfold toISOString, bindE in H.
  destruct (Z.abs _ <=? 8640000000000000); [|discriminate].
  destruct (Z.abs next <=? 8640000000000000); [|discriminate].
  inversion H. subst r. clear H. cbn. intros T'.
  split; [|split; [symmetry; exact E | split; reflexivity]].
  match goal with
  | |- calculateFundingInterval (Ms ?c) _ = _ =>
      assert (C : c <> 0) by (destruct (Z.eqb_spec c 0); [discriminate | assumption])
  end.
  rewrite calculateFundingInterval_numbers by assumption.
  f_equal.
  match goal with
  | |- roundHours (next - (next - ?h * 60 * 60 * 1000)) = _ =>
      replace (next - (next - h * 60 * 60 * 1000)) with (h * 3600000) by lia;
      apply roundHours_exact
  end.
Qed.

Lemma mexcRecord_timestamps_witness :
  exists r,
    FundingRatesJs.mexcRecord (Sample.mexcItem "BTC_USDT" (RNum 100) (Some 4)) =
      Ok (Some r) /\
    calculateFundingInterval (fundingTimestamp r) (nextFundingTime r) = Some 4.
Proof.
  eexists. split; [reflexivity|].
  apply (mexcRecord_timestamps (Sample.mexcItem "BTC_USDT" (RNum 100) (Some 4)));
    reflexivity.
Defined.

Lemma tickerLoop (ex : Exchange) (symbols : list string) :
  forall result,
    exists added,
      forOfTry (fun result sym =>
                  (ticker <-- await ex (FetchTicker sym) (fetchTicker ex sym) ;;
                   ret (result ++ [FundingRatesJs.tickerRecord sym ticker]))%io)
               symbols result =
        (Ok (result ++ added), map (fun sym => (id ex, FetchTicker sym)) symbols) /\
      Forall tickerShaped added /\
      (List.length added <= List.length symbols)%nat.
Proof.
  induction symbols as [|sym symbols IH]; intros result.
  - exists []. rewrite app_nil_r. repeat split; [constructor | simpl; lia].
  - cbn [forOfTry]. unfold await, catchIO, bindIO, ret.
    destruct (fetchTicker ex sym) as [t|e].
    + destruct (IH (result ++ [FundingRatesJs.tickerRecord sym t])) as [added [E [F L]]].
      unfold await, catchIO, bindIO, ret in E. rewrite E.
      exists (FundingRatesJs.tickerRecord sym t :: added).
      split; [now rewrite <- app_assoc|]. split.
      * constructor; [repeat split | assumption].
      * simpl. lia.
    + destruct (IH result) as [added [E [F L]]].
      unfold await, catchIO, bindIO, ret in E. rewrite E.
      exists added. split; [reflexivity|]. split; [assumption | simpl; lia].
Qed.

Lemma tickerFallback_spec (ex : Exchange) (markets : list (string * Market))
    (result : list FundingRecord) :
  exists added log,
    FundingRatesJs.tickerFallback ex markets result = (Ok (result ++ added), log) /\
    Forall tickerShaped added /\
    (List.length added <= 20)%nat /\
    (tickerCount log <= 20)%nat /\
    tickerCount log = List.length log.
Proof.
  unfold FundingRatesJs.tickerFallback.
  set (symbols := firstn 20 _).
  assert (L20 : (List.length symbols <= 20)%nat) by apply firstn_le_length.
  destruct (tickerLoop ex symbols result) as [added [E [F L]]].
  exists added, (map (fun sym => (id ex, FetchTicker sym)) symbols).
  split; [exact E|]. split; [exact F|]. split; [lia|].
  assert (C : tickerCount (map (fun sym => (id ex, FetchTicker sym)) symbols) =
              List.length (map (fun sym => (id ex, FetchTicker sym)) symbols)).
  { unfold tickerCount. clear. induction symbols as [|s l IH]; simpl; [reflexivity|].
    now rewrite IH. }
  split; [|exact C]. rewrite C, length_map. exact L20.
Qed.

Lemma tickerLoop_symbols (ex : Exchange) (symbols : list string) :
  forall result,
    exists added,
      outcome (forOfTry (fun result sym =>
                  (ticker <-- await ex (FetchTicker sym) (fetchTicker ex sym) ;;
                   ret (result ++ [FundingRatesJs.tickerRecord sym ticker]))%io)
               symbols result) = Ok (result ++ added) /\
      Forall (fun r => In (fullSymbol r) symbols) added.
Proof.
  induction symbols as [|sym symbols IH]; intros result.
  - exists []. rewrite app_nil_r. split; [reflexivity | constructor].
  - cbn [forOfTry]. unfold await, catchIO, bindIO, ret.
    destruct (fetchTicker ex sym) as [t|e].
    + destruct (IH (result ++ [FundingRatesJs.tickerRecord sym t])) as [added [E F]].
      unfold await, catchIO, bindIO, ret in E.
      destruct (forOfTry _ symbols (result ++ [FundingRatesJs.tickerRecord sym t]))
        as [o log].
      cbn [outcome fst] in E. subst o.
      exists (FundingRatesJs.tickerRecord sym t :: added).
      split; [cbn; now rewrite <- app_assoc|].
      constructor; [now left|].
      rewrite Forall_forall in *. intros r Hr. right. now apply F.
    + destruct (IH result) as [added [E F]].
      unfold await, catchIO, bindIO, ret in E.
      destruct (forOfTry _ symbols result) as [o log].
      cbn [outcome fst] in E. subst o.
      exists added. split; [reflexivity|].
      rewrite Forall_forall in *. intros r Hr. right. now apply F.
Qed.

Lemma tickerCount_none (ex : Exchange) :
  tickerCount [(id ex, LoadMarkets); (id ex, FundingRateEndpoint)] = O.
Proof. reflexivity. Qed.

Lemma forEachItem_cases (items : list FundingRatesJs.MexcItem) :
  forall acc,
    (exists result, FundingRatesJs.forEachItem items acc = (result, Ok tt)) \/
    Exists throwing items.
Proof.
  induction items as [|item items IH]; intros acc; cbn [FundingRatesJs.forEachItem].
  - left. now exists acc.
  - destruct (FundingRatesJs.mexcRecord item) as [[r|]|e] eqn:E.
    + destruct (IH (acc ++ [r])) as [H|H]; [now left | right; now constructor 2].
    + destruct (IH acc) as [H|H]; [now left | right; now constructor 2].
    + right. constructor 1. now exists e.
Qed.

(** X9: with the markets loaded, when reading the funding-rate endpoint
    throws, the MEXC adapter takes the ticker fallback: after the
    endpoint it asks for the tickers of the first 20 swap markets quoted
    in USDT, in their order, and returns at most 20 records, each for
    one of those markets, without a rate and with the interval 8.  A
    ticker request is sent only if reading the endpoint threw or an
    item of its answer made the adapter throw; an answer that is not a
    success or has no data gives no record and no ticker request. *)
Theorem mexc_endpoint_down :
  forall lc ex markets,
    loadMarkets ex = Ok markets ->
    (forall e,
       requests (FundingRatesJs.fetchMexcFundingRates lc (Throw e) ex) =
         (id ex, LoadMarkets) :: (id ex, FundingRateEndpoint) ::
         map (fun sym => (id ex, FetchTicker sym)) (firstn 20 (swapSymbols markets)) /\
       exists l,
         outcome (FundingRatesJs.fetchMexcFundingRates lc (Throw e) ex) = Ok l /\
         (List.length l <= 20)%nat /\
         Forall (fun r => tickerShaped r /\
                          In (fullSymbol r) (firstn 20 (swapSymbols markets))) l) /\
    (forall ep,
       (0 < tickerCount (requests (FundingRatesJs.fetchMexcFundingRates lc ep ex)))%nat ->
       (exists e, ep = Throw e) \/
       (exists response items,
          ep = Ok response /\
          FundingRatesJs.success response = true /\
          FundingRatesJs.data response = Some items /\
          Exists throwing items)) /\
    (forall response,
       FundingRatesJs.success response = false \/ FundingRatesJs.data response = None ->
       FundingRatesJs.fetchMexcFundingRates lc (Ok response) ex =
         (Ok [], [(id ex, LoadMarkets); (id ex, FundingRateEndpoint)])).
Proof.
  intros lc ex markets L.
  assert (Quiet : forall response,
            FundingRatesJs.success response = false \/
            FundingRatesJs.data response = None ->
            FundingRatesJs.fetchMexcFundingRates lc (Ok response) ex =
              (Ok [], [(id ex, LoadMarkets); (id ex, FundingRateEndpoint)])).
  { intros response H.
    unfold FundingRatesJs.fetchMexcFundingRates, await, catchIO, bindIO, ret.
    rewrite L. destruct H as [H|H]; rewrite H.
    - reflexivity.
    - now destruct (FundingRatesJs.success response). }
  split; [|split; [|exact Quiet]].
  - intros e.
    unfold FundingRatesJs.fetchMexcFundingRates, await, catchIO, bindIO, ret.
    rewrite L. cbn [fst snd].
    unfold FundingRatesJs.tickerFallback. fold (swapSymbols markets).
    destruct (tickerLoop ex (firstn 20 (swapSymbols markets)) []) as [added [E [F Ln]]].
    destruct (tickerLoop_symbols ex (firstn 20 (swapSymbols markets)) [])
      as [added' [E' F']].
    rewrite E in E'. cbn [outcome fst app] in E'.
    assert (X : added' = added) by congruence. rewrite X in F'. clear E' X.
    rewrite E. cbn [app requests outcome fst snd]. rewrite app_nil_r.
    split; [reflexivity|]. eexists. split; [reflexivity|]. split.
    + rewrite sortBy_length. etransitivity; [exact Ln|]. apply firstn_le_length.
    + apply sortBy_Forall. rewrite Forall_forall in *. intros r Hr.
      split; [now apply F | now apply F'].
  - intros [response|e] T; [|left; now exists e]. right.
    destruct (FundingRatesJs.success response) eqn:Sx.
    2:{ rewrite (Quiet response (or_introl Sx)) in T.
        cbn [requests snd] in T. rewrite tickerCount_none in T. lia. }
    destruct (FundingRatesJs.data response) as [items|] eqn:D.
    2:{ rewrite (Quiet response (or_intror D)) in T.
        cbn [requests snd] in T. rewrite tickerCount_none in T. lia. }
    exists response, items. split; [reflexivity|]. split; [exact Sx|].
    split; [exact D|].
    destruct (forEachItem_cases items []) as [[result E]|X]; [|exact X].
    exfalso. revert T.
    unfold FundingRatesJs.fetchMexcFundingRates, await, catchIO, bindIO, ret.
    rewrite L, Sx, D, E. cbn [fst snd app requests]. rewrite tickerCount_none. lia.
Qed.

Lemma mexc_endpoint_down_witness :
  requests (FundingRatesJs.fetchMexcFundingRates Sample.codeUnitCompare
              (Throw "network error") Sample.tickerExchange) =
  [("mexc", LoadMarkets); ("mexc", FundingRateEndpoint);
   ("mexc", FetchTicker "BTC/USDT:USDT"); ("mexc", FetchTicker "SOL/USDT:USDT")].
Proof.
  exact (proj1 (proj1 (mexc_endpoint_down Sample.codeUnitCompare Sample.tickerExchange
                         [("BTC/USDT:USDT", mkMarket true);
                          ("ETH/USDT", mkMarket false);
                          ("SOL/USDT:USDT", mkMarket true)] eq_refl)
                  "network error")).
Defined.

Lemma forEachItem_all (items : list FundingRatesJs.MexcItem) :
  Forall (fun item => exists o, FundingRatesJs.mexcRecord item = Ok o) items ->
  forall acc,
    FundingRatesJs.forEachItem items acc = (acc ++ mexcRecords items, Ok tt).
Proof.
  induction 1 as [|item items [o E] _ IH]; intros acc; simpl.
  - now rewrite app_nil_r.
  - rewrite E. destruct o as [r|].
    + rewrite IH. now rewrite <- app_assoc.
    + now rewrite IH.
Qed.

Lemma forEachItem_stops (good rest : list FundingRatesJs.MexcItem)
    (bad : FundingRatesJs.MexcItem) (e : string) :
  Forall (fun item => exists o, FundingRatesJs.mexcRecord item = Ok o) good ->
  FundingRatesJs.mexcRecord bad = Throw e ->
  forall acc,
    FundingRatesJs.forEachItem (good ++ bad :: rest) acc =
      (acc ++ mexcRecords good, Throw e).
Proof.
  intros G B. induction G as [|item items [o E] _ IH]; intros acc; simpl.
  - rewrite B. now rewrite app_nil_r.
  - rewrite E. destruct o as [r|].
    + rewrite IH. now rewrite <- app_assoc.
    + now rewrite IH.
Qed.

(** X10: when the endpoint answers with data and no item throws, the
    MEXC adapter returns the records of the items, each once, in order
    of symbol, and sends no ticker request. *)
Theorem mexc_direct_complete :
  forall lc response ex markets items,
    loadMarkets ex = Ok markets ->
    FundingRatesJs.success response = true ->
    FundingRatesJs.data response = Some items ->
    Forall (fun item => exists o, FundingRatesJs.mexcRecord item = Ok o) items ->
    FundingRatesJs.fetchMexcFundingRates lc (Ok response) ex =
      (Ok (sortBy (FundingRatesJs.bySymbol lc) (mexcRecords items)),
       [(id ex, LoadMarkets); (id ex, FundingRateEndpoint)]) /\
    Permutation (sortBy (FundingRatesJs.bySymbol lc) (mexcRecords items))
                (mexcRecords items).
Proof.
  intros lc response ex markets items L S D F. split; [|apply sortBy_perm].
  unfold FundingRatesJs.fetchMexcFundingRates, await, catchIO, bindIO, ret.
  rewrite L, S, D, (forEachItem_all items F []). reflexivity.
Qed.

Lemma mexc_direct_complete_witness :
  exists r,
    FundingRatesJs.fetchMexcFundingRates Sample.codeUnitCompare
      (Sample.endpoint [Sample.mexcItem "BTC_USDT" (RNum 100) (Some 8)])
      (Sample.snapshotExchange "mexc" []) =
    (Ok [r], [("mexc", LoadMarkets); ("mexc", FundingRateEndpoint)]).
Proof.
  eexists.
  refine (eq_trans
            (proj1 (mexc_direct_complete Sample.codeUnitCompare
                      {| FundingRatesJs.success := true;
                         FundingRatesJs.data :=
                           Some [Sample.mexcItem "BTC_USDT" (RNum 100) (Some 8)] |}
                      (Sample.snapshotExchange "mexc" []) []
                      [Sample.mexcItem "BTC_USDT" (RNum 100) (Some 8)]
                      eq_refl eq_refl eq_refl _)) _).
  - constructor; [eexists; reflexivity | constructor].
  - vm_compute. reflexivity.
Defined.

(** X11: when an item of the answer makes the adapter throw (a
    settlement time outside the range of [Date]), the items before it
    keep their records, the items after it are not read, and the ticker
    fallback adds its records, at most 20, to those already there. *)
Theorem mexc_partial_failure :
  forall lc response ex markets good bad rest e,
    loadMarkets ex = Ok markets ->
    FundingRatesJs.success response = true ->
    FundingRatesJs.data response = Some (good ++ bad :: rest) ->
    Forall (fun item => exists o, FundingRatesJs.mexcRecord item = Ok o) good ->
    FundingRatesJs.mexcRecord bad = Throw e ->
    exists l added,
      outcome (FundingRatesJs.fetchMexcFundingRates lc (Ok response) ex) = Ok l /\
      Permutation l (mexcRecords good ++ added) /\
      Forall tickerShaped added /\
      (List.length added <= 20)%nat.
Proof.
  intros lc response ex markets good bad rest e L S D G B.
  unfold FundingRatesJs.fetchMexcFundingRates, await, catchIO, bindIO, ret.
  rewrite L, S, D, (forEachItem_stops good rest bad e G B []). cbn [fst snd app].
  destruct (tickerFallback_spec ex markets (mexcRecords good))
    as [added [log [E [F [Ln _]]]]].
  rewrite E. eexists. exists added. cbn [outcome fst].
  split; [reflexivity|]. split; [apply sortBy_perm|]. split; assumption.
Qed.

Lemma mexc_partial_failure_witness :
  exists l r,
    outcome (FundingRatesJs.fetchMexcFundingRates Sample.codeUnitCompare
               (Sample.endpoint
                  [Sample.mexcItem "BTC_USDT" (RNum 100) (Some 8); Sample.lateItem])
               (Sample.snapshotExchange "mexc" [])) = Ok l /\
    Permutation l [r] /\ symbol r = "BTC".
Proof.
  destruct (mexc_partial_failure Sample.codeUnitCompare
              {| FundingRatesJs.success := true;
                 FundingRatesJs.data :=
                   Some ([Sample.mexcItem "BTC_USDT" (RNum 100) (Some 8)] ++
                         Sample.lateItem :: []) |}
              (Sample.snapshotExchange "mexc" []) []
              [Sample.mexcItem "BTC_USDT" (RNum 100) (Some 8)] Sample.lateItem []
              "Invalid time value" eq_refl eq_refl eq_refl)
    as [l [added [E [P [F Ln]]]]].
  - constructor; [eexists; reflexivity | constructor].
  - reflexivity.
  - exists l. eexists. split; [exact E|]. split.
    + assert (A : added = []).
      { vm_compute in E. inversion E. subst l. clear E.
        apply Permutation_length in P. simpl in P.
        destruct added; [reflexivity | exfalso; simpl in P; lia]. }
      subst added. rewrite app_nil_r in P. exact P.
    + reflexivity.
Defined.

(** ** More on the Binance adapter *)

Lemma processSymbol_pushes (ex : Exchange) (st : FundingRatesJs.LoopState)
    (sym : string) (slot : option FundingInfo) :
  exists st' log,
    FundingRatesJs.processSymbol ex st (sym, slot) = (Ok st', log) /\
    (st' = st \/
     exists data i,
       slot = Some data /\
       FundingRatesJs.result st' =
         FundingRatesJs.result st ++
         [FundingRatesJs.binanceRecord sym (FundingRatesJs.binanceBase sym) data i]).
Proof.
  unfold FundingRatesJs.processSymbol.
  destruct slot as [data|]; [|exists st, []; split; [reflexivity | now left]].
  assert (G : exists st' log,
             (fundingIntervalHours <--
                FundingRatesJs.inferInterval ex sym (FundingRatesJs.binanceBase sym)
                  data (FundingRatesJs.processedCount st) ;;
              ret {| FundingRatesJs.result :=
                       FundingRatesJs.result st ++
                       [FundingRatesJs.binanceRecord sym
                          (FundingRatesJs.binanceBase sym) data fundingIntervalHours];
                     FundingRatesJs.processedCount :=
                       FundingRatesJs.processedCount st + 1 |})%io = (Ok st', log) /\
             exists i,
               FundingRatesJs.result st' =
                 FundingRatesJs.result st ++
                 [FundingRatesJs.binanceRecord sym (FundingRatesJs.binanceBase sym) data i]).
  { rewrite inferInterval_spec. unfold bindIO, ret.
    eexists. eexists. split; [reflexivity|]. eexists. reflexivity. }
  destruct G as [st' [log [E [i R]]]].
  destruct (i_fundingRate data).
  - exists st, []. split; [reflexivity | now left].
  - exists st', log. split; [exact E|]. right. now exists data, i.
  - exists st', log. split; [exact E|]. right. now exists data, i.
Qed.

Lemma binanceLoop_shaped (ex : Exchange) (symbols : list (string * option FundingInfo)) :
  Forall (fun e => JsString.includes "USDT" (fst e) && JsString.includes ":" (fst e) = true)
         symbols ->
  forall st,
    Forall binanceShaped (FundingRatesJs.result st) ->
    exists st' log,
      forOfTry (FundingRatesJs.processSymbol ex) symbols st = (Ok st', log) /\
      Forall binanceShaped (FundingRatesJs.result st') /\
      (List.length (FundingRatesJs.result st') <=
       List.length (FundingRatesJs.result st) + List.length symbols)%nat.
Proof.
  induction 1 as [|[sym slot] symbols C _ IH]; intros st Sh; cbn [forOfTry].
  - exists st, []. split; [reflexivity|]. split; [assumption | lia].
  - destruct (processSymbol_pushes ex st sym slot) as [st1 [log1 [E1 P]]].
    rewrite E1. unfold catchIO, bindIO.
    assert (S1 : Forall binanceShaped (FundingRatesJs.result st1) /\
                 (List.length (FundingRatesJs.result st1) <=
                  S (List.length (FundingRatesJs.result st)))%nat).
    { destruct P as [->|[data [i [_ R]]]]; [split; [assumption | lia]|].
      rewrite R. split.
      - apply Forall_app. split; [assumption|]. constructor; [|constructor].
        cbn [fst] in C. apply andb_true_iff in C as [C1 C2].
        unfold binanceShaped, FundingRatesJs.binanceRecord. cbn.
        repeat split; try assumption.
        destruct (truthyR (i_fundingRate data)); discriminate.
      - rewrite length_app. simpl. lia. }
    destruct S1 as [S1 L1].
    destruct (IH st1 S1) as [st2 [log2 [E2 [S2 L2]]]]. rewrite E2.
    exists st2, (log1 ++ log2). split; [reflexivity|]. split; [assumption|].
    cbn [List.length]. lia.
Qed.

Lemma processSymbol_record (ex : Exchange) (st : FundingRatesJs.LoopState)
    (entry : string * option FundingInfo) :
  exists st' log added,
    FundingRatesJs.processSymbol ex st entry = (Ok st', log) /\
    FundingRatesJs.result st' = FundingRatesJs.result st ++ added /\
    Forall2 madeFrom (filter hasRate [entry]) added.
Proof.
  destruct entry as [sym [data|]].
  2:{ exists st, [], []. rewrite app_nil_r.
      split; [reflexivity|]. split; [reflexivity | constructor]. }
  unfold FundingRatesJs.processSymbol. cbn [filter hasRate snd].
  assert (G : exists st' log,
             (fundingIntervalHours <--
                FundingRatesJs.inferInterval ex sym (FundingRatesJs.binanceBase sym)
                  data (FundingRatesJs.processedCount st) ;;
              ret {| FundingRatesJs.result :=
                       FundingRatesJs.result st ++
                       [FundingRatesJs.binanceRecord sym
                          (FundingRatesJs.binanceBase sym) data fundingIntervalHours];
                     FundingRatesJs.processedCount :=
                       FundingRatesJs.processedCount st + 1 |})%io = (Ok st', log) /\
             exists r,
               FundingRatesJs.result st' = FundingRatesJs.result st ++ [r] /\
               madeFrom (sym, Some data) r).
  { rewrite inferInterval_spec. unfold bindIO, ret.
    eexists. eexists. split; [reflexivity|]. eexists. split; [reflexivity|].
    exists data. cbn. repeat split.
    now destruct (truthyR (i_fundingRate data)). }
  destruct G as [st' [log [E [r [R M]]]]].
  destruct (i_fundingRate data).
  - exists st, [], []. rewrite app_nil_r.
    split; [reflexivity|]. split; [reflexivity | constructor].
  - exists st', log, [r]. split; [exact E|]. split; [exact R|].
    constructor; [exact M | constructor].
  - exists st', log, [r]. split; [exact E|]. split; [exact R|].
    constructor; [exact M | constructor].
Qed.

Lemma binanceLoop_records (ex : Exchange) (symbols : list (string * option FundingInfo)) :
  forall st,
    exists st' log added,
      forOfTry (FundingRatesJs.processSymbol ex) symbols st = (Ok st', log) /\
      FundingRatesJs.result st' = FundingRatesJs.result st ++ added /\
      Forall2 madeFrom (filter hasRate symbols) added.
Proof.
  induction symbols as [|entry symbols IH]; intros st; cbn [forOfTry].
  - exists st, [], []. rewrite app_nil_r.
    split; [reflexivity|]. split; [reflexivity | constructor].
  - destruct (processSymbol_record ex st entry) as [st1 [log1 [a1 [E1 [R1 M1]]]]].
    rewrite E1. unfold catchIO, bindIO.
    destruct (IH st1) as [st2 [log2 [a2 [E2 [R2 M2]]]]]. rewrite E2.
    exists st2, (log1 ++ log2), (a1 ++ a2).
    split; [reflexivity|]. split; [now rewrite R2, R1, app_assoc|].
    change (entry :: symbols) with ([entry] ++ symbols).
    rewrite filter_app. now apply Forall2_app.
Qed.

(** X12: from a snapshot, the Binance adapter builds exactly one record
    for each key that contains USDT and a colon and whose object has a
    rate that is not undefined, and no other record.  The record of a
    key is marked BINANCE, keeps the key as its full symbol, has as
    symbol the part of the key before the colon without /USDT, has a
    rate that is never null (the percentage of the object, 0.000000 for
    a null or zero rate) and copies the timestamps, datetimes and prices
    of the object, the next funding time falling back on the current
    one.  The output is these records sorted by symbol. *)
Theorem binance_records :
  forall lc ex markets entries,
    loadMarkets ex = Ok markets ->
    fetchFundingRates ex = Ok (Some entries) ->
    exists pushed,
      Forall2 madeFrom (recorded entries) pushed /\
      outcome (FundingRatesJs.fetchBinanceFundingRates lc ex) =
        Ok (sortBy (FundingRatesJs.bySymbol lc) pushed).
Proof.
  intros lc ex markets entries L F.
  unfold FundingRatesJs.fetchBinanceFundingRates, await, catchIO, bindIO, ret.
  rewrite L, F.
  destruct entries as [|entry entries].
  { exists []. split; [constructor | reflexivity]. }
  remember (entry :: entries) as all.
  destruct (binanceLoop_records ex
              (filter (fun e => JsString.includes "USDT" (fst e) &&
                                JsString.includes ":" (fst e)) all)
              {| FundingRatesJs.result := []; FundingRatesJs.processedCount := 0 |})
    as [st [log [added [E [R M]]]]].
  rewrite E. cbn [FundingRatesJs.result app] in R.
  exists added. split; [exact M|]. cbn [outcome fst]. now rewrite R.
Qed.

Lemma binance_records_witness :
  exists pushed,
    Forall2 madeFrom
      [("ETH/USDT:USDT", Some Sample.eightHours);
       ("BTC/USDT:USDT", Some Sample.nullRate)] pushed /\
    outcome (FundingRatesJs.fetchBinanceFundingRates Sample.codeUnitCompare
               (Sample.snapshotExchange "binance"
                  [("ETH/USDT:USDT", Some Sample.eightHours);
                   ("BTC/USD:BTC", Some Sample.eightHours);
                   ("SOL/USDT:USDT", None);
                   ("XRP/USDT:USDT",
                    Some (Sample.info RUndefined (Ms 1700000000000) (Ms 1700028800000)));
                   ("BTC/USDT:USDT", Some Sample.nullRate)])) =
      Ok (sortBy (FundingRatesJs.bySymbol Sample.codeUnitCompare) pushed).
Proof.
  exact (binance_records Sample.codeUnitCompare
           (Sample.snapshotExchange "binance"
              [("ETH/USDT:USDT", Some Sample.eightHours);
               ("BTC/USD:BTC", Some Sample.eightHours);
               ("SOL/USDT:USDT", None);
               ("XRP/USDT:USDT",
                Some (Sample.info RUndefined (Ms 1700000000000) (Ms 1700028800000)));
               ("BTC/USDT:USDT", Some Sample.nullRate)])
           []
           [("ETH/USDT:USDT", Some Sample.eightHours);
            ("BTC/USD:BTC", Some Sample.eightHours);
            ("SOL/USDT:USDT", None);
            ("XRP/USDT:USDT",
             Some (Sample.info RUndefined (Ms 1700000000000) (Ms 1700028800000)));
            ("BTC/USDT:USDT", Some Sample.nullRate)]
           eq_refl eq_refl).
Defined.

Lemma binanceShaped_Forall (lc : string -> string -> Z) (ex : Exchange) :
  exists l,
    outcome (FundingRatesJs.fetchBinanceFundingRates lc ex) = Ok l /\
    Forall binanceShaped l.
Proof.
  unfold FundingRatesJs.fetchBinanceFundingRates, await, catchIO, bindIO, ret.
  destruct (loadMarkets ex) as [markets|e1]; [|exists []; split; [reflexivity | constructor]].
  destruct (fetchFundingRates ex) as [[entries|]|e2];
    [|exists []; split; [reflexivity | constructor]
     |exists []; split; [reflexivity | constructor]].
  destruct entries as [|entry entries]; [exists []; split; [reflexivity | constructor]|].
  remember (entry :: entries) as all.
  destruct (binanceLoop_shaped ex
              (filter (fun e => JsString.includes "USDT" (fst e) &&
                                JsString.includes ":" (fst e)) all)
              ltac:(apply Forall_forall; intros x Hx; now apply filter_In in Hx)
              {| FundingRatesJs.result := []; FundingRatesJs.processedCount := 0 |}
              (Forall_nil _)) as [st [log [E [S L]]]].
  rewrite E. eexists. split; [reflexivity | now apply sortBy_Forall].
Qed.

Lemma binance_shape_rates (lc : string -> string -> Z) (ex : Exchange)
    (b : list FundingRecord) :
  outcome (FundingRatesJs.fetchBinanceFundingRates lc ex) = Ok b ->
  Forall (fun r => fundingRate r <> None) b.
Proof.
  intros E. destruct (binanceShaped_Forall lc ex) as [l [El Sh]].
  rewrite El in E. inversion E. subst l.
  rewrite Forall_forall in *. intros r Hr. exact (proj1 (proj2 (Sh r Hr))).
Qed.

(** X13: since the records of the Binance adapter never have a null
    rate, every symbol that the output of the Binance adapter shares
    with the records of MEXC has a row in the paired table, whatever the
    MEXC rate is. *)
Theorem binance_symbols_compared :
  forall lc ex b m s,
    outcome (FundingRatesJs.fetchBinanceFundingRates lc ex) = Ok b ->
    In s (map symbol b) -> In s (map symbol m) ->
    exists e, In e (FundingRatesJs.comparisonTable b m) /\
              FundingRatesJs.e_symbol e = s.
Proof.
  intros lc ex b m s E Hb Hm.
  pose proof (binance_shape_rates lc ex b E) as R.
  apply toMap_keys in Hb as [bd Gb]. apply toMap_keys in Hm as [md Gm].
  pose proof (proj1 (toMap_get_In _ _ _ Gb)) as Ib.
  rewrite Forall_forall in R. pose proof (R bd Ib) as Rb.
  assert (C : exists e,
             FundingRatesJs.compareSymbol (FundingRatesJs.toMap b)
               (FundingRatesJs.toMap m) s = [e]).
  { unfold FundingRatesJs.compareSymbol. rewrite Gb, Gm.
    destruct (fundingRate bd); [|contradiction]. simpl. eexists. reflexivity. }
  destruct C as [e Ce]. exists e. split.
  - apply comparisonTable_In. exists s. split.
    + apply allSymbols_In. left. now exists bd.
    + rewrite Ce. now left.
  - apply (compareSymbol_symbol (FundingRatesJs.toMap b) (FundingRatesJs.toMap m)).
    rewrite Ce. now left.
Qed.

Lemma binance_symbols_compared_witness :
  exists e,
    In e (FundingRatesJs.comparisonTable
            [FundingRatesJs.binanceRecord "BTC/USDT:USDT" "BTC" Sample.nullRate (Some 8)]
            [Sample.rated "MEXC" "BTC" None]) /\
    FundingRatesJs.e_symbol e = "BTC".
Proof.
  apply (binance_symbols_compared Sample.codeUnitCompare
           (Sample.snapshotExchange "binance" [("BTC/USDT:USDT", Some Sample.nullRate)])).
  - vm_compute. reflexivity.
  - now left.
  - now left.
Defined.

(** ** Symbols *)

Lemma append_nil (s : string) : String.append s "" = s.
Proof. induction s as [|c s IH]; simpl; [reflexivity | now rewrite IH]. Qed.

Lemma append_assoc (a b c : string) :
  String.append (String.append a b) c = String.append a (String.append b c).
Proof. induction a as [|x a IH]; simpl; [reflexivity | now rewrite IH]. Qed.

Lemma startsWith_append (p t : string) : JsString.startsWith p (String.append p t) = true.
Proof.
  induction p as [|c p IH]; simpl; [reflexivity|].
  now rewrite Ascii.eqb_refl, IH.
Qed.

Lemma drop_append (p t : string) : JsString.drop (String.length p) (String.append p t) = t.
Proof. induction p as [|c p IH]; simpl; [reflexivity | exact IH]. Qed.

Lemma removeFirst_after (c : ascii) (p base t : string) :
  lacks c base = true ->
  JsString.removeFirst (String c p) (String.append base (String c (String.append p t))) =
  String.append base t.
Proof.
  intros L. induction base as [|x base IH].
  - cbn [String.append]. unfold JsString.removeFirst.
    change (String c (String.append p t)) with (String.append (String c p) t).
    destruct t; now rewrite startsWith_append, drop_append.
  - cbn [lacks] in L. apply andb_true_iff in L as [N L].
    apply negb_true_iff in N.
    cbn [String.append JsString.removeFirst JsString.startsWith].
    rewrite (Ascii.eqb_sym c x), N. cbn [andb]. now rewrite (IH L).
Qed.

Lemma removeFirst_absent (p s : string) :
  JsString.includes p s = false -> JsString.removeFirst p s = s.
Proof.
  induction s as [|x s IH]; cbn [JsString.includes JsString.removeFirst]; intros H;
    apply orb_false_iff in H as [H1 H2]; rewrite H1; [reflexivity|].
  now rewrite (IH H2).
Qed.

Lemma splitHead_append (sep : ascii) (base t : string) :
  lacks sep base = true ->
  JsString.splitHead sep (String.append base (String sep t)) = base.
Proof.
  intros L. induction base as [|x base IH]; cbn [String.append JsString.splitHead].
  - now rewrite Ascii.eqb_refl.
  - cbn [lacks] in L. apply andb_true_iff in L as [N L].
    destruct (Ascii.eqb x sep); [discriminate|]. now rewrite (IH L).
Qed.

Lemma lacks_append (c : ascii) (a b : string) :
  lacks c (String.append a b) = lacks c a && lacks c b.
Proof.
  induction a as [|x a IH]; simpl; [reflexivity|]. rewrite IH. now rewrite andb_assoc.
Qed.


Lemma upperChar_colon (x : ascii) :
  Ascii.eqb x ":"%char = false -> Ascii.eqb (JsString.upperChar x) ":"%char = false.
Proof.
  destruct x as [[] [] [] [] [] [] [] []]; intros H; try discriminate H; reflexivity.
Qed.

Lemma upperChar_slash (x : ascii) :
  Ascii.eqb x "/"%char = false -> Ascii.eqb (JsString.upperChar x) "/"%char = false.
Proof.
  destruct x as [[] [] [] [] [] [] [] []]; intros H; try discriminate H; reflexivity.
Qed.

Lemma toUpperCase_lacks (c : ascii) (s : string) :
  (forall x, Ascii.eqb x c = false -> Ascii.eqb (JsString.upperChar x) c = false) ->
  lacks c s = true -> lacks c (JsString.toUpperCase s) = true.
Proof.
  intros U. induction s as [|x s IH]; cbn [lacks JsString.toUpperCase]; [reflexivity|].
  intros H. apply andb_true_iff in H as [N L].
  apply negb_true_iff in N. now rewrite (U x N), (IH L).
Qed.

Lemma binanceBase_format (base : string) :
  lacks ":" base = true -> lacks "/" base = true ->
  FundingRatesJs.binanceBase (String.append base "/USDT:USDT") = base.
Proof.
  intros C S. unfold FundingRatesJs.binanceBase.
  change "/USDT:USDT" with (String.append "/USDT" (String ":" "USDT")).
  rewrite <- append_assoc, splitHead_append.
  - pose proof (removeFirst_after "/" "USDT" base "" S) as R.
    cbn [String.append] in R. rewrite append_nil in R. exact R.
  - rewrite lacks_append, C. reflexivity.
Qed.

(** X14: the two adapters agree on the shape of symbols.  A Binance
    key made of a base without colon or slash followed by /USDT:USDT
    gives back the base as symbol.  A MEXC symbol made of a base without
    underscore or USDT in it followed by _USDT gives the base in upper
    case as symbol, and the full symbol the adapter writes for it is one
    the Binance rule reads back to the same symbol. *)
Theorem symbol_formats_agree :
  (forall base,
     lacks ":" base = true -> lacks "/" base = true ->
     FundingRatesJs.binanceBase (String.append base "/USDT:USDT") = base) /\
  (forall item r base,
     FundingRatesJs.mexcRecord item = Ok (Some r) ->
     FundingRatesJs.m_symbol item = Some (String.append base "_USDT") ->
     lacks "_" base = true -> JsString.includes "USDT" base = false ->
     symbol r = JsString.toUpperCase base /\
     fullSymbol r = String.append (symbol r) "/USDT:USDT" /\
     (lacks ":" base = true -> lacks "/" base = true ->
      FundingRatesJs.binanceBase (fullSymbol r) = symbol r)).
Proof.
  split; [exact binanceBase_format|].
  intros item r base H M U N.
  assert (B : JsString.toUpperCase
                (JsString.removeFirst "USDT"
                   (JsString.removeFirst "_USDT" (String.append base "_USDT"))) =
              JsString.toUpperCase base).
  { pose proof (removeFirst_after "_" "USDT" base "" U) as R.
    cbn [String.append] in R. rewrite append_nil in R. rewrite R.
    now rewrite (removeFirst_absent _ _ N). }
  unfold FundingRatesJs.mexcRecord in H. rewrite M in H.
  destruct (JsString.includes "USDT" (String.append base "_USDT")); [|discriminate].
  rewrite B in H.
  assert (G : symbol r = JsString.toUpperCase base /\
              fullSymbol r = String.append (JsString.toUpperCase base) "/USDT:USDT").
  { destruct (truthyT (FundingRatesJs.m_nextSettleTime item)).
    - unfold bindE in H.
      destruct (FundingRatesJs.isoOf (FundingRatesJs.minusHours _ _)); [|discriminate].
      destruct (FundingRatesJs.isoOf _); [|discriminate].
      inversion H. split; reflexivity.
    - inversion H. split; reflexivity. }
  destruct G as [G1 G2]. rewrite G2, G1. repeat split.
  intros C S. apply binanceBase_format.
  - apply toUpperCase_lacks; [exact upperChar_colon | exact C].
  - apply toUpperCase_lacks; [exact upperChar_slash | exact S].
Qed.

Lemma symbol_formats_agree_witness :
  FundingRatesJs.binanceBase (String.append "1000PEPE" "/USDT:USDT") = "1000PEPE".
Proof.
  apply (proj1 symbol_formats_agree "1000PEPE"); reflexivity.
Defined.

(** X15: every name on the one-hour list is classified as 1; every
    name on the major list is classified as 8, except DOGE and SHIB,
    which the meme patterns take first. *)
Theorem fallback_tables :
  forall sym s,
    (In s FundingRatesJs.likely1HCoins -> FundingRatesJs.smartFallback sym s = 1) /\
    (In s FundingRatesJs.major8HCoins -> s <> "DOGE" -> s <> "SHIB" ->
     FundingRatesJs.smartFallback sym s = 8).
Proof.
  intros sym s. rewrite smartFallback_inOrder. split.
  - unfold FundingRatesJs.likely1HCoins. intros H.
    repeat (destruct H as [<-|H]; [vm_compute; reflexivity|]). contradiction.
  - unfold FundingRatesJs.major8HCoins. intros H N1 N2.
    repeat (destruct H as [<-|H];
            [first [vm_compute; reflexivity | exfalso; congruence]|]).
    contradiction.
Qed.

Lemma fallback_tables_witness :
  FundingRatesJs.smartFallback "TRUMP/USDT:USDT" "TRUMP" = 1 /\
  FundingRatesJs.smartFallback "BTC/USDT:USDT" "BTC" = 8.
Proof.
  split.
  - apply (proj1 (fallback_tables "TRUMP/USDT:USDT" "TRUMP")).
    vm_compute. tauto.
  - apply (proj2 (fallback_tables "BTC/USDT:USDT" "BTC")).
    + vm_compute. tauto.
    + discriminate.
    + discriminate.
Defined.

(** ** The batches of the second handler file *)

Lemma firstn_add {A : Type} (a b : nat) (l : list A) :
  firstn (a + b) l = firstn a l ++ firstn b (skipn a l).
Proof.
  revert l. induction a as [|a IH]; intros l; simpl; [reflexivity|].
  destruct l as [|x l]; simpl.
  - now rewrite firstn_nil.
  - now rewrite IH.
Qed.

Lemma slicesFrom_multiple {X : Type} (size : nat) (l : list X) :
  (0 < size)%nat ->
  forall k fuel i,
    (k <= fuel)%nat ->
    List.concat (Part000.slicesFrom fuel i (i + k * size) size l) =
    firstn (k * size) (skipn i l).
Proof.
  intros P. induction k as [|k IH]; intros fuel i F.
  - rewrite Nat.add_0_r. destruct fuel; simpl; [reflexivity|].
    now rewrite Nat.ltb_irrefl.
  - destruct fuel as [|fuel]; [lia|]. cbn [Part000.slicesFrom].
    replace (Nat.ltb i (i + S k * size)) with true
      by (symmetry; apply Nat.ltb_lt; simpl; lia).
    cbn [List.concat].
    replace (i + S k * size)%nat with ((i + size) + k * size)%nat by (simpl; lia).
    rewrite IH by lia.
    replace (S k * size)%nat with (size + k * size)%nat by (simpl; lia).
    rewrite firstn_add, skipn_skipn. f_equal. f_equal. f_equal. lia.
Qed.

Lemma slicesFrom_all {X : Type} (size : nat) (l : list X) :
  (0 < size)%nat ->
  forall fuel i,
    (List.length l - i <= fuel)%nat ->
    List.concat (Part000.slicesFrom fuel i (List.length l) size l) = skipn i l.
Proof.
  intros P. induction fuel as [|fuel IH]; intros i F; cbn [Part000.slicesFrom].
  - symmetry. apply skipn_all2. lia.
  - destruct (Nat.ltb_spec i (List.length l)) as [L|L].
    + cbn [List.concat]. rewrite IH by lia.
      rewrite <- (firstn_skipn size (skipn i l)) at 2.
      f_equal. rewrite skipn_skipn. f_equal. lia.
    + symmetry. apply skipn_all2. lia.
Qed.

Lemma slices_whole {X : Type} (size : nat) (l : list X) :
  (0 < size)%nat -> List.concat (Part000.slices (List.length l) size l) = l.
Proof.
  intros P. unfold Part000.slices. rewrite slicesFrom_all by lia. reflexivity.
Qed.

Lemma slices_first_fifty {X : Type} (l : list X) :
  List.concat (Part000.slices (Nat.min (List.length l) 50) 5 l) = firstn 50 l.
Proof.
  unfold Part000.slices.
  destruct (Nat.le_gt_cases (List.length l) 50) as [L|L].
  - rewrite Nat.min_l by assumption. rewrite slicesFrom_all by lia.
    change (skipn 0 l) with l. symmetry. now apply firstn_all2.
  - rewrite Nat.min_r by lia.
    change 50%nat with (0 + 10 * 5)%nat at 2.
    rewrite (slicesFrom_multiple 5 l ltac:(lia) 10 50 0) by lia. reflexivity.
Qed.

Lemma pushed_length (tasks : list Part000.Task) :
  (List.length (flat_map Part000.pushed tasks) <= List.length tasks)%nat.
Proof.
  induction tasks as [|t tasks IH]; simpl; [lia|].
  rewrite length_app. unfold Part000.pushed at 1.
  destruct (Part000.t_outcome t) as [[r|]|e]; simpl; lia.
Qed.

Lemma promiseAll_tickers (tl : string -> Z) (ex : Exchange) (batch : list string)
    (result : list FundingRecord) :
  Part000.promiseAll (map (Part000.tickerTask tl ex) batch) result =
  (Ok (result ++
       flat_map Part000.pushed
         (sortBy Part000.byLatency (map (Part000.tickerTask tl ex) batch))),
   map (fun sym => (id ex, FetchTicker sym)) batch).
Proof.
  unfold Part000.promiseAll.
  assert (R : flat_map Part000.rejection (map (Part000.tickerTask tl ex) batch) = []).
  { induction batch as [|s batch IH]; simpl; [reflexivity|].
    rewrite IH. unfold Part000.rejection, Part000.tickerTask. cbn.
    now destruct (fetchTicker ex s). }
  assert (Q : flat_map Part000.t_requests (map (Part000.tickerTask tl ex) batch) =
              map (fun sym => (id ex, FetchTicker sym)) batch).
  { clear R. induction batch as [|s batch IH]; [reflexivity|].
    cbn [map flat_map]. rewrite IH. reflexivity. }
  assert (S1 : filter Part000.suspended (map (Part000.tickerTask tl ex) batch) =
               map (Part000.tickerTask tl ex) batch).
  { clear R Q. induction batch as [|s batch IH]; simpl; [reflexivity|]. now rewrite IH. }
  assert (S2 : filter (fun t => negb (Part000.suspended t))
                 (map (Part000.tickerTask tl ex) batch) = []).
  { clear R Q S1. induction batch as [|s batch IH]; simpl; [reflexivity|]. exact IH. }
  rewrite R, Q, S1, S2. reflexivity.
Qed.

Lemma tickerTask_pushed (tl : string -> Z) (ex : Exchange) (batch : list string)
    (r : FundingRecord) :
  In r (flat_map Part000.pushed
          (sortBy Part000.byLatency (map (Part000.tickerTask tl ex) batch))) ->
  tickerShaped r /\ In (fullSymbol r) batch.
Proof.
  intros H. apply in_flat_map in H as [t [Ht Hr]].
  apply sortBy_In in Ht. apply in_map_iff in Ht as [s [<- Hs]].
  unfold Part000.pushed, Part000.tickerTask in Hr. cbn in Hr.
  destruct (fetchTicker ex s); [|contradiction].
  destruct Hr as [<-|[]]. split; [repeat split | exact Hs].
Qed.

Lemma mexcBatches (tl : string -> Z) (ex : Exchange) (batches : list (list string)) :
  forall result,
    exists added,
      Part000.forBatches
        (fun batch result => Part000.promiseAll (map (Part000.tickerTask tl ex) batch) result)
        batches result =
        (Ok (result ++ added),
         map (fun sym => (id ex, FetchTicker sym)) (List.concat batches)) /\
      Forall (fun r => tickerShaped r /\ In (fullSymbol r) (List.concat batches)) added /\
      (List.length added <= List.length (List.concat batches))%nat.
Proof.
  induction batches as [|batch batches IH]; intros result.
  - exists []. rewrite app_nil_r. repeat split; [constructor | simpl; lia].
  - cbn [Part000.forBatches List.concat]. rewrite promiseAll_tickers. unfold bindIO.
    destruct (IH (result ++
                  flat_map Part000.pushed
                    (sortBy Part000.byLatency (map (Part000.tickerTask tl ex) batch))))
      as [added [E [F L]]].
    rewrite E.
    exists (flat_map Part000.pushed
              (sortBy Part000.byLatency (map (Part000.tickerTask tl ex) batch)) ++ added).
    split; [now rewrite <- app_assoc, map_app|]. split.
    + apply Forall_app. split.
      * apply Forall_forall. intros r Hr.
        destruct (tickerTask_pushed tl ex batch r Hr) as [T I].
        split; [exact T|]. apply in_or_app. now left.
      * rewrite Forall_forall in *. intros r Hr. destruct (F r Hr) as [T I].
        split; [exact T|]. apply in_or_app. now right.
    + rewrite !length_app.
      pose proof (pushed_length
                    (sortBy Part000.byLatency (map (Part000.tickerTask tl ex) batch))) as PL.
      rewrite sortBy_length, length_map in PL. lia.
Qed.

(** X16: the MEXC adapter of the second handler file asks for the
    tickers of the first 50 swap markets quoted in USDT, in their order
    and for no other, after loading the markets; it returns at most 50
    records, each without a rate, with the interval 8, and for one of
    those 50 markets. *)
Theorem part000_mexc_first_fifty :
  forall tl ex markets,
    loadMarkets ex = Ok markets ->
    requests (Part000.fetchMexcFundingRates tl ex) =
      (id ex, LoadMarkets) ::
      map (fun sym => (id ex, FetchTicker sym)) (firstn 50 (swapSymbols markets)) /\
    exists l,
      outcome (Part000.fetchMexcFundingRates tl ex) = Ok l /\
      (List.length l <= 50)%nat /\
      Forall (fun r => tickerShaped r /\
                       In (fullSymbol r) (firstn 50 (swapSymbols markets))) l.
Proof.
  intros tl ex markets L.
  unfold Part000.fetchMexcFundingRates, await, catchIO, bindIO. rewrite L.
  fold (swapSymbols markets).
  destruct (mexcBatches tl ex
              (Part000.slices (Nat.min (List.length (swapSymbols markets)) 50) 5
                 (swapSymbols markets)) []) as [added [E [F Ln]]].
  rewrite E, slices_first_fifty. rewrite slices_first_fifty in F, Ln.
  cbn [requests outcome fst snd app]. split; [reflexivity|].
  exists added. split; [reflexivity|]. split; [|exact F].
  pose proof (firstn_le_length 50 (swapSymbols markets)). lia.
Qed.

Lemma part000_mexc_first_fifty_witness :
  requests (Part000.fetchMexcFundingRates (fun _ => 0) Sample.tickerExchange) =
  [("mexc", LoadMarkets);
   ("mexc", FetchTicker "BTC/USDT:USDT");
   ("mexc", FetchTicker "SOL/USDT:USDT")].
Proof.
  exact (proj1 (part000_mexc_first_fifty (fun _ => 0) Sample.tickerExchange
                  [("BTC/USDT:USDT", mkMarket true);
                   ("ETH/USDT", mkMarket false);
                   ("SOL/USDT:USDT", mkMarket true)] eq_refl)).
Defined.

(** ** The generic adapter of the second handler file *)

Lemma promiseAll_rejects (tasks : list Part000.Task) (result : list FundingRecord)
    (t : Part000.Task) (e : string) :
  In t tasks -> Part000.t_outcome t = Throw e ->
  exists e', outcome (Part000.promiseAll tasks result) = Throw e'.
Proof.
  intros I T. unfold Part000.promiseAll.
  destruct (flat_map Part000.rejection tasks) as [|e' rest] eqn:R.
  - exfalso.
    assert (X : In e (flat_map Part000.rejection tasks)).
    { apply in_flat_map. exists t. split; [exact I|].
      unfold Part000.rejection. rewrite T. now left. }
    rewrite R in X. exact X.
  - now exists e'.
Qed.

Lemma forBatches_rejects {X : Type} (task : X -> Part000.Task) (batches : list (list X)) :
  forall result x e,
    In x (List.concat batches) -> Part000.t_outcome (task x) = Throw e ->
    exists e',
      outcome (Part000.forBatches
                 (fun batch result => Part000.promiseAll (map task batch) result)
                 batches result) = Throw e'.
Proof.
  induction batches as [|batch batches IH]; intros result x e I T; [contradiction|].
  cbn [List.concat] in I. cbn [Part000.forBatches]. unfold bindIO.
  destruct (Part000.promiseAll (map task batch) result) as [[result'|e'] log] eqn:P.
  - apply in_app_or in I as [I|I].
    + destruct (promiseAll_rejects (map task batch) result (task x) e
                  (in_map task _ _ I) T) as [e' E].
      rewrite P in E. discriminate.
    + destruct (IH result' x e I T) as [e' E].
      destruct (Part000.forBatches _ batches result') as [r l'].
      exists e'. exact E.
  - now exists e'.
Qed.

Lemma rateTask_body (hl : string -> Z) (name : string) (ex : Exchange)
    (entry : string * option FundingInfo) :
  hasData entry ->
  exists r,
    Part000.t_outcome (Part000.rateTask hl name ex entry) = Ok (Some r) /\
    fullSymbol r = fst entry /\ namedRecord name r.
Proof.
  destruct entry as [sym [data|]]; unfold hasData; simpl; [intros _ | congruence].
  eexists. split; [reflexivity|]. split; [reflexivity|]. split; [reflexivity|].
  cbn [fundingIntervalHours].
  match goal with
  | |- truthyI (if negb (truthyI ?s) then _ else _) = true =>
      destruct (truthyI s) eqn:E; cbn [negb]; [exact E|]
  end.
  now destruct (String.eqb name "binance").
Qed.

Lemma filter_partition_perm {X : Type} (f : X -> bool) (l : list X) :
  Permutation (filter (fun x => negb (f x)) l ++ filter f l) l.
Proof.
  induction l as [|x l IH]; simpl; [constructor|].
  destruct (f x); simpl.
  - symmetry. apply Permutation_cons_app. now symmetry.
  - now constructor.
Qed.

Lemma promiseAll_rates (hl : string -> Z) (name : string) (ex : Exchange)
    (batch : list (string * option FundingInfo)) (result : list FundingRecord) :
  Forall hasData batch ->
  exists added,
    outcome (Part000.promiseAll (map (Part000.rateTask hl name ex) batch) result) =
      Ok (result ++ added) /\
    Permutation (map fullSymbol added) (map fst batch) /\
    Forall (namedRecord name) added.
Proof.
  intros D. unfold Part000.promiseAll.
  set (tasks := map (Part000.rateTask hl name ex) batch).
  assert (R : flat_map Part000.rejection tasks = []).
  { subst tasks. induction D as [|entry batch H D IH]; [reflexivity|].
    cbn [map flat_map]. rewrite IH.
    destruct (rateTask_body hl name ex entry H) as [r [E _]].
    unfold Part000.rejection. now rewrite E. }
  rewrite R.
  assert (P : Permutation
                (flat_map Part000.pushed
                   (filter (fun t => negb (Part000.suspended t)) tasks) ++
                 flat_map Part000.pushed
                   (sortBy Part000.byLatency (filter Part000.suspended tasks)))
                (flat_map Part000.pushed tasks)).
  { rewrite <- flat_map_app. apply Permutation_flat_map.
    rewrite (sortBy_perm Part000.byLatency). apply filter_partition_perm. }
  assert (Q : map fullSymbol (flat_map Part000.pushed tasks) = map fst batch /\
              Forall (namedRecord name) (flat_map Part000.pushed tasks)).
  { subst tasks. clear R P. induction D as [|entry batch H D [IH1 IH2]].
    - split; [reflexivity | constructor].
    - cbn [map flat_map].
      destruct (rateTask_body hl name ex entry H) as [r [E [F N]]].
      unfold Part000.pushed at 1 3. rewrite E. cbn [app map].
      split; [now rewrite IH1, F | now constructor]. }
  destruct Q as [Q1 Q2].
  eexists. split; [reflexivity|]. split.
  - rewrite <- Q1. now apply Permutation_map.
  - eapply Permutation_Forall; [symmetry; exact P | exact Q2].
Qed.

Lemma rateBatches (hl : string -> Z) (name : string) (ex : Exchange)
    (batches : list (list (string * option FundingInfo))) :
  Forall hasData (List.concat batches) ->
  forall result,
    exists added,
      outcome (Part000.forBatches
                 (fun batch result =>
                    Part000.promiseAll (map (Part000.rateTask hl name ex) batch) result)
                 batches result) = Ok (result ++ added) /\
      Permutation (map fullSymbol added) (map fst (List.concat batches)) /\
      Forall (namedRecord name) added.
Proof.
  induction batches as [|batch batches IH]; intros D result.
  - exists []. rewrite app_nil_r. repeat split; constructor.
  - cbn [List.concat] in D. apply Forall_app in D as [D1 D2].
    cbn [Part000.forBatches List.concat]. unfold bindIO.
    destruct (promiseAll_rates hl name ex batch result D1) as [a1 [E1 [P1 N1]]].
    destruct (Part000.promiseAll (map (Part000.rateTask hl name ex) batch) result)
      as [o log]. cbn [outcome fst] in E1. subst o.
    destruct (IH D2 (result ++ a1)) as [a2 [E2 [P2 N2]]].
    destruct (Part000.forBatches _ batches (result ++ a1)) as [o2 log2].
    cbn [outcome fst] in E2. subst o2.
    exists (a1 ++ a2). split; [cbn; now rewrite app_assoc|]. split.
    + rewrite !map_app. now apply Permutation_app.
    + apply Forall_app. now split.
Qed.

Lemma part000_generic_body (hl tl : string -> Z) (name : string) (ex : Exchange)
    (markets : list (string * Market)) (entries : list (string * option FundingInfo)) :
  String.eqb name "mexc" = false ->
  loadMarkets ex = Ok markets ->
  fetchFundingRates ex = Ok (Some entries) ->
  outcome (Part000.fetchFundingRates hl tl name ex) =
  match outcome (Part000.forBatches
                   (fun batch result =>
                      Part000.promiseAll (map (Part000.rateTask hl name ex) batch) result)
                   (Part000.slices (List.length (perpetuals entries)) 10
                      (perpetuals entries)) []) with
  | Ok l => Ok l
  | Throw _ => Ok []
  end.
Proof.
  intros N L F. unfold Part000.fetchFundingRates. rewrite N.
  unfold await, bindIO, catchIO. rewrite L, F. fold (perpetuals entries).
  destruct (Part000.forBatches _ _ []) as [[l|e] log]; reflexivity.
Qed.

(** X17: in the generic adapter of the second handler file, one key of
    the snapshot that passes the filter and has no object under it makes
    the whole source come back empty: the callback throws, [Promise.all]
    rejects, and the adapter's catch returns [[]], also when every other
    instrument was processed. *)
Theorem part000_missing_data :
  forall hl tl name ex markets entries sym,
    String.eqb name "mexc" = false ->
    loadMarkets ex = Ok markets ->
    fetchFundingRates ex = Ok (Some entries) ->
    In (sym, None) (perpetuals entries) ->
    outcome (Part000.fetchFundingRates hl tl name ex) = Ok [].
Proof.
  intros hl tl name ex markets entries sym N L F I.
  rewrite (part000_generic_body hl tl name ex markets entries N L F).
  destruct (forBatches_rejects (Part000.rateTask hl name ex)
              (Part000.slices (List.length (perpetuals entries)) 10 (perpetuals entries))
              [] (sym, None) "Cannot read properties of undefined") as [e E].
  - rewrite slices_whole by lia. exact I.
  - reflexivity.
  - now rewrite E.
Qed.

Lemma part000_missing_data_witness :
  outcome (Part000.fetchFundingRates (fun _ => 0) (fun _ => 0) "binance"
             (Sample.snapshotExchange "binance"
                [("BTC/USDT:USDT", Some Sample.eightHours);
                 ("ETH/USDT:USDT", None)])) = Ok [].
Proof.
  apply (part000_missing_data (fun _ => 0) (fun _ => 0) "binance"
           (Sample.snapshotExchange "binance"
              [("BTC/USDT:USDT", Some Sample.eightHours); ("ETH/USDT:USDT", None)])
           [] [("BTC/USDT:USDT", Some Sample.eightHours); ("ETH/USDT:USDT", None)]
           "ETH/USDT:USDT").
  - reflexivity.
  - reflexivity.
  - reflexivity.
  - vm_compute. right. left. reflexivity.
Defined.

(** X18: when the snapshot has an object under every key that passes
    the filter, the generic adapter of the second handler file returns
    exactly one record for each such key (the full symbols of the
    records are the filtered keys, up to the order in which the callbacks
    finish); every record carries the upper-cased exchange name and an
    interval that is neither null nor zero. *)
Theorem part000_all_processed :
  forall hl tl name ex markets entries,
    String.eqb name "mexc" = false ->
    loadMarkets ex = Ok markets ->
    fetchFundingRates ex = Ok (Some entries) ->
    Forall hasData (perpetuals entries) ->
    exists l,
      outcome (Part000.fetchFundingRates hl tl name ex) = Ok l /\
      Permutation (map fullSymbol l) (map fst (perpetuals entries)) /\
      Forall (namedRecord name) l.
Proof.
  intros hl tl name ex markets entries N L F D.
  rewrite (part000_generic_body hl tl name ex markets entries N L F).
  destruct (rateBatches hl name ex
              (Part000.slices (List.length (perpetuals entries)) 10 (perpetuals entries)))
    with (result := @nil FundingRecord) as [added [E [P S]]].
  - rewrite slices_whole by lia. exact D.
  - rewrite E. rewrite slices_whole in P by lia.
    exists added. split; [reflexivity|]. split; assumption.
Qed.

Lemma part000_all_processed_witness :
  exists l,
    outcome (Part000.fetchFundingRates Sample.slowForAAA (fun _ => 0) "binance"
               (Sample.snapshotExchange "binance"
                  [("AAA/USDT:USDT", Some Sample.bare);
                   ("BTC/USD:BTC", Some Sample.bare);
                   ("BBB/USDT:USDT", Some Sample.eightHours)])) = Ok l /\
    Permutation (map fullSymbol l) ["AAA/USDT:USDT"; "BBB/USDT:USDT"] /\
    Forall (namedRecord "binance") l.
Proof.
  apply (part000_all_processed Sample.slowForAAA (fun _ => 0) "binance"
           (Sample.snapshotExchange "binance"
              [("AAA/USDT:USDT", Some Sample.bare);
               ("BTC/USD:BTC", Some Sample.bare);
               ("BBB/USDT:USDT", Some Sample.eightHours)])
           []
           [("AAA/USDT:USDT", Some Sample.bare);
            ("BTC/USD:BTC", Some Sample.bare);
            ("BBB/USDT:USDT", Some Sample.eightHours)]).
  - reflexivity.
  - reflexivity.
  - reflexivity.
  - vm_compute. repeat constructor; discriminate.
Defined.

(** ** The handler of the second handler file *)

Lemma byRate_descending (l : list FundingRecord) :
  descending (sortBy Part000.byRate l).
Proof.
  unfold descending.
  apply (StronglySorted_weaken (ordered Part000.byRate)).
  - unfold ordered, Part000.byRate, rateOf. intros a b. lia.
  - apply Sorted_StronglySorted.
    + unfold ordered, Part000.byRate. intros a b c. lia.
    + apply sortBy_sorted. unfold Part000.byRate. intros a b. lia.
Qed.

Lemma withRate_insertBy (k : Z) (x : FundingRecord) (l : list FundingRecord) :
  withRate k (insertBy Part000.byRate x l) = withRate k (x :: l).
Proof.
  unfold withRate. induction l as [|y l IH]; [reflexivity|].
  cbn [insertBy]. destruct (Z.leb_spec (Part000.byRate x y) 0) as [L|L]; [reflexivity|].
  cbn [filter] in *. rewrite IH.
  unfold Part000.byRate in L. fold (rateOf x) in L. fold (rateOf y) in L.
  destruct (Z.eqb_spec (rateOf x) k) as [Ex|Ex];
    destruct (Z.eqb_spec (rateOf y) k) as [Ey|Ey]; try reflexivity.
  lia.
Qed.

Lemma withRate_sortBy (k : Z) (l : list FundingRecord) :
  withRate k (sortBy Part000.byRate l) = withRate k l.
Proof.
  induction l as [|x l IH]; [reflexivity|].
  cbn [sortBy fold_right]. fold (sortBy Part000.byRate l).
  rewrite withRate_insertBy. unfold withRate in *. cbn [filter]. now rewrite IH.
Qed.

Lemma descending_extremes (l : list FundingRecord) :
  descending l -> l <> [] ->
  exists hi lo,
    nth_error l 0 = Some hi /\
    nth_error l (List.length l - 1) = Some lo /\
    In lo l /\
    forall r, In r l -> rateOf lo <= rateOf r <= rateOf hi.
Proof.
  unfold descending. induction 1 as [|a l S IH F]; intros N; [congruence|].
  rewrite Forall_forall in F.
  destruct l as [|b l].
  - exists a, a. split; [reflexivity|]. split; [reflexivity|].
    split; [now left|]. intros r [<-|[]]. lia.
  - destruct (IH ltac:(discriminate)) as [hi [lo [H0 [Hn [Il B]]]]].
    exists a, lo. split; [reflexivity|]. split.
    + cbn [List.length] in *. rewrite Nat.sub_succ, Nat.sub_0_r.
      rewrite Nat.sub_succ, Nat.sub_0_r in Hn. exact Hn.
    + split; [now right|]. intros r [<-|Hr].
      * split; [apply F, Il | lia].
      * split; [apply B, Hr | apply F, Hr].
Qed.

(** X19: in the response of the second handler file, [data] holds the
    records of both sources, each once, in descending order of rate (a
    null rate counting as 0); records of equal rate keep the order they
    had in the concatenation, Binance first; [totalContracts] is the sum
    of the two counts under [exchanges]; and the summary's highest and
    lowest records are null when there is no record, and otherwise bound
    the rate of every record. *)
Theorem part000_response_sorted :
  forall b m,
    Permutation (Part000.data (Part000.buildResponse b m)) (b ++ m) /\
    descending (Part000.data (Part000.buildResponse b m)) /\
    (forall k, withRate k (Part000.data (Part000.buildResponse b m)) =
               withRate k (b ++ m)) /\
    Part000.totalContracts (Part000.buildResponse b m) =
      Part000.exchangesBinance (Part000.buildResponse b m) +
      Part000.exchangesMexc (Part000.buildResponse b m) /\
    (b ++ m = [] ->
     Part000.highestFundingRate (Part000.buildResponse b m) = None /\
     Part000.lowestFundingRate (Part000.buildResponse b m) = None) /\
    (forall r, In r (b ++ m) ->
       exists hi lo,
         Part000.highestFundingRate (Part000.buildResponse b m) = Some hi /\
         Part000.lowestFundingRate (Part000.buildResponse b m) = Some lo /\
         rateOf lo <= rateOf r <= rateOf hi).
Proof.
  intros b m. unfold Part000.buildResponse.
  cbn [Part000.data Part000.totalContracts Part000.exchangesBinance
       Part000.exchangesMexc Part000.highestFundingRate Part000.lowestFundingRate].
  split; [apply sortBy_perm|]. split; [apply byRate_descending|].
  split; [intros k; apply withRate_sortBy|]. split.
  - rewrite sortBy_length, length_app. lia.
  - split.
    + intros E. rewrite E. now split.
    + intros r Hr.
      destruct (descending_extremes (sortBy Part000.byRate (b ++ m))
                  (byRate_descending (b ++ m))) as [hi [lo [H0 [Hn [_ B]]]]].
      * intros E. apply (sortBy_In Part000.byRate) in Hr. rewrite E in Hr. exact Hr.
      * exists hi, lo. split; [exact H0|]. split; [exact Hn|].
        apply B. now apply sortBy_In.
Qed.

Lemma catchIO_ret {X : Type} (body : io X) (a : X) :
  exists x log, catchIO body (fun _ => ret a) = (Ok x, log).
Proof.
  destruct body as [[x|e] log]; simpl; eauto.
Qed.

Lemma part000_fetch_total (hl tl : string -> Z) (name : string) (ex : Exchange) :
  exists l log, Part000.fetchFundingRates hl tl name ex = (Ok l, log).
Proof.
  unfold Part000.fetchFundingRates. apply catchIO_ret.
Qed.

Lemma part000_handler_get (hl tl : string -> Z) (exs : Part000.Exchanges) :
  exists b m,
    outcome (Part000.fetchFundingRates hl tl "binance" (Part000.binance exs)) = Ok b /\
    outcome (Part000.fetchFundingRates hl tl "mexc" (Part000.mexc exs)) = Ok m /\
    outcome (Part000.handler hl tl exs "GET") =
      Ok (Part000.Json200 (Part000.buildResponse b m)).
Proof.
  destruct (part000_fetch_total hl tl "binance" (Part000.binance exs)) as [b [lb Eb]].
  destruct (part000_fetch_total hl tl "mexc" (Part000.mexc exs)) as [m [lm Em]].
  exists b, m. unfold Part000.handler.
  change (String.eqb "GET" "OPTIONS") with false.
  change (negb (String.eqb "GET" "GET")) with false. cbv iota.
  rewrite Eb, Em. repeat split.
Qed.

(** X21: the handler of the second handler file never answers 500 and
    never throws: OPTIONS is answered 200 with no body, any method other
    than OPTIONS and GET is answered 405, both without a request to an
    exchange, and GET is always answered 200 with the response body,
    whatever the exchanges do. *)
Theorem part000_handler_answers :
  forall hl tl exs method,
    exists r,
      outcome (Part000.handler hl tl exs method) = Ok r /\
      (forall message, r <> Part000.Json500 message) /\
      (r = Part000.End200 <-> method = "OPTIONS") /\
      (r = Part000.Json405 <-> method <> "OPTIONS" /\ method <> "GET") /\
      ((exists payload, r = Part000.Json200 payload) <-> method = "GET") /\
      (method <> "GET" -> requests (Part000.handler hl tl exs method) = []).
Proof.
  intros hl tl exs method.
  destruct (String.eqb_spec method "OPTIONS") as [O|O].
  - subst method. exists Part000.End200. repeat split; try discriminate; try reflexivity.
    + intros [A _]. congruence.
    + intros [p Hp]. discriminate.
  - destruct (String.eqb_spec method "GET") as [G|G].
    + subst method.
      destruct (part000_handler_get hl tl exs) as [b [m [_ [_ E]]]].
      eexists. split; [exact E|]. repeat split; try discriminate; try congruence.
      * intros [_ A]. congruence.
      * eauto.
    + exists Part000.Json405.
      assert (E : Part000.handler hl tl exs method = ret Part000.Json405).
      { unfold Part000.handler.
        destruct (String.eqb_spec method "OPTIONS"); [contradiction|].
        destruct (String.eqb_spec method "GET"); [contradiction|]. reflexivity. }
      rewrite E. repeat split; try discriminate; try congruence.
      intros [p Hp]. discriminate.
Qed.

(** X22: in the second handler file, when Binance's [loadMarkets] fails,
    a GET is still answered 200: the count for Binance is 0 and the data
    are the records of MEXC. *)
Theorem part000_source_down :
  forall hl tl exs e,
    loadMarkets (Part000.binance exs) = Throw e ->
    exists payload m,
      outcome (Part000.handler hl tl exs "GET") = Ok (Part000.Json200 payload) /\
      outcome (Part000.fetchFundingRates hl tl "mexc" (Part000.mexc exs)) = Ok m /\
      Part000.exchangesBinance payload = 0 /\
      Part000.totalContracts payload = Z.of_nat (List.length m) /\
      Permutation (Part000.data payload) m.
Proof.
  intros hl tl exs e L.
  destruct (part000_handler_get hl tl exs) as [b [m [Eb [Em E]]]].
  assert (B : b = []).
  { unfold Part000.fetchFundingRates in Eb.
    change (String.eqb "binance" "mexc") with false in Eb. cbv iota in Eb.
    unfold await, bindIO, catchIO in Eb. rewrite L in Eb.
    cbn in Eb. congruence. }
  subst b. exists (Part000.buildResponse [] m), m.
  split; [exact E|]. split; [exact Em|]. unfold Part000.buildResponse.
  cbn [Part000.exchangesBinance Part000.totalContracts Part000.data app List.length].
  split; [reflexivity|]. split; [now rewrite sortBy_length | apply sortBy_perm].
Qed.

Lemma part000_source_down_witness :
  exists payload m,
    outcome (Part000.handler (fun _ => 0) (fun _ => 0)
               (Part000.mkExchanges (Sample.downExchange "binance") Sample.tickerExchange)
               "GET") = Ok (Part000.Json200 payload) /\
    outcome (Part000.fetchFundingRates (fun _ => 0) (fun _ => 0) "mexc"
               Sample.tickerExchange) = Ok m /\
    Part000.exchangesBinance payload = 0 /\
    Part000.totalContracts payload = Z.of_nat (List.length m) /\
    Permutation (Part000.data payload) m.
Proof.
  exact (part000_source_down (fun _ => 0) (fun _ => 0)
           (Part000.mkExchanges (Sample.downExchange "binance") Sample.tickerExchange)
           "network error" eq_refl).
Defined.

(** ** The history lookup *)

(** X23: the history lookup (the same text in both files) issues
    exactly one request, for the history of the symbol, and never
    throws; it yields an interval only when the history came back with at
    least two events whose first two timestamps are non-zero numbers,
    and the interval is then the number of hours nearest to their
    difference, whatever the later events are. *)
Theorem history_lookup :
  forall ex sym,
    requests (getFundingIntervalForSymbol ex sym) =
      [(id ex, FetchFundingRateHistory sym)] /\
    exists v,
      outcome (getFundingIntervalForSymbol ex sym) = Ok v /\
      forall h,
        v = Some h ->
        exists h0 h1 rest c n,
          fetchFundingRateHistory ex sym = Ok (Some (h0 :: h1 :: rest)) /\
          timestamp h0 = Ms c /\ timestamp h1 = Ms n /\
          c <> 0 /\ n <> 0 /\ nearestHour (n - c) h.
Proof.
  intros ex sym. rewrite getFundingIntervalForSymbol_spec.
  split; [reflexivity|]. exists (historyCandidate ex sym). split; [reflexivity|].
  intros h H. unfold historyCandidate in H.
  destruct (fetchFundingRateHistory ex sym) as [[[|h0 [|h1 rest]]|]|e];
    try discriminate.
  destruct (truthyT (timestamp h0)) eqn:T0.
  2: { rewrite (calculateFundingInterval_falsy _ _ (or_introl T0)) in H. discriminate. }
  destruct (truthyT (timestamp h1)) eqn:T1.
  2: { rewrite (calculateFundingInterval_falsy _ _ (or_intror T1)) in H. discriminate. }
  destruct (truthyT_Ms _ T0) as [c [Ec Nc]].
  destruct (truthyT_Ms _ T1) as [n [En Nn]].
  rewrite Ec, En, (calculateFundingInterval_numbers c n Nc Nn) in H.
  inversion H; subst h.
  exists h0, h1, rest, c, n. repeat split; try assumption; apply roundHours_nearest.
Qed.
